(** * merge_and_score: fingerprint deduplication, reconciliation and scoring

    A shallow embedding of [scripts/merge_and_score.py] of the
    desloppify code-health auditor, and the properties of its merge
    and scoring engine.

    Conventions.
    - A Python [str] is a [string]; an [ascii] stands for the code point
      of the same number, so the development covers strings whose code
      points are below 256.
    - A Python [float] is a binary64 [float] of the kernel, with the
      arithmetic and the comparisons of IEEE 754.
    - A dict read from JSON is an association list looked up by key;
      the dict that [initial_record] builds, whose keys are fixed, is
      the record [merged].
    - The accumulator [buckets] is an association list in insertion
      order, as a Python dict keeps its keys.
    - [sum] over floats is the addition of binary64 from left to
      right, as CPython does it up to version 3.11; from 3.12 on [sum]
      compensates the rounding errors of the additions and can differ
      from it in the last place.
    - [main] is given the files that [list_json_files] found, each
      with the value parsed from it; the module [Files] below adds the
      paths that do not exist and the files that fail to parse. *)

From Stdlib Require Import List String Ascii ZArith NArith Bool Arith Lia.
From Stdlib Require Import DecimalString Permutation.
From Stdlib Require Import Floats.
From Stdlib Require Import Sorted.
From Stdlib Require DecimalNat OrderedTypeEx.
Import ListNotations.

#[local] Set Warnings "-inexact-float".
#[local] Open Scope string_scope.
#[local] Open Scope Z_scope.

(** ** Strings *)

Module Str.

(** [str.isspace] on the code points below 256. *)
Definition is_space (c : ascii) : bool :=
  let n := N_of_ascii c in
  ((9 <=? n) && (n <=? 13) || (28 <=? n) && (n <=? 32) || (n =? 133) || (n =? 160))%N.

(** [str.lower] on the code points below 256: A-Z, and the capital
    letters of Latin-1 (0xC0-0xDE but the multiplication sign). *)
Definition lower_char (c : ascii) : ascii :=
  let n := N_of_ascii c in
  if ((65 <=? n) && (n <=? 90) || (192 <=? n) && (n <=? 222) && negb (n =? 215))%N
  then ascii_of_N (n + 32) else c.

Fixpoint lower (s : string) : string :=
  match s with
  | EmptyString => EmptyString
  | String c s' => String (lower_char c) (lower s')
  end.

(** The class [[a-z0-9]] of the fingerprint's regular expression. *)
Definition is_lower_alnum (c : ascii) : bool :=
  let n := N_of_ascii c in
  ((97 <=? n) && (n <=? 122) || (48 <=? n) && (n <=? 57))%N.

Fixpoint lstrip_by (p : ascii -> bool) (s : string) : string :=
  match s with
  | EmptyString => EmptyString
  | String c s' => if p c then lstrip_by p s' else s
  end.

Fixpoint rstrip_by (p : ascii -> bool) (s : string) : string :=
  match s with
  | EmptyString => EmptyString
  | String c s' =>
      match rstrip_by p s' with
      | EmptyString => if p c then EmptyString else String c EmptyString
      | t => String c t
      end
  end.

Definition strip_by (p : ascii -> bool) (s : string) : string :=
  rstrip_by p (lstrip_by p s).

(** [s.strip()] *)
Definition strip (s : string) : string := strip_by is_space s.

Fixpoint mem_char (c : ascii) (chars : string) : bool :=
  match chars with
  | EmptyString => false
  | String d chars' => Ascii.eqb c d || mem_char c chars'
  end.

(** [s.strip(chars)] *)
Definition strip_chars (chars s : string) : string :=
  strip_by (fun c => mem_char c chars) s.

(** [re.sub(p+, " ", s)] for a character class [p]: every maximal run of
    characters of the class becomes one space. [in_run] tells that the
    previous character was of the class. *)
Fixpoint sub_runs (p : ascii -> bool) (in_run : bool) (s : string) : string :=
  match s with
  | EmptyString => EmptyString
  | String c s' =>
      if p c
      then if in_run then sub_runs p true s' else String " " (sub_runs p true s')
      else String c (sub_runs p false s')
  end.

Fixpoint rev_append (acc s : string) : string :=
  match acc with
  | EmptyString => s
  | String c acc' => rev_append acc' (String c s)
  end.

(** [s.split(sep)] for a non-empty separator: [acc] holds the current
    piece backwards, [skip] the characters of a separator still to pass. *)
Fixpoint split_go (sep : string) (skip : nat) (acc : string) (s : string)
  : list string :=
  match s with
  | EmptyString => [rev_append acc EmptyString]
  | String c s' =>
      match skip with
      | S k => split_go sep k acc s'
      | O =>
          if String.prefix sep s
          then rev_append acc EmptyString
                 :: split_go sep (Nat.pred (String.length sep)) EmptyString s'
          else split_go sep O (String c acc) s'
      end
  end.

Definition split (sep s : string) : list string := split_go sep O EmptyString s.

(** [sep.join(parts)] *)
Definition join (sep : string) (parts : list string) : string :=
  String.concat sep parts.

Definition mem (x : string) (l : list string) : bool :=
  existsb (String.eqb x) l.

(** [sorted(set(l))]: the distinct strings of [l] in increasing order. *)
Fixpoint insert_sorted (x : string) (l : list string) : list string :=
  match l with
  | [] => [x]
  | y :: l' =>
      match String.compare x y with
      | Lt => x :: l
      | Eq => l
      | Gt => y :: insert_sorted x l'
      end
  end.

Definition sorted_set (l : list string) : list string :=
  fold_right insert_sorted [] l.

(** [str(n)] for an int. *)
Definition of_Z (z : Z) : string := NilZero.string_of_int (Z.to_int z).

(** [f"{n:03d}"] for a natural number. *)
Definition pad3 (n : nat) : string :=
  let d := NilZero.string_of_uint (Nat.to_uint n) in
  match String.length d with
  | 1%nat => "00" ++ d
  | 2%nat => "0" ++ d
  | _ => d
  end.

End Str.

(** [normalize_text] *)
Definition normalize_text (value : string) : string :=
  let value := Str.lower value in
  let value := Str.sub_runs (fun c => negb (Str.is_lower_alnum c)) false value in
  let value := Str.sub_runs Str.is_space false value in
  Str.strip value.

(** ** JSON values and dicts *)

(** A value held by a field of a finding. A float, a list or a dict
    reaches the merge only through [str()] and [bool()]: [VOther] holds
    these two results. *)
Inductive value : Type :=
| VNone
| VBool (b : bool)
| VInt (z : Z)
| VStr (s : string)
| VOther (rendering : string) (truth : bool).

(** [str(v)] *)
Definition py_str (v : value) : string :=
  match v with
  | VNone => "None"
  | VBool true => "True"
  | VBool false => "False"
  | VInt z => Str.of_Z z
  | VStr s => s
  | VOther s _ => s
  end.

(** [bool(v)] *)
Definition py_bool (v : value) : bool :=
  match v with
  | VNone => false
  | VBool b => b
  | VInt z => negb (z =? 0)
  | VStr s => negb (String.eqb s "")
  | VOther _ t => t
  end.

(** [isinstance(v, int)] with the integer it stands for; [bool] is a
    subclass of [int]. *)
Definition as_int (v : value) : option Z :=
  match v with
  | VInt z => Some z
  | VBool true => Some 1
  | VBool false => Some 0
  | _ => None
  end.

Definition dict (V : Type) : Type := list (string * V).

Fixpoint dict_find {V : Type} (key : string) (d : dict V) : option V :=
  match d with
  | [] => None
  | (k, v) :: d' => if String.eqb key k then Some v else dict_find key d'
  end.

(** [d.get(key, default)] *)
Definition dict_get {V : Type} (key : string) (default : V) (d : dict V) : V :=
  match dict_find key d with
  | Some v => v
  | None => default
  end.

(** [d[key] = v]: in place for a key of [d], at the end otherwise. *)
Fixpoint dict_set {V : Type} (key : string) (v : V) (d : dict V) : dict V :=
  match d with
  | [] => [(key, v)]
  | (k, w) :: d' =>
      if String.eqb key k then (k, v) :: d' else (k, w) :: dict_set key v d'
  end.

(** A finding as loaded: [dict[str, Any]]. *)
Definition finding : Type := dict value.

(** ** Tables *)

Definition DETECTORS : list string :=
  [ "dead_unused_code"; "duplication"; "complexity_size";
    "dependency_coupling"; "naming_consistency"; "debug_logging_leftovers" ].

Definition TIER_WEIGHT : dict Z := [("T1", 20); ("T2", 10); ("T3", 4); ("T4", 1)].
Definition SEVERITY_MULTIPLIER : dict float :=
  [("high", 1.0%float); ("med", 0.6%float); ("low", 0.3%float)].
Definition CONFIDENCE_MULTIPLIER : dict float :=
  [("high", 1.0%float); ("med", 0.75%float); ("low", 0.5%float)].

Definition SEVERITY_RANK : dict Z := [("high", 3); ("med", 2); ("low", 1)].
Definition CONFIDENCE_RANK : dict Z := [("high", 3); ("med", 2); ("low", 1)].
Definition TIER_RANK : dict Z := [("T1", 4); ("T2", 3); ("T3", 2); ("T4", 1)].

(** ** Reconciliation *)

(** [stronger] *)
Definition stronger (current candidate : string) (rank : dict Z) : string :=
  if dict_get candidate 0 rank >? dict_get current 0 rank then candidate else current.

(** [merge_evidence]: [seen] always holds the strings of [parts]. *)
Definition merge_evidence (old new : string) : string :=
  let pieces blob := map Str.strip (Str.split " || " blob) in
  let step parts part :=
    if negb (String.eqb part "") && negb (Str.mem part parts)
    then (parts ++ [part])%list else parts in
  Str.join " || " (fold_left step (pieces old ++ pieces new)%list []).

(** [str(record.get(key, default)).strip()] *)
Definition str_field (key : string) (default : string) (record : finding) : string :=
  Str.strip (py_str (dict_get key (VStr default) record)).

(** [normalized_fingerprint] *)
Definition normalized_fingerprint (record : finding) : string :=
  let detector := str_field "detector" "" record in
  let file_path := str_field "file" "" record in
  let summary := normalize_text (py_str (dict_get "summary" (VStr "") record)) in
  detector ++ "|" ++ file_path ++ "|" ++ summary.

(** The dict built by [initial_record] and updated by [merge_record]. *)
Record merged : Type := Merged {
  id : string;
  tier : string;
  detector : string;
  severity : string;
  file : string;
  line : value;
  summary : string;
  evidence : string;
  recommended_fix : string;
  confidence : string;
  status : string;
  conflict_note : string;
  needs_validation : bool;
  sources : list string
}.

Definition set_id (v : string) (r : merged) : merged :=
  Merged v (tier r) (detector r) (severity r) (file r) (line r) (summary r)
    (evidence r) (recommended_fix r) (confidence r) (status r)
    (conflict_note r) (needs_validation r) (sources r).
Definition set_tier (v : string) (r : merged) : merged :=
  Merged (id r) v (detector r) (severity r) (file r) (line r) (summary r)
    (evidence r) (recommended_fix r) (confidence r) (status r)
    (conflict_note r) (needs_validation r) (sources r).
Definition set_severity (v : string) (r : merged) : merged :=
  Merged (id r) (tier r) (detector r) v (file r) (line r) (summary r)
    (evidence r) (recommended_fix r) (confidence r) (status r)
    (conflict_note r) (needs_validation r) (sources r).
Definition set_confidence (v : string) (r : merged) : merged :=
  Merged (id r) (tier r) (detector r) (severity r) (file r) (line r) (summary r)
    (evidence r) (recommended_fix r) v (status r)
    (conflict_note r) (needs_validation r) (sources r).
Definition set_line (v : value) (r : merged) : merged :=
  Merged (id r) (tier r) (detector r) (severity r) (file r) v (summary r)
    (evidence r) (recommended_fix r) (confidence r) (status r)
    (conflict_note r) (needs_validation r) (sources r).
Definition set_summary (v : string) (r : merged) : merged :=
  Merged (id r) (tier r) (detector r) (severity r) (file r) (line r) v
    (evidence r) (recommended_fix r) (confidence r) (status r)
    (conflict_note r) (needs_validation r) (sources r).
Definition set_evidence (v : string) (r : merged) : merged :=
  Merged (id r) (tier r) (detector r) (severity r) (file r) (line r) (summary r)
    v (recommended_fix r) (confidence r) (status r)
    (conflict_note r) (needs_validation r) (sources r).
Definition set_recommended_fix (v : string) (r : merged) : merged :=
  Merged (id r) (tier r) (detector r) (severity r) (file r) (line r) (summary r)
    (evidence r) v (confidence r) (status r)
    (conflict_note r) (needs_validation r) (sources r).
Definition set_status (v : string) (r : merged) : merged :=
  Merged (id r) (tier r) (detector r) (severity r) (file r) (line r) (summary r)
    (evidence r) (recommended_fix r) (confidence r) v
    (conflict_note r) (needs_validation r) (sources r).
Definition set_conflict_note (v : string) (r : merged) : merged :=
  Merged (id r) (tier r) (detector r) (severity r) (file r) (line r) (summary r)
    (evidence r) (recommended_fix r) (confidence r) (status r)
    v (needs_validation r) (sources r).
Definition set_needs_validation (v : bool) (r : merged) : merged :=
  Merged (id r) (tier r) (detector r) (severity r) (file r) (line r) (summary r)
    (evidence r) (recommended_fix r) (confidence r) (status r)
    (conflict_note r) v (sources r).
Definition set_sources (v : list string) (r : merged) : merged :=
  Merged (id r) (tier r) (detector r) (severity r) (file r) (line r) (summary r)
    (evidence r) (recommended_fix r) (confidence r) (status r)
    (conflict_note r) (needs_validation r) v.

(** [initial_record] *)
Definition initial_record (record : finding) : merged :=
  {| id := (let s := str_field "id" "" record in
            if String.eqb s "" then "pending" else s);
     tier := str_field "tier" "T4" record;
     detector := str_field "detector" "" record;
     severity := str_field "severity" "low" record;
     file := str_field "file" "" record;
     line := dict_get "line" VNone record;
     summary := str_field "summary" "" record;
     evidence := str_field "evidence" "" record;
     recommended_fix := str_field "recommended_fix" "" record;
     confidence := str_field "confidence" "low" record;
     status := str_field "status" "open" record;
     conflict_note := str_field "conflict_note" "" record;
     needs_validation := py_bool (dict_get "needs_validation" (VBool false) record);
     sources := [py_str (dict_get "_source" (VStr "") record)] |}.

(** The three fields of the loop that opens [merge_record]. *)
Inductive rank_field : Type := FTier | FSeverity | FConfidence.

Definition field_name (f : rank_field) : string :=
  match f with FTier => "tier" | FSeverity => "severity" | FConfidence => "confidence" end.

Definition field_rank (f : rank_field) : dict Z :=
  match f with
  | FTier => TIER_RANK | FSeverity => SEVERITY_RANK | FConfidence => CONFIDENCE_RANK
  end.

Definition get_field (f : rank_field) (r : merged) : string :=
  match f with FTier => tier r | FSeverity => severity r | FConfidence => confidence r end.

Definition set_field (f : rank_field) (v : string) (r : merged) : merged :=
  match f with
  | FTier => set_tier v r | FSeverity => set_severity v r | FConfidence => set_confidence v r
  end.

(** The state of one call of [merge_record]: the dict under update and
    the local list [conflicts]. *)
Definition fold_state : Type := (merged * list string)%type.

(** One turn of the loop over the rank fields. *)
Definition merge_rank (candidate : finding) (st : fold_state) (f : rank_field)
  : fold_state :=
  let (existing, conflicts) := st in
  let old_value := get_field f existing in
  let new_value := str_field (field_name f) old_value candidate in
  let conflicts :=
    if negb (String.eqb new_value old_value)
    then (conflicts ++ [(field_name f ++ ": " ++ old_value ++ " vs " ++ new_value)%string])%list
    else conflicts in
  (set_field f (stronger old_value new_value (field_rank f)) existing, conflicts).

Definition merge_line (candidate : finding) (existing : merged) : merged :=
  let new_line := dict_get "line" VNone candidate in
  let old_line := line existing in
  match as_int new_line with
  | Some n =>
      if n >? 0 then
        match old_line with
        | VNone => set_line new_line existing
        | _ => match as_int old_line with
               | Some o => if n <? o then set_line new_line existing else existing
               | None => existing
               end
        end
      else existing
  | None => existing
  end.

Definition merge_summary (candidate : finding) (existing : merged) : merged :=
  let new_summary := str_field "summary" "" candidate in
  if (String.length (summary existing) <? String.length new_summary)%nat
  then set_summary new_summary existing else existing.

Definition merge_fix (candidate : finding) (st : fold_state) : fold_state :=
  let (existing, conflicts) := st in
  let new_fix := str_field "recommended_fix" "" candidate in
  let old_fix := recommended_fix existing in
  if negb (String.eqb new_fix "") && negb (String.eqb new_fix old_fix)
  then (if (String.length old_fix <? String.length new_fix)%nat
        then set_recommended_fix new_fix existing else existing,
        (conflicts ++ ["recommended_fix differs"])%list)
  else st.

Definition merge_status (candidate : finding) (st : fold_state) : fold_state :=
  let (existing, conflicts) := st in
  let new_status := str_field "status" "open" candidate in
  if negb (String.eqb new_status (status existing))
  then (set_status
          (if String.eqb (status existing) "open" || String.eqb new_status "open"
           then "open" else status existing) existing,
        (conflicts ++ [("status: " ++ status existing ++ " vs " ++ new_status)%string])%list)
  else st.

Definition merge_conflicts (st : fold_state) : merged :=
  let (existing, conflicts) := st in
  match conflicts with
  | [] => existing
  | _ =>
      let existing := set_needs_validation true existing in
      let merged_note := conflict_note existing in
      let detail := Str.join "; " (Str.sorted_set conflicts) in
      set_conflict_note
        (if negb (String.eqb merged_note "")
         then Str.strip (Str.strip_chars "; " (merged_note ++ "; " ++ detail))
         else detail) existing
  end.

(** The conflicts that folding [candidate] into [existing] records, and
    the dict before the flag and the note are written. *)
Definition merge_fields (existing : merged) (candidate : finding) : fold_state :=
  let st := fold_left (merge_rank candidate) [FTier; FSeverity; FConfidence]
              (existing, []) in
  let st := (merge_line candidate (fst st), snd st) in
  let st := (merge_summary candidate (fst st), snd st) in
  let st :=
    (set_evidence (merge_evidence (evidence (fst st))
                     (str_field "evidence" "" candidate)) (fst st), snd st) in
  let st := merge_fix candidate st in
  let st := merge_status candidate st in
  let st :=
    (if py_bool (dict_get "needs_validation" (VBool false) candidate)
     then set_needs_validation true (fst st) else fst st, snd st) in
  st.

(** [merge_record]: the dict [existing] after the call. *)
Definition merge_record (existing : merged) (candidate : finding) : merged :=
  let existing := merge_conflicts (merge_fields existing candidate) in
  set_sources (sources existing ++ [py_str (dict_get "_source" (VStr "") candidate)])%list
    existing.

(** ** Scoring *)

Module Py.

(** An int that meets a float in an arithmetic operation. *)
Definition float_of_int (z : Z) : float :=
  match z with
  | Z0 => 0%float
  | Zpos _ => of_uint63 (Uint63.of_Z z)
  | Zneg _ => (- of_uint63 (Uint63.of_Z (- z)))%float
  end.

(** [min(a, b)] and [max(a, b)]: the first argument unless the second
    is strictly smaller, respectively larger. *)
Definition min (a b : float) : float := if (b <? a)%float then b else a.
Definition max (a b : float) : float := if (a <? b)%float then b else a.

(** [sum(l)]: the additions of binary64 from left to right. *)
Definition sum (l : list float) : float :=
  fold_left (fun acc x => (acc + x)%float) l 0%float.

(** The integer nearest to [n / d], the even one when two are. *)
Definition round_div (n d : Z) : Z :=
  let q := n / d in
  match 2 * (n mod d) ?= d with
  | Lt => q
  | Gt => q + 1
  | Eq => if Z.even q then q else q + 1
  end.

(** The number of hundredths nearest to [m * 2^e], ties to even. *)
Definition hundredths (m : positive) (e : Z) : Z :=
  if e <? 0 then round_div (Zpos m * 100) (2 ^ (- e)) else Zpos m * 100 * 2 ^ e.

(** [round(x, 2)]: the exact value of [x] is rounded to two decimals,
    half to even, and the binary64 nearest to that decimal returned. *)
Definition round2 (x : float) : float :=
  match Prim2SF x with
  | S754_finite s m e =>
      match hundredths m e with
      | Zpos k =>
          SF2Prim (SFdiv prec emax (S754_finite s k 0) (S754_finite false 100 0))
      | _ => if s then neg_zero else zero
      end
  | _ => x
  end.

End Py.

(** [penalty] *)
Definition penalty (record : merged) : float :=
  (Py.float_of_int (dict_get (tier record) 1%Z TIER_WEIGHT)
   * dict_get (severity record) 0.3 SEVERITY_MULTIPLIER
   * dict_get (confidence record) 0.5 CONFIDENCE_MULTIPLIER)%float.

Definition has_status (s : string) (r : merged) : bool := String.eqb (status r) s.

Record scores : Type := Scores { overall_score : float; strict_score : float }.

(** The clamping of [score]: [max(0.0, min(100.0, x))]. *)
Definition clamp (x : float) : float := Py.max 0 (Py.min 100 x).

(** [score] *)
Definition score (records : list merged) : scores :=
  let strict_penalty := Py.sum (map penalty records) in
  let open_penalty := Py.sum (map penalty (filter (has_status "open") records)) in
  let wontfix_penalty := Py.sum (map penalty (filter (has_status "wontfix") records)) in
  let strict := clamp (100 - strict_penalty) in
  let overall := clamp (100 - (open_penalty + 0.5 * wontfix_penalty)) in
  {| overall_score := Py.round2 overall; strict_score := Py.round2 strict |}.

(** ** Priority order *)

Definition sort_key : Type := (Z * Z * Z * float * string * Z)%type.

(** [priority_sort_key] *)
Definition priority_sort_key (record : merged) : sort_key :=
  (- dict_get (tier record) 1 TIER_WEIGHT,
   - dict_get (severity record) 1 SEVERITY_RANK,
   - dict_get (confidence record) 1 CONFIDENCE_RANK,
   (- penalty record)%float,
   file record,
   match as_int (line record) with Some n => n | None => 10 ^ 9 end).

(** [a < b] on the key tuples: the first components that differ decide. *)
Definition key_lt (a b : sort_key) : bool :=
  let '(a1, a2, a3, a4, a5, a6) := a in
  let '(b1, b2, b3, b4, b5, b6) := b in
  if negb (a1 =? b1) then a1 <? b1 else
  if negb (a2 =? b2) then a2 <? b2 else
  if negb (a3 =? b3) then a3 <? b3 else
  if negb (a4 =? b4)%float then (a4 <? b4)%float else
  if negb (String.eqb a5 b5) then String.ltb a5 b5 else
  a6 <? b6.

(** [merged.sort(key=priority_sort_key)]: the sort is stable, so it is
    the insertion that puts a record before the first one it does not
    come after. *)
Fixpoint insert_by_key (x : merged) (l : list merged) : list merged :=
  match l with
  | [] => [x]
  | y :: l' =>
      if key_lt (priority_sort_key y) (priority_sort_key x)
      then y :: insert_by_key x l'
      else x :: l
  end.

Definition sort_by_priority (l : list merged) : list merged :=
  fold_right insert_by_key [] l.

(** [record["id"] = f"F{idx:03d}"] over [enumerate(merged, start=idx)]. *)
Fixpoint assign_ids (idx : nat) (l : list merged) : list merged :=
  match l with
  | [] => []
  | r :: l' => set_id ("F" ++ Str.pad3 idx) r :: assign_ids (S idx) l'
  end.

(** ** Deduplication *)

(** The loop of [main] over the loaded records. *)
Fixpoint bucket_update (key : string) (record : finding) (buckets : dict merged)
  : dict merged :=
  match buckets with
  | [] => [(key, initial_record record)]
  | (k, existing) :: rest =>
      if String.eqb key k
      then (k, merge_record existing record) :: rest
      else (k, existing) :: bucket_update key record rest
  end.

Definition fold_step (buckets : dict merged) (record : finding) : dict merged :=
  bucket_update (normalized_fingerprint record) record buckets.

Definition fold_records (loaded : list finding) : dict merged :=
  fold_left fold_step loaded [].

(** ** Loading *)

(** An element of a sequence of records: a dict, or any other value. *)
Inductive item : Type :=
| ItemDict (record : finding)
| ItemOther.

(** A JSON value as [load_findings] looks at it: a list or not. *)
Inductive shape : Type :=
| SList (items : list item)
| SOther.

(** The root of a source: a dict with what its key [findings] holds, if
    anything, or a value that is no dict. *)
Inductive payload : Type :=
| PDict (findings : option shape)
| PValue (v : shape).

(** A source file: its path and the value [json.loads] read from it. *)
Definition source : Type := (string * payload)%type.

Definition records_of (p : payload) : list item :=
  match p with
  | PDict (Some (SList records)) => records
  | PValue (SList records) => records
  | _ => []
  end.

Definition tag_records (path : string) (records : list item) : list finding :=
  flat_map (fun it => match it with
                      | ItemDict record => [dict_set "_source" (VStr path) record]
                      | ItemOther => []
                      end) records.

(** [load_findings] *)
Definition load_findings (paths : list source) : list finding :=
  flat_map (fun src => tag_records (fst src) (records_of (snd src))) paths.

(** ** Report *)

Definition plan : Type := (list string * list string)%type.
Definition quick_wins (p : plan) : list string := fst p.
Definition refactors (p : plan) : list string := snd p.

Definition plan_item (record : merged) : string :=
  id record ++ ": " ++ summary record.

Definition is_quick_win (record : merged) : bool :=
  Str.mem (tier record) ["T3"; "T4"]
  || Str.mem (detector record) ["naming_consistency"; "debug_logging_leftovers"].

(** [remediation_plan] *)
Definition remediation_plan (records : list merged) : plan :=
  fold_left (fun (p : plan) record =>
               if is_quick_win record
               then (quick_wins p ++ [plan_item record], refactors p)%list
               else (quick_wins p, refactors p ++ [plan_item record])%list)
    records ([], []).

Record group_total : Type := GroupTotal { count : nat; group_penalty : float }.

Definition group_of (keep : merged -> bool) (records : list merged) : group_total :=
  let group := filter keep records in
  {| count := List.length group; group_penalty := Py.round2 (Py.sum (map penalty group)) |}.

Record breakdown_t : Type := Breakdown {
  by_tier : dict group_total;
  by_detector : dict group_total;
  detectors_with_zero_findings : list string
}.

(** [breakdown] *)
Definition breakdown (records : list merged) : breakdown_t :=
  let by_tier :=
    map (fun t => (t, group_of (fun r => String.eqb (tier r) t) records))
      ["T1"; "T2"; "T3"; "T4"] in
  let by_detector :=
    map (fun d => (d, group_of (fun r => String.eqb (detector r) d) records))
      DETECTORS in
  {| by_tier := by_tier;
     by_detector := by_detector;
     detectors_with_zero_findings :=
       map fst (filter (fun e => (count (snd e) =? 0)%nat) by_detector) |}.

(** A text between double quotes. *)
Definition quoted (s : string) : string :=
  String (ascii_of_nat 34) s ++ String (ascii_of_nat 34) EmptyString.

(** [resolve_simulation] *)
Definition resolve_simulation (top_records : list merged)
  : list (string * list string) :=
  map (fun record =>
         let fid := id record in
         (fid,
          [ "resolve fixed " ++ fid;
            "resolve wontfix " ++ fid ++ " --note "
              ++ quoted "risk accepted or intentional pattern";
            "resolve false_positive " ++ fid ++ " --note "
              ++ quoted "heuristic mismatch, verify manually" ]))
    top_records.

Record report : Type := Report {
  total_findings : nat;
  findings : list merged;
  report_scores : scores;
  report_breakdown : breakdown_t;
  next : list string;
  report_plan : plan;
  report_resolve : list (string * list string)
}.

(** The merged list of [main]: the buckets in insertion order, sorted,
    with their display ids. *)
Definition merged_of (loaded : list finding) : list merged :=
  assign_ids 1 (sort_by_priority (map snd (fold_records loaded))).

Definition top_open_of (records : list merged) : list merged :=
  firstn 10 (filter (has_status "open") records).

Definition build_report (loaded : list finding) : report :=
  let records := merged_of loaded in
  let top_open := top_open_of records in
  {| total_findings := List.length records;
     findings := records;
     report_scores := score records;
     report_breakdown := breakdown records;
     next := map id top_open;
     report_plan := remediation_plan top_open;
     report_resolve := resolve_simulation top_open |}.

(** How a run ends: [SystemExit] with a message, or the report written. *)
Inductive outcome : Type :=
| Exit (message : string)
| Done (r : report).

(** [main] on the files that [list_json_files] found, each with the
    value parsed from it. *)
Definition main (files : list source) : outcome :=
  match files with
  | [] => Exit "No JSON files found."
  | _ => Done (build_report (load_findings files))
  end.


(** * Properties *)

(** ** The scorer *)

Section Scorer.

(** A score lies between 0 and 100, in the order of binary64. *)
Definition in_range (x : float) : Prop :=
  (0 <=? x)%float = true /\ (x <=? 100)%float = true.

Definition in_rangeb (x : float) : bool := ((0 <=? x) && (x <=? 100))%float.

Lemma in_rangeb_true x : in_rangeb x = true -> in_range x.
Proof. unfold in_rangeb, in_range. intros H. apply andb_prop in H. exact H. Qed.

(** The clamping returns a bound, or its argument when it lies strictly
    between the bounds; a NaN is sent to 100. *)
Lemma clamp_cases x :
  clamp x = 0%float \/ clamp x = 100%float
  \/ (clamp x = x /\ (0 <? x)%float = true /\ (x <? 100)%float = true).
Proof.
  unfold clamp, Py.min, Py.max.
  destruct (x <? 100)%float eqn:Hhi.
  - destruct (0 <? x)%float eqn:Hlo; auto.
  - right. left. reflexivity.
Qed.

Lemma digits2_pos_bound m : Zpos m < 2 ^ Zpos (digits2_pos m).
Proof.
  induction m as [m IH | m IH | ]; cbn [digits2_pos].
  - rewrite Pos2Z.inj_succ, Z.pow_succ_r by lia. lia.
  - rewrite Pos2Z.inj_succ, Z.pow_succ_r by lia. lia.
  - reflexivity.
Qed.

Lemma bounded_mantissa m e : bounded prec emax m e = true -> Zpos m < 2 ^ 53.
Proof.
  unfold bounded, canonical_mantissa, fexp. intros H.
  apply andb_prop in H. destruct H as [H _]. apply Z.eqb_eq in H.
  assert (Hd : Zpos (digits2_pos m) <= 53) by (unfold prec in H; lia).
  eapply Z.lt_le_trans; [apply digits2_pos_bound|].
  apply Z.pow_le_mono_r; lia.
Qed.

Lemma round_div_bound n d B :
  0 <= n -> 0 < d -> n < B * d -> 0 <= Py.round_div n d <= B.
Proof.
  intros Hn Hd HB. unfold Py.round_div.
  assert (Hq : 0 <= n / d) by (apply Z.div_pos; lia).
  assert (Hq' : n / d < B) by (apply Z.div_lt_upper_bound; lia).
  destruct (2 * (n mod d) ?= d); [destruct (Z.even (n / d))| |]; lia.
Qed.

Lemma hundredths_bound m e :
  Zpos m < 2 ^ 53 ->
  e < -46 \/ (e = -46 /\ Zpos m < 7036874417766400) ->
  0 <= Py.hundredths m e <= 10000.
Proof.
  intros Hm He. unfold Py.hundredths.
  destruct (Z.ltb_spec e 0) as [Hneg | Hpos]; [|lia].
  destruct He as [He | [He Hlt]].
  - assert (Hp : 2 ^ 47 <= 2 ^ (- e)) by (apply Z.pow_le_mono_r; lia).
    assert (H0 : 0 <= Py.round_div (Zpos m * 100) (2 ^ (- e)) <= 6400).
    { apply round_div_bound; lia. }
    lia.
  - subst e. apply round_div_bound; lia.
Qed.

(** The binary64 nearest to [k / 100]. *)
Definition of_hundredths (k : positive) : float :=
  SF2Prim (SFdiv prec emax (S754_finite false k 0) (S754_finite false 100 0)).

Lemma of_hundredths_table :
  forallb (fun n => in_rangeb (of_hundredths (Pos.of_nat n))) (seq 1 (Z.to_nat 10000)) = true.
Proof. vm_compute. reflexivity. Qed.

Lemma of_hundredths_range k : (Zpos k <= 10000) -> in_range (of_hundredths k).
Proof.
  intros Hk. apply in_rangeb_true.
  pose proof of_hundredths_table as T. rewrite forallb_forall in T.
  specialize (T (Pos.to_nat k)). rewrite Pos2Nat.id in T. apply T.
  apply in_seq. lia.
Qed.

Lemma SFltb_finite m e m' e' :
  SFltb (S754_finite false m e) (S754_finite false m' e') = true ->
  e < e' \/ (e = e' /\ Zpos m < Zpos m').
Proof.
  unfold SFltb, SFcompare.
  change (Pos.compare_cont Eq m m') with (Pos.compare m m').
  destruct (Z.compare_spec e e') as [He | He | He].
  - destruct (Pos.compare_spec m m') as [Hm | Hm | Hm].
    + discriminate.
    + intros _. right. split; [assumption|]. apply Pos2Z.pos_lt_pos. exact Hm.
    + discriminate.
  - intros _. left. exact He.
  - discriminate.
Qed.

(** Rounding to two decimals keeps a value inside the bounds there. *)
Lemma round2_range x :
  (0 <? x)%float = true -> (x <? 100)%float = true -> in_range (Py.round2 x).
Proof.
  intros Hlo Hhi. rewrite ltb_spec in Hlo, Hhi.
  pose proof (Prim2SF_valid x) as Hv.
  unfold Py.round2.
  change (Prim2SF 0) with (S754_zero false) in Hlo.
  change (Prim2SF 100) with (S754_finite false 7036874417766400 (-46)) in Hhi.
  destruct (Prim2SF x) as [s | s | | s m e].
  - discriminate Hlo.
  - destruct s; [discriminate Hlo | discriminate Hhi].
  - discriminate Hlo.
  - destruct s; [discriminate Hlo|].
    cbn [valid_binary] in Hv. apply bounded_mantissa in Hv.
    apply SFltb_finite in Hhi.
    assert (Hk : 0 <= Py.hundredths m e <= 10000).
    { apply hundredths_bound; [exact Hv | exact Hhi]. }
    destruct (Py.hundredths m e) as [|k|k].
    + apply in_rangeb_true. reflexivity.
    + apply of_hundredths_range. lia.
    + lia.
Qed.

Lemma round2_clamp_range x : in_range (Py.round2 (clamp x)).
Proof.
  destruct (clamp_cases x) as [H | [H | [H [Hlo Hhi]]]]; rewrite H.
  - apply in_rangeb_true. reflexivity.
  - apply in_rangeb_true. vm_compute. reflexivity.
  - apply round2_range; assumption.
Qed.

End Scorer.

(** ** The tables of the specification *)

(** The weights as the specification lists them. *)
Definition tier_weights : list (string * float) :=
  [("T1", 20%float); ("T2", 10%float); ("T3", 4%float); ("T4", 1%float)].
Definition severity_multipliers : list (string * float) :=
  [("high", 1.0%float); ("med", 0.6%float); ("low", 0.3%float)].
Definition confidence_multipliers : list (string * float) :=
  [("high", 1.0%float); ("med", 0.75%float); ("low", 0.5%float)].

Lemma penalty_tables r t w s sm c cm :
  In (t, w) tier_weights -> In (s, sm) severity_multipliers ->
  In (c, cm) confidence_multipliers ->
  tier r = t -> severity r = s -> confidence r = c ->
  penalty r = (w * sm * cm)%float.
Proof.
  intros Ht Hs Hc Et Es Ec. unfold penalty. rewrite Et, Es, Ec.
  unfold tier_weights, severity_multipliers, confidence_multipliers in *.
  repeat (destruct Ht as [Ht | Ht]; [inversion Ht; subst; clear Ht|]); [..|contradiction];
    (repeat (destruct Hs as [Hs | Hs]; [inversion Hs; subst; clear Hs|]); [..|contradiction];
       (repeat (destruct Hc as [Hc | Hc]; [inversion Hc; subst; clear Hc|]);
        [..|contradiction]; reflexivity)).
Qed.

(** The merged list of a run over one record. *)
Lemma merged_of_single r : merged_of [r] = [set_id "F001" (initial_record r)].
Proof. reflexivity. Qed.

Lemma score_single m :
  tier m = "T1" -> severity m = "high" -> confidence m = "high" -> status m = "open" ->
  score [m] = {| overall_score := 80; strict_score := 80 |}.
Proof.
  intros Ht Hs Hc Ho. unfold score. cbn [filter map]. unfold has_status.
  rewrite Ho. cbn [String.eqb Ascii.eqb Bool.eqb map].
  assert (Hp : penalty m = 20%float).
  { unfold penalty. rewrite Ht, Hs, Hc. reflexivity. }
  cbn [map]. unfold Py.sum. cbn [fold_left]. rewrite Hp. reflexivity.
Qed.

Definition scenario_a : finding :=
  [("detector", VStr "dead_unused_code"); ("tier", VStr "T1"); ("severity", VStr "high");
   ("confidence", VStr "high"); ("file", VStr "a.go"); ("line", VInt 10);
   ("summary", VStr "unused func"); ("status", VStr "open")].

(** C1. The penalty of a record is the product of the weights that the
    tables give to its tier, severity and confidence (T1=20, T2=10, T3=4,
    T4=1; 1.0, 0.6, 0.3; 1.0, 0.75, 0.5), in binary64 arithmetic.
    [strict_score] is 100 minus the sum of all penalties and
    [overall_score] is 100 minus the penalties of the open records plus
    half those of the wontfix records, each clamped to [0, 100] and
    rounded to two decimals; both lie in [0, 100] whatever the records.
    A run over one open record of tier T1, severity high and confidence
    high merges one record and scores 80.0 twice. *)
Theorem C1_penalty_and_scores (records : list merged) :
  (forall r t w s sm c cm,
      In (t, w) tier_weights -> In (s, sm) severity_multipliers ->
      In (c, cm) confidence_multipliers ->
      tier r = t -> severity r = s -> confidence r = c ->
      penalty r = (w * sm * cm)%float)
  /\ strict_score (score records)
     = Py.round2 (Py.max 0 (Py.min 100 (100 - Py.sum (map penalty records))))
  /\ overall_score (score records)
     = Py.round2
         (Py.max 0
            (Py.min 100
               (100 - (Py.sum (map penalty (filter (has_status "open") records))
                       + 0.5 * Py.sum (map penalty
                                         (filter (has_status "wontfix") records))))))
  /\ in_range (strict_score (score records))
  /\ in_range (overall_score (score records))
  /\ (forall record : finding,
         str_field "tier" "T4" record = "T1" ->
         str_field "severity" "low" record = "high" ->
         str_field "confidence" "low" record = "high" ->
         str_field "status" "open" record = "open" ->
         let r := build_report [record] in
         total_findings r = 1%nat /\ List.length (findings r) = 1%nat
         /\ strict_score (report_scores r) = 80%float
         /\ overall_score (report_scores r) = 80%float).
Proof.
  split; [exact penalty_tables|].
  split; [reflexivity|]. split; [reflexivity|].
  split; [apply round2_clamp_range|]. split; [apply round2_clamp_range|].
  intros record Ht Hs Hc Ho r. subst r. unfold build_report.
  rewrite merged_of_single. cbn [total_findings findings report_scores List.length].
  rewrite score_single by assumption. repeat split.
Qed.

Lemma C1_penalty_and_scores_witness :
  penalty (initial_record scenario_a) = (20 * 1.0 * 1.0)%float
  /\ strict_score (report_scores (build_report [scenario_a])) = 80%float
  /\ overall_score (report_scores (build_report [scenario_a])) = 80%float.
Proof.
  destruct (C1_penalty_and_scores [initial_record scenario_a])
    as [Hp [_ [_ [_ [_ Hs]]]]].
  split.
  - apply (Hp (initial_record scenario_a) "T1" 20%float "high" 1.0%float "high" 1.0%float);
      cbn; auto.
  - apply (Hs scenario_a); reflexivity.
Defined.

(** ** What one fold does to each field *)

(** The rank of a value in the table of a field; 0 outside the table. *)
Definition rank (f : rank_field) (v : string) : Z := dict_get v 0 (field_rank f).

Section MergeRecord.

Variables (existing : merged) (candidate : finding).

(** The value of a rank field that [candidate] brings, and the one kept. *)
Definition incoming (f : rank_field) : string :=
  str_field (field_name f) (get_field f existing) candidate.

Definition kept (f : rank_field) : string :=
  stronger (get_field f existing) (incoming f) (field_rank f).

Definition rank_conflict (f : rank_field) : list string :=
  if negb (String.eqb (incoming f) (get_field f existing))
  then [field_name f ++ ": " ++ get_field f existing ++ " vs " ++ incoming f]
  else [].

Definition incoming_fix : string := str_field "recommended_fix" "" candidate.

Definition fix_differs : bool :=
  negb (String.eqb incoming_fix "")
  && negb (String.eqb incoming_fix (recommended_fix existing)).

Definition fix_conflict : list string :=
  if fix_differs then ["recommended_fix differs"] else [].

Definition kept_fix : string :=
  if fix_differs
     && (String.length (recommended_fix existing) <? String.length incoming_fix)%nat
  then incoming_fix else recommended_fix existing.

Definition incoming_status : string := str_field "status" "open" candidate.

Definition status_differs : bool :=
  negb (String.eqb incoming_status (status existing)).

Definition status_conflict : list string :=
  if status_differs
  then ["status: " ++ status existing ++ " vs " ++ incoming_status]
  else [].

Definition kept_status : string :=
  if status_differs
     && (String.eqb (status existing) "open" || String.eqb incoming_status "open")
  then "open" else status existing.

(** The list [conflicts] at the end of [merge_record]. *)
Definition conflicts_of : list string :=
  ((((rank_conflict FTier ++ rank_conflict FSeverity) ++ rank_conflict FConfidence)
    ++ fix_conflict) ++ status_conflict)%list.

Definition kept_note : string :=
  match conflicts_of with
  | [] => conflict_note existing
  | _ =>
      let detail := Str.join "; " (Str.sorted_set conflicts_of) in
      if negb (String.eqb (conflict_note existing) "")
      then Str.strip (Str.strip_chars "; " (conflict_note existing ++ "; " ++ detail))
      else detail
  end.

Definition incoming_flag : bool :=
  py_bool (dict_get "needs_validation" (VBool false) candidate).

Definition kept_flag : bool :=
  match conflicts_of with
  | [] => needs_validation existing || incoming_flag
  | _ => true
  end.

End MergeRecord.

(** The line and the summary kept, from the ones held so far. *)
Definition next_line (old_line : value) (candidate : finding) : value :=
  let new_line := dict_get "line" VNone candidate in
  match as_int new_line with
  | Some n =>
      if n >? 0 then
        match old_line with
        | VNone => new_line
        | _ => match as_int old_line with
               | Some o => if n <? o then new_line else old_line
               | None => old_line
               end
        end
      else old_line
  | None => old_line
  end.

Definition next_summary (old_summary : string) (candidate : finding) : string :=
  let new_summary := str_field "summary" "" candidate in
  if (String.length old_summary <? String.length new_summary)%nat
  then new_summary else old_summary.

Lemma merge_rank_eq candidate e cs f :
  merge_rank candidate (e, cs) f
  = (set_field f (kept e candidate f) e, (cs ++ rank_conflict e candidate f)%list).
Proof.
  unfold merge_rank, rank_conflict, kept, incoming.
  destruct (negb _); [reflexivity | rewrite app_nil_r; reflexivity].
Qed.

Lemma merge_line_eq candidate e :
  merge_line candidate e = set_line (next_line (line e) candidate) e.
Proof.
  unfold merge_line, next_line. destruct e as [i t d sv fl ln sm ev fx cf st nt nv src].
  cbn [line set_line].
  destruct (as_int (dict_get "line" VNone candidate)) as [n|]; [|reflexivity].
  destruct (n >? 0); [|reflexivity].
  destruct ln as [ | b | z | s | s b]; cbn [as_int]; try reflexivity.
  - destruct b; destruct (n <? _); reflexivity.
  - destruct (n <? z); reflexivity.
Qed.

Lemma merge_summary_eq candidate e :
  merge_summary candidate e = set_summary (next_summary (summary e) candidate) e.
Proof.
  unfold merge_summary, next_summary. destruct e; cbn [summary set_summary].
  destruct (_ <? _)%nat; reflexivity.
Qed.

Lemma merge_fix_eq candidate e cs :
  merge_fix candidate (e, cs)
  = (set_recommended_fix (kept_fix e candidate) e,
     (cs ++ fix_conflict e candidate)%list).
Proof.
  unfold merge_fix, kept_fix, fix_conflict, fix_differs, incoming_fix.
  destruct e; cbn [recommended_fix set_recommended_fix].
  destruct (negb _ && negb _); cbn [andb].
  - destruct (_ <? _)%nat; reflexivity.
  - rewrite app_nil_r. reflexivity.
Qed.

Lemma merge_status_eq candidate e cs :
  merge_status candidate (e, cs)
  = (set_status (kept_status e candidate) e,
     (cs ++ status_conflict e candidate)%list).
Proof.
  unfold merge_status, kept_status, status_conflict, status_differs, incoming_status.
  destruct e; cbn [status set_status].
  destruct (negb _); cbn [andb].
  - reflexivity.
  - rewrite app_nil_r. reflexivity.
Qed.

(** The dict and the conflicts before the flag and the note are written. *)
Lemma merge_fields_eq e c :
  merge_fields e c =
  ({| id := id e;
      tier := kept e c FTier;
      detector := detector e;
      severity := kept e c FSeverity;
      file := file e;
      line := next_line (line e) c;
      summary := next_summary (summary e) c;
      evidence := merge_evidence (evidence e) (str_field "evidence" "" c);
      recommended_fix := kept_fix e c;
      confidence := kept e c FConfidence;
      status := kept_status e c;
      conflict_note := conflict_note e;
      needs_validation :=
        if incoming_flag c then true else needs_validation e;
      sources := sources e |},
   conflicts_of e c).
Proof.
  unfold merge_fields. cbn [fold_left].
  rewrite !merge_rank_eq. cbn [fst snd app].
  rewrite merge_line_eq, merge_summary_eq.
  match goal with
  | |- context [merge_fix c (?a, ?b)] => rewrite (merge_fix_eq c a b)
  end.
  rewrite merge_status_eq. cbn [fst snd].
  destruct e as [i t d sv fl ln sm ev fx cf st nt nv src].
  unfold incoming_flag. destruct (py_bool _); reflexivity.
Qed.

(** [merge_record] field by field. *)
Lemma merge_record_eq e c :
  merge_record e c =
  {| id := id e;
     tier := kept e c FTier;
     detector := detector e;
     severity := kept e c FSeverity;
     file := file e;
     line := next_line (line e) c;
     summary := next_summary (summary e) c;
     evidence := merge_evidence (evidence e) (str_field "evidence" "" c);
     recommended_fix := kept_fix e c;
     confidence := kept e c FConfidence;
     status := kept_status e c;
     conflict_note := kept_note e c;
     needs_validation := kept_flag e c;
     sources := (sources e ++ [py_str (dict_get "_source" (VStr "") c)])%list |}.
Proof.
  unfold merge_record. rewrite merge_fields_eq.
  unfold merge_conflicts, kept_note, kept_flag.
  destruct (conflicts_of e c) as [|x cs].
  - cbn. destruct (incoming_flag c); [rewrite orb_true_r | rewrite orb_false_r];
      reflexivity.
  - reflexivity.
Qed.

(** ** The accumulator *)

Lemma mem_In x l : Str.mem x l = true <-> In x l.
Proof.
  unfold Str.mem. rewrite existsb_exists. split.
  - intros [y [Hy Heq]]. apply String.eqb_eq in Heq. subst. exact Hy.
  - intros H. exists x. split; [exact H | apply String.eqb_refl].
Qed.

Lemma mem_false x l : Str.mem x l = false <-> ~ In x l.
Proof.
  rewrite <- mem_In. destruct (Str.mem x l); split; intros H; congruence.
Qed.

(** The records of a run that share a fingerprint, in the order read. *)
Definition contributors (k : string) (loaded : list finding) : list finding :=
  filter (fun r => String.eqb (normalized_fingerprint r) k) loaded.

(** The first record of a bucket seeds it, the others are folded in. *)
Definition merge_all (c : list finding) : option merged :=
  match c with
  | [] => None
  | r :: c' => Some (fold_left merge_record c' (initial_record r))
  end.

(** The keys of the accumulator after a key is seen. *)
Definition add_key (ks : list string) (k : string) : list string :=
  if Str.mem k ks then ks else (ks ++ [k])%list.

Section Buckets.

Lemma find_bucket_update k k' r (b : dict merged) :
  dict_find k (bucket_update k' r b) =
  if String.eqb k k'
  then Some match dict_find k' b with
            | Some m => merge_record m r
            | None => initial_record r
            end
  else dict_find k b.
Proof.
  induction b as [|[k0 m0] b IH]; cbn [bucket_update dict_find].
  - destruct (String.eqb k k'); reflexivity.
  - destruct (String.eqb k' k0) eqn:E; cbn [dict_find].
    + apply String.eqb_eq in E. subst k0.
      destruct (String.eqb k k'); reflexivity.
    + rewrite IH. destruct (String.eqb k k') eqn:E'; [|reflexivity].
      apply String.eqb_eq in E'. subst k'. rewrite E. reflexivity.
Qed.

Lemma find_fold_left k l : forall b : dict merged,
  dict_find k (fold_left fold_step l b) =
  match dict_find k b with
  | Some m => Some (fold_left merge_record (contributors k l) m)
  | None => merge_all (contributors k l)
  end.
Proof.
  induction l as [|r l IH]; intros b; cbn [fold_left contributors filter].
  - destruct (dict_find k b); reflexivity.
  - rewrite IH. unfold fold_step. rewrite find_bucket_update.
    rewrite (String.eqb_sym k). fold (contributors k l).
    destruct (String.eqb (normalized_fingerprint r) k) eqn:E; [|reflexivity].
    apply String.eqb_eq in E. rewrite E.
    destruct (dict_find k b); reflexivity.
Qed.

(** The bucket of a fingerprint holds the fold of its contributors. *)
Lemma find_fold_records k l :
  dict_find k (fold_records l) = merge_all (contributors k l).
Proof. unfold fold_records. rewrite find_fold_left. reflexivity. Qed.

Lemma keys_bucket_update k r (b : dict merged) :
  map fst (bucket_update k r b) = add_key (map fst b) k.
Proof.
  unfold add_key. induction b as [|[k0 m0] b IH]; cbn [bucket_update map fst].
  - reflexivity.
  - cbn [Str.mem existsb]. fold (Str.mem k (map fst b)).
    destruct (String.eqb k k0); cbn [orb map fst].
    + reflexivity.
    + rewrite IH. destruct (Str.mem k (map fst b)); reflexivity.
Qed.

Lemma keys_fold_left l : forall b : dict merged,
  map fst (fold_left fold_step l b)
  = fold_left add_key (map normalized_fingerprint l) (map fst b).
Proof.
  induction l as [|r l IH]; intros b; cbn [fold_left map].
  - reflexivity.
  - rewrite IH. unfold fold_step. rewrite keys_bucket_update. reflexivity.
Qed.

Lemma keys_fold_records l :
  map fst (fold_records l) = fold_left add_key (map normalized_fingerprint l) [].
Proof. unfold fold_records. rewrite keys_fold_left. reflexivity. Qed.

Lemma add_key_In ks k x : In x (add_key ks k) <-> In x ks \/ x = k.
Proof.
  unfold add_key. destruct (Str.mem k ks) eqn:E.
  - apply mem_In in E. split; [auto|]. intros [H | H]; subst; assumption.
  - rewrite in_app_iff. cbn. split; intros [H | H]; auto.
    + destruct H as [H | []]; auto.
Qed.

Lemma add_keys_In ks' : forall ks x,
  In x (fold_left add_key ks' ks) <-> In x ks \/ In x ks'.
Proof.
  induction ks' as [|k ks' IH]; intros ks x; cbn [fold_left].
  - cbn. tauto.
  - rewrite IH, add_key_In. cbn. split; intros H; intuition auto.
Qed.

Lemma add_key_NoDup ks k : NoDup ks -> NoDup (add_key ks k).
Proof.
  intros H. unfold add_key. destruct (Str.mem k ks) eqn:E; [exact H|].
  apply mem_false in E. apply NoDup_app; [exact H | repeat constructor; auto | ].
  intros x Hx [Hk | []]. subst. contradiction.
Qed.

Lemma add_keys_NoDup ks' : forall ks, NoDup ks -> NoDup (fold_left add_key ks' ks).
Proof.
  induction ks' as [|k ks' IH]; intros ks H; cbn [fold_left]; [exact H|].
  apply IH, add_key_NoDup, H.
Qed.


End Buckets.

(** ** Characters of the strings built *)

Section Characters.

Fixpoint all_chars (q : ascii -> bool) (s : string) : bool :=
  match s with
  | EmptyString => true
  | String c s' => q c && all_chars q s'
  end.

Fixpoint any_char (q : ascii -> bool) (s : string) : bool :=
  match s with
  | EmptyString => false
  | String c s' => q c || any_char q s'
  end.

Lemma all_chars_app q a b :
  all_chars q (a ++ b) = all_chars q a && all_chars q b.
Proof.
  induction a as [|c a IH]; cbn [append all_chars]; [reflexivity|].
  rewrite IH, andb_assoc. reflexivity.
Qed.

Lemma any_char_app q a b :
  any_char q (a ++ b) = any_char q a || any_char q b.
Proof.
  induction a as [|c a IH]; cbn [append any_char]; [reflexivity|].
  rewrite IH, orb_assoc. reflexivity.
Qed.

Lemma any_char_nonempty q s : any_char q s = true -> s <> "".
Proof. destruct s; [discriminate | discriminate]. Qed.

Lemma all_lstrip q p s : all_chars q s = true -> all_chars q (Str.lstrip_by p s) = true.
Proof.
  induction s as [|c s IH]; cbn [Str.lstrip_by all_chars]; [reflexivity|].
  intros H. destruct (p c); [|exact H].
  apply andb_prop in H. apply IH, H.
Qed.

Lemma all_rstrip q p s : all_chars q s = true -> all_chars q (Str.rstrip_by p s) = true.
Proof.
  induction s as [|c s IH]; cbn [Str.rstrip_by all_chars]; [reflexivity|].
  intros H. apply andb_prop in H. destruct H as [Hc Hs]. specialize (IH Hs).
  destruct (Str.rstrip_by p s) as [|d t].
  - destruct (p c); cbn [all_chars]; [reflexivity | rewrite Hc; reflexivity].
  - cbn [all_chars] in *. rewrite Hc. exact IH.
Qed.

Lemma all_strip_by q p s : all_chars q s = true -> all_chars q (Str.strip_by p s) = true.
Proof. intros H. unfold Str.strip_by. apply all_rstrip, all_lstrip, H. Qed.

(** A character that the stripping does not take stays. *)
Lemma any_lstrip q p s :
  (forall c, q c = true -> p c = false) ->
  any_char q s = true -> any_char q (Str.lstrip_by p s) = true.
Proof.
  intros Hqp. induction s as [|c s IH]; cbn [Str.lstrip_by any_char]; [auto|].
  intros H. destruct (p c) eqn:Hp; [|exact H].
  destruct (q c) eqn:Hq.
  - rewrite (Hqp c Hq) in Hp. discriminate.
  - apply IH. exact H.
Qed.

Lemma any_rstrip q p s :
  (forall c, q c = true -> p c = false) ->
  any_char q s = true -> any_char q (Str.rstrip_by p s) = true.
Proof.
  intros Hqp. induction s as [|c s IH]; cbn [Str.rstrip_by any_char]; [auto|].
  intros H. destruct (q c) eqn:Hq.
  - destruct (Str.rstrip_by p s); [rewrite (Hqp c Hq)|]; cbn [any_char];
      rewrite Hq; reflexivity.
  - cbn [orb] in H. specialize (IH H).
    destruct (Str.rstrip_by p s) as [|d t]; [discriminate|].
    cbn [any_char] in *. rewrite Hq. exact IH.
Qed.

Lemma any_strip_by q p s :
  (forall c, q c = true -> p c = false) ->
  any_char q s = true -> any_char q (Str.strip_by p s) = true.
Proof. intros Hqp H. unfold Str.strip_by. apply any_rstrip, any_lstrip; assumption. Qed.

Lemma all_sub_runs_class q p s : forall b,
  q " "%char = true -> (forall c, p c = false -> q c = true) ->
  all_chars q (Str.sub_runs p b s) = true.
Proof.
  induction s as [|c s IH]; intros b Hsp Hq; cbn [Str.sub_runs all_chars]; [reflexivity|].
  destruct (p c) eqn:Hp.
  - destruct b; [apply IH; assumption|]. cbn [all_chars]. rewrite Hsp. apply IH; assumption.
  - cbn [all_chars]. rewrite (Hq c Hp). apply IH; assumption.
Qed.

Lemma all_sub_runs q p s : forall b,
  q " "%char = true -> all_chars q s = true ->
  all_chars q (Str.sub_runs p b s) = true.
Proof.
  induction s as [|c s IH]; intros b Hsp H; cbn [Str.sub_runs all_chars] in *; [reflexivity|].
  apply andb_prop in H. destruct H as [Hc Hs].
  destruct (p c).
  - destruct b; [apply IH; assumption|]. cbn [all_chars]. rewrite Hsp. apply IH; assumption.
  - cbn [all_chars]. rewrite Hc. apply IH; assumption.
Qed.

(** The characters of a normalized summary: [a-z0-9] and the space. *)
Definition is_normal (c : ascii) : bool := Str.is_lower_alnum c || Ascii.eqb c " ".

Lemma normalize_text_chars value : all_chars is_normal (normalize_text value) = true.
Proof.
  unfold normalize_text. apply all_strip_by. apply all_sub_runs; [reflexivity|].
  apply all_sub_runs_class; [reflexivity|].
  intros c Hc. unfold is_normal. apply negb_false_iff in Hc. rewrite Hc. reflexivity.
Qed.

Definition not_bar (c : ascii) : bool := negb (Ascii.eqb c "|").

Lemma is_normal_not_bar c : is_normal c = true -> not_bar c = true.
Proof.
  unfold not_bar. destruct (Ascii.eqb_spec c "|") as [E | N]; [|reflexivity].
  subst c. discriminate.
Qed.

Lemma all_chars_impl (q q' : ascii -> bool) s :
  (forall c, q c = true -> q' c = true) ->
  all_chars q s = true -> all_chars q' s = true.
Proof.
  intros Hq. induction s as [|c s IH]; cbn [all_chars]; [reflexivity|].
  intros H. apply andb_prop in H. destruct H as [Hc Hs].
  rewrite (Hq c Hc), (IH Hs). reflexivity.
Qed.

Lemma normalize_text_no_bar value : all_chars not_bar (normalize_text value) = true.
Proof.
  apply (all_chars_impl is_normal); [exact is_normal_not_bar|].
  apply normalize_text_chars.
Qed.

(** A text without bar, then a bar: the first bar ends the text. *)
Lemma bar_split_first a : forall a' x x',
  all_chars not_bar a = true -> all_chars not_bar a' = true ->
  a ++ "|" ++ x = a' ++ "|" ++ x' -> a = a' /\ x = x'.
Proof.
  induction a as [|c a IH]; intros [|c' a'] x x' Ha Ha' E; cbn [append all_chars] in *.
  - inversion E. auto.
  - inversion E. subst c'. discriminate.
  - inversion E. subst c. discriminate.
  - inversion E. subst c'. apply andb_prop in Ha, Ha'.
    destruct (IH a' x x') as [E1 E2]; try tauto. subst. auto.
Qed.

(** A bar, then a text without bar: the last bar starts the text. *)
Lemma bar_split_last f : forall f' s s',
  all_chars not_bar s = true -> all_chars not_bar s' = true ->
  f ++ "|" ++ s = f' ++ "|" ++ s' -> f = f' /\ s = s'.
Proof.
  induction f as [|c f IH]; intros [|c' f'] s s' Hs Hs' E; cbn [append] in *.
  - inversion E. auto.
  - inversion E. subst. rewrite all_chars_app in Hs. cbn in Hs.
    rewrite andb_false_r in Hs. discriminate.
  - inversion E. subst. rewrite all_chars_app in Hs'. cbn in Hs'.
    rewrite andb_false_r in Hs'. discriminate.
  - inversion E. subst c'. destruct (IH f' s s') as [E1 E2]; auto. subst. auto.
Qed.

End Characters.

(** ** Deduplication by fingerprint *)

(** The three fields that make the fingerprint. *)
Definition detector_of (r : finding) : string := str_field "detector" "" r.
Definition file_of (r : finding) : string := str_field "file" "" r.
Definition summary_key (r : finding) : string :=
  normalize_text (py_str (dict_get "summary" (VStr "") r)).

Lemma fingerprint_eq r :
  normalized_fingerprint r = detector_of r ++ "|" ++ file_of r ++ "|" ++ summary_key r.
Proof. reflexivity. Qed.

(** Detectors without bar: the fingerprint tells the three fields. *)
Lemma fingerprint_inj r1 r2 :
  all_chars not_bar (detector_of r1) = true ->
  all_chars not_bar (detector_of r2) = true ->
  normalized_fingerprint r1 = normalized_fingerprint r2 ->
  detector_of r1 = detector_of r2 /\ file_of r1 = file_of r2
  /\ summary_key r1 = summary_key r2.
Proof.
  intros H1 H2 E. rewrite !fingerprint_eq in E.
  apply bar_split_first in E; [|assumption..]. destruct E as [Ed E].
  apply bar_split_last in E; [|apply normalize_text_no_bar..].
  tauto.
Qed.


Lemma insert_by_key_length x l :
  List.length (insert_by_key x l) = S (List.length l).
Proof.
  induction l as [|y l IH]; cbn [insert_by_key List.length]; [reflexivity|].
  destruct (key_lt _ _); cbn [List.length]; [rewrite IH|]; reflexivity.
Qed.

Lemma sort_by_priority_length l :
  List.length (sort_by_priority l) = List.length l.
Proof.
  induction l as [|x l IH]; cbn [sort_by_priority fold_right List.length]; [reflexivity|].
  fold (sort_by_priority l). rewrite insert_by_key_length, IH. reflexivity.
Qed.

Lemma assign_ids_length l : forall n, List.length (assign_ids n l) = List.length l.
Proof.
  induction l as [|x l IH]; intros n; cbn [assign_ids List.length]; [reflexivity|].
  rewrite IH. reflexivity.
Qed.




Lemma contributors_In k loaded r :
  In r (contributors k loaded) <-> In r loaded /\ normalized_fingerprint r = k.
Proof.
  unfold contributors. rewrite filter_In, String.eqb_eq. reflexivity.
Qed.


Definition c3_left : finding :=
  [("detector", VStr "a|b"); ("file", VStr "c"); ("summary", VStr "s")].
Definition c3_right : finding :=
  [("detector", VStr "a"); ("file", VStr "b|c"); ("summary", VStr "s")].

(** The join does not escape the bar. With a detector outside the
    listed ones that holds a bar, two records that differ in detector and
    in file can have one fingerprint, here [a|b|c|s]. *)
Lemma fingerprint_bar_not_escaped :
  detector_of c3_left <> detector_of c3_right
  /\ file_of c3_left <> file_of c3_right
  /\ List.length (merged_of [c3_left; c3_right]) = 1%nat.
Proof. repeat split; discriminate. Qed.





(** ** Rank fields *)

Section RankFields.

(** The rank that a record brings for a field: that of the value it
    holds under the field's key, 0 when it holds none. *)
Definition observed_rank (f : rank_field) (r : finding) : Z :=
  match dict_find (field_name f) r with
  | Some v => rank f (Str.strip (py_str v))
  | None => 0
  end.

Definition recognized (f : rank_field) (v : string) : Prop :=
  dict_find v (field_rank f) <> None.

Lemma rank_nonneg f v : 0 <= rank f v.
Proof.
  unfold rank, dict_get.
  destruct f; cbn [field_rank TIER_RANK SEVERITY_RANK CONFIDENCE_RANK dict_find];
    repeat match goal with |- context [String.eqb ?a ?b] => destruct (String.eqb a b) end;
    lia.
Qed.

Lemma rank_recognized f v : recognized f v -> 0 < rank f v.
Proof.
  unfold recognized, rank, dict_get.
  destruct f; cbn [field_rank TIER_RANK SEVERITY_RANK CONFIDENCE_RANK dict_find];
    repeat match goal with |- context [String.eqb ?a ?b] => destruct (String.eqb a b) end;
    intros H; try lia; contradiction.
Qed.

Lemma rank_unrecognized f v : ~ recognized f v -> rank f v = 0.
Proof.
  unfold recognized, rank, dict_get. intros H.
  destruct (dict_find v (field_rank f)); [|reflexivity].
  exfalso. apply H. discriminate.
Qed.

Lemma stronger_rank f current candidate :
  rank f (stronger current candidate (field_rank f))
  = Z.max (rank f current) (rank f candidate).
Proof.
  unfold stronger. fold (rank f candidate) (rank f current).
  destruct (Z.gtb_spec (rank f candidate) (rank f current)); lia.
Qed.

Lemma get_field_merge_record e c f :
  get_field f (merge_record e c) = kept e c f.
Proof. rewrite merge_record_eq. destruct f; reflexivity. Qed.

Lemma observed_incoming e c f :
  observed_rank f c <= Z.max (rank f (get_field f e)) (rank f (incoming e c f)).
Proof.
  unfold observed_rank, incoming, str_field, dict_get.
  destruct (dict_find (field_name f) c) as [v|].
  - lia.
  - pose proof (rank_nonneg f (get_field f e)). lia.
Qed.

Lemma observed_initial r f :
  observed_rank f r <= rank f (get_field f (initial_record r)).
Proof.
  unfold observed_rank.
  destruct f; cbn [get_field initial_record tier severity confidence field_name];
    unfold str_field, dict_get;
    match goal with |- context [dict_find ?k r] => destruct (dict_find k r) end;
    try lia; apply rank_nonneg.
Qed.

Lemma merge_record_rank e c f :
  rank f (get_field f (merge_record e c))
  = Z.max (rank f (get_field f e)) (rank f (incoming e c f)).
Proof. rewrite get_field_merge_record. apply stronger_rank. Qed.

(** Folding more records never lowers a rank, and the rank reaches that
    of every record folded. *)
Lemma fold_rank c f : forall m0,
  rank f (get_field f m0) <= rank f (get_field f (fold_left merge_record c m0))
  /\ forall r, In r c ->
       observed_rank f r <= rank f (get_field f (fold_left merge_record c m0)).
Proof.
  induction c as [|x c IH]; intros m0; cbn [fold_left].
  - split; [lia | intros r []].
  - destruct (IH (merge_record m0 x)) as [Hge Hall].
    pose proof (merge_record_rank m0 x f) as Hm.
    pose proof (observed_incoming m0 x f) as Ho.
    split; [lia|]. intros r [E | Hr].
    + subst x. lia.
    + apply Hall, Hr.
Qed.

Lemma merge_all_rank c m r f :
  merge_all c = Some m -> In r c -> observed_rank f r <= rank f (get_field f m).
Proof.
  destruct c as [|r0 c]; [discriminate|]. cbn [merge_all]. intros E. inversion E. subst m.
  destruct (fold_rank c f (initial_record r0)) as [Hge Hall].
  intros [E0 | Hr].
  - subst r0. pose proof (observed_initial r f). lia.
  - apply Hall, Hr.
Qed.

End RankFields.

(** C4. After every fold the rank of the merged tier, severity and
    confidence is the larger of the rank held before and the rank of the
    incoming value: it is at least the rank that any contributing record
    brings, and no later fold lowers it. *)
Theorem C4_monotonic_strengthening (loaded : list finding) :
  (forall existing candidate f,
      rank f (get_field f (merge_record existing candidate))
      = Z.max (rank f (get_field f existing)) (rank f (incoming existing candidate f))
      /\ rank f (get_field f existing)
         <= rank f (get_field f (merge_record existing candidate))
      /\ observed_rank f candidate
         <= rank f (get_field f (merge_record existing candidate)))
  /\ (forall m0 later f,
        rank f (get_field f m0)
        <= rank f (get_field f (fold_left merge_record later m0)))
  /\ (forall k m r f,
        dict_find k (fold_records loaded) = Some m ->
        In r loaded -> normalized_fingerprint r = k ->
        observed_rank f r <= rank f (get_field f m)).
Proof.
  split.
  { intros e c f. pose proof (merge_record_rank e c f).
    pose proof (observed_incoming e c f). lia. }
  split.
  { intros m0 later f. apply fold_rank. }
  intros k m r f Hm Hr Hk. rewrite find_fold_records in Hm.
  apply (merge_all_rank _ _ _ _ Hm). apply contributors_In. auto.
Qed.

Definition c4_weak : finding :=
  [("detector", VStr "duplication"); ("file", VStr "a.go"); ("summary", VStr "dup");
   ("tier", VStr "T2")].
Definition c4_strong : finding :=
  [("detector", VStr "duplication"); ("file", VStr "a.go"); ("summary", VStr "dup");
   ("tier", VStr "T1")].

Lemma C4_monotonic_strengthening_witness :
  observed_rank FTier c4_strong
  <= rank FTier (tier (merge_record (initial_record c4_weak) c4_strong)).
Proof.
  destruct (C4_monotonic_strengthening [c4_weak; c4_strong]) as [_ [_ H]].
  apply (H (normalized_fingerprint c4_strong) _ c4_strong FTier).
  - reflexivity.
  - right. left. reflexivity.
  - reflexivity.
Defined.

(** ** Status and conflicts *)

Lemma fold_records_pair r1 r2 :
  normalized_fingerprint r1 = normalized_fingerprint r2 ->
  fold_records [r1; r2]
  = [(normalized_fingerprint r1, merge_record (initial_record r1) r2)].
Proof.
  intros E. unfold fold_records. cbn [fold_left]. unfold fold_step.
  cbn [bucket_update]. rewrite <- E, String.eqb_refl. reflexivity.
Qed.

Lemma conflicts_of_snd e c : snd (merge_fields e c) = conflicts_of e c.
Proof. rewrite merge_fields_eq. reflexivity. Qed.

Lemma status_merge_record e c : status (merge_record e c) = kept_status e c.
Proof. rewrite merge_record_eq. reflexivity. Qed.

Lemma flag_merge_record e c : needs_validation (merge_record e c) = kept_flag e c.
Proof. rewrite merge_record_eq. reflexivity. Qed.

Lemma note_merge_record e c : conflict_note (merge_record e c) = kept_note e c.
Proof. rewrite merge_record_eq. reflexivity. Qed.

Lemma kept_flag_conflict e c x : In x (conflicts_of e c) -> kept_flag e c = true.
Proof. unfold kept_flag. destruct (conflicts_of e c); [intros [] | reflexivity]. Qed.

Lemma status_conflict_In e c :
  incoming_status c <> status e ->
  In ("status: " ++ status e ++ " vs " ++ incoming_status c) (conflicts_of e c).
Proof.
  intros N. unfold conflicts_of. apply in_or_app. right.
  unfold status_conflict, status_differs. apply String.eqb_neq in N. rewrite N.
  left. reflexivity.
Qed.

Lemma rank_conflict_In e c f :
  incoming e c f <> get_field f e ->
  In (field_name f ++ ": " ++ get_field f e ++ " vs " ++ incoming e c f)
    (conflicts_of e c).
Proof.
  intros N. unfold conflicts_of.
  assert (H : In (field_name f ++ ": " ++ get_field f e ++ " vs " ++ incoming e c f)
                (rank_conflict e c f)).
  { unfold rank_conflict. apply String.eqb_neq in N. rewrite N. left. reflexivity. }
  rewrite !in_app_iff. destruct f; auto.
Qed.

(** C5. When the status of the incoming record differs from the merged
    one, the conflict [status: old vs new] is recorded, the flag is
    raised, and the merged status is open if one of the two is open, the
    current one otherwise; a fixed and an open record of one fingerprint
    merge to open in either order. *)
Theorem C5_status_reconciliation (existing : merged) (candidate : finding) :
  (incoming_status candidate <> status existing ->
     In ("status: " ++ status existing ++ " vs " ++ incoming_status candidate)
       (snd (merge_fields existing candidate))
     /\ needs_validation (merge_record existing candidate) = true
     /\ status (merge_record existing candidate)
        = if String.eqb (status existing) "open"
             || String.eqb (incoming_status candidate) "open"
          then "open" else status existing)
  /\ (incoming_status candidate = status existing ->
        status (merge_record existing candidate) = status existing)
  /\ (forall r1 r2,
        normalized_fingerprint r1 = normalized_fingerprint r2 ->
        str_field "status" "open" r1 = "fixed" ->
        str_field "status" "open" r2 = "open" ->
        (exists m, fold_records [r1; r2] = [(normalized_fingerprint r1, m)]
                   /\ status m = "open")
        /\ (exists m, fold_records [r2; r1] = [(normalized_fingerprint r1, m)]
                      /\ status m = "open")).
Proof.
  split.
  { intros N. rewrite conflicts_of_snd, flag_merge_record, status_merge_record.
    pose proof (status_conflict_In _ _ N) as Hin.
    split; [exact Hin|]. split; [apply (kept_flag_conflict _ _ _ Hin)|].
    unfold kept_status, status_differs. apply String.eqb_neq in N. rewrite N.
    reflexivity. }
  split.
  { intros E. rewrite status_merge_record. unfold kept_status, status_differs.
    rewrite E, String.eqb_refl. reflexivity. }
  intros r1 r2 E H1 H2. split.
  - eexists. split; [apply fold_records_pair, E|].
    rewrite status_merge_record. unfold kept_status, status_differs, incoming_status.
    cbn [initial_record status]. rewrite H1, H2. reflexivity.
  - eexists. split; [rewrite E; apply fold_records_pair; symmetry; exact E|].
    rewrite status_merge_record. unfold kept_status, status_differs, incoming_status.
    cbn [initial_record status]. rewrite H1, H2. reflexivity.
Qed.

Definition c5_fixed : finding :=
  [("detector", VStr "duplication"); ("file", VStr "a.go"); ("summary", VStr "dup");
   ("status", VStr "fixed")].
Definition c5_open : finding :=
  [("detector", VStr "duplication"); ("file", VStr "a.go"); ("summary", VStr "dup");
   ("status", VStr "open")].

Lemma C5_status_reconciliation_witness :
  status (merge_record (initial_record c5_fixed) c5_open) = "open"
  /\ (exists m, fold_records [c5_open; c5_fixed]
                = [(normalized_fingerprint c5_fixed, m)] /\ status m = "open").
Proof.
  destruct (C5_status_reconciliation (initial_record c5_fixed) c5_open)
    as [Hdiff [_ Hboth]].
  split.
  - destruct Hdiff as [_ [_ Hs]]; [discriminate | exact Hs].
  - apply (Hboth c5_fixed c5_open); reflexivity.
Defined.

(** ** Values outside the tables *)

Lemma kept_recognized e c f :
  recognized f (get_field f e) -> ~ recognized f (incoming e c f) ->
  kept e c f = get_field f e.
Proof.
  intros Ho Hn. unfold kept, stronger.
  fold (rank f (incoming e c f)) (rank f (get_field f e)).
  rewrite (rank_unrecognized _ _ Hn). pose proof (rank_recognized _ _ Ho).
  destruct (Z.gtb_spec 0 (rank f (get_field f e))); [lia | reflexivity].
Qed.

Lemma kept_unrecognized e c f :
  ~ recognized f (get_field f e) -> recognized f (incoming e c f) ->
  kept e c f = incoming e c f.
Proof.
  intros Ho Hn. unfold kept, stronger.
  fold (rank f (incoming e c f)) (rank f (get_field f e)).
  rewrite (rank_unrecognized _ _ Ho). pose proof (rank_recognized _ _ Hn).
  destruct (Z.gtb_spec (rank f (incoming e c f)) 0); [reflexivity | lia].
Qed.

Lemma tier_weight_least k w : dict_find k TIER_WEIGHT = Some w -> 1 <= w.
Proof.
  cbn [TIER_WEIGHT dict_find].
  repeat match goal with |- context [String.eqb ?a ?b] => destruct (String.eqb a b) end;
    intros H; inversion H; lia.
Qed.

Lemma severity_multiplier_least k x :
  dict_find k SEVERITY_MULTIPLIER = Some x -> (0.3 <=? x)%float = true.
Proof.
  cbn [SEVERITY_MULTIPLIER dict_find].
  repeat match goal with |- context [String.eqb ?a ?b] => destruct (String.eqb a b) end;
    intros H; inversion H; reflexivity.
Qed.

Lemma confidence_multiplier_least k x :
  dict_find k CONFIDENCE_MULTIPLIER = Some x -> (0.5 <=? x)%float = true.
Proof.
  cbn [CONFIDENCE_MULTIPLIER dict_find].
  repeat match goal with |- context [String.eqb ?a ?b] => destruct (String.eqb a b) end;
    intros H; inversion H; reflexivity.
Qed.

(** C10. A tier, severity or confidence outside its table has rank 0.
    In a fold it never replaces a value of the table, and the conflict
    is recorded all the same; a value of the table replaces one outside
    it. The penalty gives weight 1 to a tier outside the table, 0.3 to
    such a severity and 0.5 to such a confidence: the least weight of
    each table. *)
Theorem C10_unrecognized_values (existing : merged) (candidate : finding)
  (f : rank_field) :
  (forall v, ~ recognized f v -> rank f v = 0)
  /\ (forall v, recognized f v -> 0 < rank f v)
  /\ (recognized f (get_field f existing) ->
      ~ recognized f (incoming existing candidate f) ->
      get_field f (merge_record existing candidate) = get_field f existing
      /\ In (field_name f ++ ": " ++ get_field f existing ++ " vs "
             ++ incoming existing candidate f)
           (snd (merge_fields existing candidate))
      /\ needs_validation (merge_record existing candidate) = true)
  /\ (~ recognized f (get_field f existing) ->
      recognized f (incoming existing candidate f) ->
      get_field f (merge_record existing candidate) = incoming existing candidate f)
  /\ (forall r, dict_find (tier r) TIER_WEIGHT = None ->
        penalty r = (1 * dict_get (severity r) 0.3 SEVERITY_MULTIPLIER
                     * dict_get (confidence r) 0.5 CONFIDENCE_MULTIPLIER)%float)
  /\ (forall r, dict_find (severity r) SEVERITY_MULTIPLIER = None ->
        penalty r = (Py.float_of_int (dict_get (tier r) 1%Z TIER_WEIGHT) * 0.3
                     * dict_get (confidence r) 0.5 CONFIDENCE_MULTIPLIER)%float)
  /\ (forall r, dict_find (confidence r) CONFIDENCE_MULTIPLIER = None ->
        penalty r = (Py.float_of_int (dict_get (tier r) 1%Z TIER_WEIGHT)
                     * dict_get (severity r) 0.3 SEVERITY_MULTIPLIER * 0.5)%float)
  /\ (forall k w, dict_find k TIER_WEIGHT = Some w -> 1 <= w)
  /\ (forall k x, dict_find k SEVERITY_MULTIPLIER = Some x -> (0.3 <=? x)%float = true)
  /\ (forall k x, dict_find k CONFIDENCE_MULTIPLIER = Some x -> (0.5 <=? x)%float = true).
Proof.
  split; [apply rank_unrecognized|]. split; [apply rank_recognized|].
  split.
  { intros Ho Hn. rewrite get_field_merge_record, conflicts_of_snd, flag_merge_record.
    assert (N : incoming existing candidate f <> get_field f existing).
    { intros E. apply Hn. rewrite E. exact Ho. }
    pose proof (rank_conflict_In _ _ _ N) as Hin.
    split; [apply kept_recognized; assumption|].
    split; [exact Hin | apply (kept_flag_conflict _ _ _ Hin)]. }
  split.
  { intros Ho Hn. rewrite get_field_merge_record. apply kept_unrecognized; assumption. }
  split.
  { intros r H. unfold penalty. unfold dict_get at 1. rewrite H. reflexivity. }
  split.
  { intros r H. unfold penalty. unfold dict_get at 2. rewrite H. reflexivity. }
  split.
  { intros r H. unfold penalty. unfold dict_get at 3. rewrite H. reflexivity. }
  split; [exact tier_weight_least|].
  split; [exact severity_multiplier_least | exact confidence_multiplier_least].
Qed.

Definition c10_unknown : finding :=
  [("detector", VStr "duplication"); ("file", VStr "a.go"); ("summary", VStr "dup");
   ("tier", VStr "T9")].

Lemma C10_unrecognized_values_witness :
  tier (merge_record (initial_record c4_strong) c10_unknown) = "T1"
  /\ tier (merge_record (initial_record c10_unknown) c4_strong) = "T1"
  /\ penalty (initial_record c10_unknown) = (1 * 0.3 * 0.5)%float.
Proof.
  destruct (C10_unrecognized_values (initial_record c4_strong) c10_unknown FTier)
    as [_ [_ [Hkeep _]]].
  destruct (C10_unrecognized_values (initial_record c10_unknown) c4_strong FTier)
    as [_ [_ [_ [Hreplace [Hpen _]]]]].
  split; [|split].
  - apply Hkeep; [discriminate | intros H; apply H; reflexivity].
  - apply Hreplace; [intros H; apply H; reflexivity | discriminate].
  - apply (Hpen (initial_record c10_unknown)). reflexivity.
Defined.

(** ** The conflict flag and the note *)

Section ConflictFlag.

Lemma lower_alnum_not_space c : Str.is_lower_alnum c = true -> Str.is_space c = false.
Proof.
  destruct c as [b0 b1 b2 b3 b4 b5 b6 b7].
  destruct b0, b1, b2, b3, b4, b5, b6, b7; vm_compute; congruence.
Qed.

Lemma lower_alnum_not_sep c :
  Str.is_lower_alnum c = true -> Str.mem_char c "; " = false.
Proof.
  destruct c as [b0 b1 b2 b3 b4 b5 b6 b7].
  destruct b0, b1, b2, b3, b4, b5, b6, b7; vm_compute; congruence.
Qed.

(** A text that holds a letter or a digit. *)
Definition worded (s : string) : Prop := any_char Str.is_lower_alnum s = true.

Lemma worded_app_l a b : worded a -> worded (a ++ b).
Proof. unfold worded. rewrite any_char_app. intros ->. reflexivity. Qed.

Lemma worded_app_r a b : worded b -> worded (a ++ b).
Proof. unfold worded. rewrite any_char_app. intros ->. apply orb_true_r. Qed.

Lemma worded_strip s : worded s -> worded (Str.strip s).
Proof. apply any_strip_by. exact lower_alnum_not_space. Qed.

Lemma worded_strip_chars s : worded s -> worded (Str.strip_chars "; " s).
Proof. apply any_strip_by. exact lower_alnum_not_sep. Qed.

Lemma worded_nonempty s : worded s -> s <> "".
Proof. apply any_char_nonempty. Qed.

Lemma conflicts_worded e c : Forall worded (conflicts_of e c).
Proof.
  assert (Hr : forall f, Forall worded (rank_conflict e c f)).
  { intros f. unfold rank_conflict. destruct (negb _); constructor; [|constructor].
    apply worded_app_l. destruct f; reflexivity. }
  unfold conflicts_of. rewrite !Forall_app. repeat split; try apply Hr.
  - unfold fix_conflict. destruct (fix_differs e c); repeat constructor.
  - unfold status_conflict. destruct (status_differs e c); constructor; [|constructor].
    apply worded_app_l. reflexivity.
Qed.

Lemma insert_sorted_In x l y : In y (Str.insert_sorted x l) -> y = x \/ In y l.
Proof.
  induction l as [|z l IH]; cbn [Str.insert_sorted].
  - intros [E | []]. auto.
  - destruct (String.compare x z).
    + auto.
    + intros [E | H]; auto.
    + intros [E | H]; [right; left; exact E|].
      destruct (IH H); [auto | right; right; assumption].
Qed.

Lemma sorted_set_In l y : In y (Str.sorted_set l) -> In y l.
Proof.
  induction l as [|x l IH]; cbn [Str.sorted_set fold_right]; [auto|].
  intros H. apply insert_sorted_In in H. destruct H as [E | H]; [left; auto|].
  right. apply IH, H.
Qed.

Lemma insert_sorted_cons x l : exists y l', Str.insert_sorted x l = y :: l'.
Proof.
  destruct l as [|z l]; cbn [Str.insert_sorted]; [eauto|].
  destruct (String.compare x z); eauto.
Qed.

Lemma join_worded sep x l : worded x -> worded (Str.join sep (x :: l)).
Proof.
  intros H. unfold Str.join. cbn [String.concat].
  destruct l; [exact H | apply worded_app_l, H].
Qed.

(** The detail appended to the note holds a word. *)
Lemma detail_worded e c x cs :
  conflicts_of e c = x :: cs ->
  worded (Str.join "; " (Str.sorted_set (conflicts_of e c))).
Proof.
  intros E. pose proof (conflicts_worded e c) as Hw. rewrite E in *.
  cbn [Str.sorted_set fold_right].
  destruct (insert_sorted_cons x (fold_right Str.insert_sorted [] cs)) as [y [l' Hy]].
  assert (Hin : In y (Str.sorted_set (x :: cs))).
  { cbn [Str.sorted_set fold_right]. rewrite Hy. left. reflexivity. }
  rewrite Hy. apply join_worded.
  apply sorted_set_In in Hin. rewrite Forall_forall in Hw. apply Hw, Hin.
Qed.

Lemma kept_note_nonempty e c x cs :
  conflicts_of e c = x :: cs -> kept_note e c <> "".
Proof.
  intros E. pose proof (detail_worded e c x cs E) as Hd.
  unfold kept_note. rewrite E in *. cbv zeta.
  apply worded_nonempty. destruct (negb _).
  - apply worded_strip, worded_strip_chars, worded_app_r, worded_app_r, Hd.
  - exact Hd.
Qed.

(** The flag is raised and the note is not empty. *)
Definition flagged (m : merged) : Prop :=
  needs_validation m = true /\ conflict_note m <> "".

Lemma flagged_conflict e c : conflicts_of e c <> [] -> flagged (merge_record e c).
Proof.
  intros N. unfold flagged. rewrite flag_merge_record, note_merge_record.
  destruct (conflicts_of e c) as [|x cs] eqn:E; [contradiction|]. split.
  - unfold kept_flag. rewrite E. reflexivity.
  - apply (kept_note_nonempty e c x cs E).
Qed.

Lemma flagged_kept e c : flagged e -> flagged (merge_record e c).
Proof.
  intros [Hf Hn]. destruct (conflicts_of e c) as [|x cs] eqn:E.
  - unfold flagged. rewrite flag_merge_record, note_merge_record.
    unfold kept_flag, kept_note. rewrite E, Hf. auto.
  - apply flagged_conflict. rewrite E. discriminate.
Qed.

Lemma flag_kept e c :
  needs_validation e = true -> needs_validation (merge_record e c) = true.
Proof.
  intros Hf. rewrite flag_merge_record. unfold kept_flag. rewrite Hf.
  destruct (conflicts_of e c); reflexivity.
Qed.

Lemma flag_kept_fold later : forall m,
  needs_validation m = true ->
  needs_validation (fold_left merge_record later m) = true.
Proof.
  induction later as [|c later IH]; intros m H; cbn [fold_left]; [exact H|].
  apply IH, flag_kept, H.
Qed.

(** The texts that a record brings for the fix and the status. *)
Definition fix_of (r : finding) : string := str_field "recommended_fix" "" r.
Definition status_of (r : finding) : string := str_field "status" "open" r.

(** Two records disagree: on a rank field that both hold, on the fix
    when both bring one, or on the status. *)
Definition disagree (r1 r2 : finding) : Prop :=
  (exists f v1 v2,
      dict_find (field_name f) r1 = Some v1 /\ dict_find (field_name f) r2 = Some v2
      /\ Str.strip (py_str v1) <> Str.strip (py_str v2))
  \/ (fix_of r1 <> "" /\ fix_of r2 <> "" /\ fix_of r1 <> fix_of r2)
  \/ status_of r1 <> status_of r2.

(** A record folded without conflict agrees with the merged record. *)
Definition agrees (r : finding) (m : merged) : Prop :=
  (forall f v, dict_find (field_name f) r = Some v ->
               Str.strip (py_str v) = get_field f m)
  /\ (fix_of r = "" \/ fix_of r = recommended_fix m)
  /\ status_of r = status m.

Lemma agrees_initial r : agrees r (initial_record r).
Proof.
  unfold agrees. split; [|split].
  - intros f v H. destruct f; cbn [get_field initial_record tier severity confidence];
      unfold str_field, dict_get; cbn [field_name] in H; rewrite H; reflexivity.
  - right. reflexivity.
  - reflexivity.
Qed.

Lemma app_nil_both {A : Type} (a b : list A) : (a ++ b)%list = [] -> a = [] /\ b = [].
Proof. destruct a; [auto | discriminate]. Qed.

Lemma stronger_same v tbl : stronger v v tbl = v.
Proof. unfold stronger. destruct (_ >? _); reflexivity. Qed.

(** A fold without conflict leaves the reconciled fields as they are,
    and the incoming record agrees with them. *)
Lemma quiet_fold e c :
  conflicts_of e c = [] ->
  (forall f, incoming e c f = get_field f e /\ get_field f (merge_record e c) = get_field f e)
  /\ (incoming_fix c = "" \/ incoming_fix c = recommended_fix e)
  /\ recommended_fix (merge_record e c) = recommended_fix e
  /\ incoming_status c = status e
  /\ status (merge_record e c) = status e.
Proof.
  intros E. unfold conflicts_of in E.
  apply app_nil_both in E. destruct E as [E Es].
  apply app_nil_both in E. destruct E as [E Ef].
  apply app_nil_both in E. destruct E as [E Ec].
  apply app_nil_both in E. destruct E as [Et Esv].
  assert (Hr : forall f, rank_conflict e c f = [] -> incoming e c f = get_field f e).
  { intros f H. unfold rank_conflict in H.
    destruct (String.eqb_spec (incoming e c f) (get_field f e)); [auto | discriminate]. }
  split.
  { intros f. assert (Hi : incoming e c f = get_field f e) by (destruct f; auto).
    split; [exact Hi|]. rewrite get_field_merge_record. unfold kept.
    rewrite Hi. apply stronger_same. }
  rewrite merge_record_eq. cbn [recommended_fix status].
  unfold fix_conflict in Ef. unfold status_conflict in Es.
  unfold kept_fix, kept_status.
  destruct (fix_differs e c) eqn:Hf; [discriminate|].
  destruct (status_differs e c) eqn:Hs; [discriminate|].
  cbn [andb]. unfold fix_differs in Hf. unfold status_differs in Hs.
  apply negb_false_iff, String.eqb_eq in Hs.
  split; [|auto].
  apply andb_false_iff in Hf. destruct Hf as [Hf | Hf];
    apply negb_false_iff, String.eqb_eq in Hf; auto.
Qed.

Lemma agrees_quiet e c r :
  conflicts_of e c = [] -> agrees r e -> agrees r (merge_record e c).
Proof.
  intros E [Hr [Hf Hs]]. destruct (quiet_fold e c E) as [Qr [_ [Qf [_ Qs]]]].
  unfold agrees. rewrite Qf, Qs. split; [|auto].
  intros f v H. destruct (Qr f) as [_ ->]. apply Hr, H.
Qed.

Lemma agrees_incoming e c :
  conflicts_of e c = [] -> agrees c (merge_record e c).
Proof.
  intros E. destruct (quiet_fold e c E) as [Qr [Qi [Qf [Qsi Qs]]]].
  unfold agrees. rewrite Qf, Qs. split; [|split].
  - intros f v H. destruct (Qr f) as [Hi ->]. rewrite <- Hi.
    unfold incoming, str_field, dict_get. rewrite H. reflexivity.
  - exact Qi.
  - exact Qsi.
Qed.

(** Either the merged record is flagged, or every record folded so far
    agrees with it. *)
Lemma fold_flagged_or_agree later : forall m seen,
  flagged m \/ (forall r, In r seen -> agrees r m) ->
  flagged (fold_left merge_record later m)
  \/ (forall r, In r (seen ++ later) -> agrees r (fold_left merge_record later m)).
Proof.
  induction later as [|c later IH]; intros m seen H; cbn [fold_left].
  - rewrite app_nil_r. exact H.
  - replace (seen ++ c :: later)%list with ((seen ++ [c]) ++ later)%list
      by (rewrite <- app_assoc; reflexivity).
    apply IH. destruct H as [H | H].
    + left. apply flagged_kept, H.
    + destruct (conflicts_of m c) as [|x cs] eqn:E.
      * right. intros r Hr. apply in_app_or in Hr. destruct Hr as [Hr | [Hr | []]].
        -- apply agrees_quiet; auto.
        -- subst r. apply agrees_incoming, E.
      * left. apply flagged_conflict. rewrite E. discriminate.
Qed.

Lemma agree_not_disagree r1 r2 m : agrees r1 m -> agrees r2 m -> ~ disagree r1 r2.
Proof.
  intros [Hr1 [Hf1 Hs1]] [Hr2 [Hf2 Hs2]] [[f [v1 [v2 [H1 [H2 N]]]]] | [[N1 [N2 N]] | N]].
  - apply N. rewrite (Hr1 f v1 H1), (Hr2 f v2 H2). reflexivity.
  - apply N. destruct Hf1 as [Hf1 | Hf1]; [contradiction|].
    destruct Hf2 as [Hf2 | Hf2]; [contradiction|]. congruence.
  - apply N. congruence.
Qed.

Lemma merge_all_flagged c m r1 r2 :
  merge_all c = Some m -> In r1 c -> In r2 c -> disagree r1 r2 -> flagged m.
Proof.
  destruct c as [|r0 c]; [discriminate|]. cbn [merge_all]. intros E. inversion E. subst m.
  intros H1 H2 Hd.
  destruct (fold_flagged_or_agree c (initial_record r0) [r0]) as [H | H].
  - right. intros r [Hr | []]. subst r. apply agrees_initial.
  - exact H.
  - exfalso. apply (agree_not_disagree r1 r2 _ (H r1 H1) (H r2 H2) Hd).
Qed.

End ConflictFlag.

Definition c6_with_fix : finding :=
  [("detector", VStr "duplication"); ("file", VStr "a.go"); ("summary", VStr "dup");
   ("recommended_fix", VStr "extract helper")].
Definition c6_empty_fix : finding :=
  [("detector", VStr "duplication"); ("file", VStr "a.go"); ("summary", VStr "dup");
   ("recommended_fix", VStr "")].

(** C6, as stated, fails: a record with a fix and a record of the same
    fingerprint with an empty fix disagree on the fix, and folding the
    second into the first raises no flag and writes no note. *)
Lemma C6_counterexample :
  fix_of c6_with_fix <> fix_of c6_empty_fix
  /\ map (fun m => (needs_validation m, conflict_note m))
       (merged_of [c6_with_fix; c6_empty_fix]) = [(false, "")].
Proof. split; [discriminate | reflexivity]. Qed.

(** C6, amended. A fold that records a conflict raises the flag and
    leaves a note that is not empty: the old note, when there is one,
    then the distinct conflicts in order, joined by semicolons. The flag
    never falls back. When two contributors of a merged record disagree
    on a tier, severity or confidence that both hold, on a fix that both
    bring, or on the status, the merged record is flagged and has a
    note. *)
Theorem C6_conflict_flag (loaded : list finding) :
  (forall m c,
      conflicts_of m c <> [] ->
      needs_validation (merge_record m c) = true
      /\ conflict_note (merge_record m c) <> ""
      /\ conflict_note (merge_record m c)
         = let detail := Str.join "; " (Str.sorted_set (snd (merge_fields m c))) in
           if negb (String.eqb (conflict_note m) "")
           then Str.strip (Str.strip_chars "; " (conflict_note m ++ "; " ++ detail))
           else detail)
  /\ (forall m later,
        needs_validation m = true ->
        needs_validation (fold_left merge_record later m) = true)
  /\ (forall k m r1 r2,
        dict_find k (fold_records loaded) = Some m ->
        In r1 loaded -> In r2 loaded ->
        normalized_fingerprint r1 = k -> normalized_fingerprint r2 = k ->
        disagree r1 r2 ->
        needs_validation m = true /\ conflict_note m <> "").
Proof.
  split.
  { intros m c N. destruct (flagged_conflict m c N) as [Hf Hn].
    split; [exact Hf|]. split; [exact Hn|].
    rewrite note_merge_record, conflicts_of_snd. unfold kept_note.
    destruct (conflicts_of m c); [contradiction | reflexivity]. }
  split; [intros m later; apply flag_kept_fold|].
  intros k m r1 r2 Hm H1 H2 K1 K2 Hd. rewrite find_fold_records in Hm.
  apply (merge_all_flagged _ _ r1 r2 Hm); [apply contributors_In; auto.. | exact Hd].
Qed.

Definition c6_other_fix : finding :=
  [("detector", VStr "duplication"); ("file", VStr "a.go"); ("summary", VStr "dup");
   ("recommended_fix", VStr "inline it")].

Lemma C6_conflict_flag_witness :
  needs_validation (merge_record (initial_record c6_with_fix) c6_other_fix) = true
  /\ conflict_note (merge_record (initial_record c6_with_fix) c6_other_fix) <> "".
Proof.
  destruct (C6_conflict_flag [c6_with_fix; c6_other_fix]) as [_ [_ H]].
  apply (H (normalized_fingerprint c6_with_fix) _ c6_with_fix c6_other_fix).
  - reflexivity.
  - left. reflexivity.
  - right. left. reflexivity.
  - reflexivity.
  - reflexivity.
  - right. left. repeat split; discriminate.
Defined.

(** ** The line number *)

Section LineNumber.

Lemma line_merge_record e c : line (merge_record e c) = next_line (line e) c.
Proof. rewrite merge_record_eq. reflexivity. Qed.

(** The line that a record brings, when it is a positive integer. *)
Definition positive_line (r : finding) : option Z :=
  match as_int (dict_get "line" VNone r) with
  | Some n => if n >? 0 then Some n else None
  | None => None
  end.

(** A line as the validator admits it: none, or a positive integer. *)
Definition valid_line (v : value) : Prop :=
  v = VNone \/ exists n, as_int v = Some n /\ 0 < n.

Lemma next_line_spec old c :
  valid_line old ->
  valid_line (next_line old c)
  /\ (forall n, as_int old = Some n ->
        exists k, as_int (next_line old c) = Some k /\ k <= n)
  /\ (forall n, positive_line c = Some n ->
        exists k, as_int (next_line old c) = Some k /\ k <= n)
  /\ (next_line old c = old
      \/ (next_line old c = dict_get "line" VNone c /\ positive_line c <> None)).
Proof.
  intros Hold. unfold next_line, positive_line.
  destruct (as_int (dict_get "line" VNone c)) as [n|] eqn:En.
  2:{ repeat split; auto; try discriminate. intros k Hk. exists k. split; [auto | lia]. }
  destruct (Z.gtb_spec n 0) as [Hpos | Hneg].
  2:{ repeat split; auto; try discriminate. intros k Hk. exists k. split; [auto | lia]. }
  destruct Hold as [E | [o [Eo Ho]]].
  - subst old. cbn [as_int]. split; [right; exists n; auto|].
    split; [discriminate|]. split.
    + intros k Hk. inversion Hk. subst k. exists n. split; [auto | lia].
    + right. split; [reflexivity | discriminate].
  - assert (Hne : match old with
                  | VNone => dict_get "line" VNone c
                  | _ => match as_int old with
                         | Some o => if n <? o then dict_get "line" VNone c else old
                         | None => old
                         end
                  end = if n <? o then dict_get "line" VNone c else old).
    { destruct old; try discriminate; rewrite Eo; reflexivity. }
    rewrite Hne. destruct (Z.ltb_spec n o) as [Hlt | Hge].
    + split; [right; exists n; auto|]. split.
      * intros k Hk. rewrite Eo in Hk. inversion Hk. subst k. exists n. split; [auto | lia].
      * split.
        -- intros k Hk. inversion Hk. subst k. exists n. split; [auto | lia].
        -- right. split; [reflexivity | discriminate].
    + split; [right; exists o; auto|]. split.
      * intros k Hk. exists k. split; [auto | lia].
      * split; [|left; reflexivity].
        intros k Hk. inversion Hk. subst k. exists o. split; [auto | lia].
Qed.

Lemma fold_line later : forall m,
  valid_line (line m) ->
  let m' := fold_left merge_record later m in
  valid_line (line m')
  /\ (forall n, as_int (line m) = Some n -> exists k, as_int (line m') = Some k /\ k <= n)
  /\ (forall r n, In r later -> positive_line r = Some n ->
        exists k, as_int (line m') = Some k /\ k <= n)
  /\ (line m' = line m
      \/ exists r, In r later /\ line m' = dict_get "line" VNone r
                   /\ positive_line r <> None).
Proof.
  induction later as [|c later IH]; intros m Hm; cbn [fold_left].
  - cbv zeta. split; [exact Hm|]. split.
    + intros n Hn. exists n. split; [auto | lia].
    + split; [intros r n []|]. left. reflexivity.
  - destruct (next_line_spec (line m) c Hm) as [Hv [Hold [Hnew Hor]]].
    rewrite <- line_merge_record in Hv, Hold, Hnew, Hor.
    destruct (IH (merge_record m c) Hv) as [Iv [Iold [Inew Ior]]].
    cbv zeta. split; [exact Iv|]. split.
    + intros n Hn. destruct (Hold n Hn) as [k [Hk Hle]].
      destruct (Iold k Hk) as [k' [Hk' Hle']]. exists k'. split; [auto | lia].
    + split.
      * intros r n [E | Hr] Hp.
        -- subst r. destruct (Hnew n Hp) as [k [Hk Hle]].
           destruct (Iold k Hk) as [k' [Hk' Hle']]. exists k'. split; [auto | lia].
        -- apply (Inew r n Hr Hp).
      * destruct Ior as [E | [r [Hr [E Hp]]]].
        -- rewrite E. destruct Hor as [E' | [E' Hp]]; [left; exact E'|].
           right. exists c. split; [left; reflexivity | auto].
        -- right. exists r. split; [right; exact Hr | auto].
Qed.

(** When the first record of a bucket brings no line or a positive one,
    the merged line is the least positive line of the contributors. *)
Lemma line_least_positive r0 later :
  valid_line (dict_get "line" VNone r0) ->
  let m := fold_left merge_record later (initial_record r0) in
  (forall r n, In r (r0 :: later) -> positive_line r = Some n ->
     exists k, as_int (line m) = Some k /\ 0 < k /\ k <= n)
  /\ (line m = VNone
      \/ exists r, In r (r0 :: later) /\ line m = dict_get "line" VNone r
                   /\ positive_line r <> None).
Proof.
  intros H0. cbv zeta.
  destruct (fold_line later (initial_record r0) H0) as [Hv [Hold [Hnew Hor]]].
  cbv zeta in *. cbn [initial_record line] in *.
  assert (Hpos : forall k, as_int (line (fold_left merge_record later (initial_record r0)))
                           = Some k -> 0 < k).
  { intros k Hk. destruct Hv as [E | [n [En Hn]]].
    - rewrite E in Hk. discriminate.
    - rewrite En in Hk. inversion Hk. subst. exact Hn. }
  split.
  - intros r n [E | Hr] Hp.
    + subst r. unfold positive_line in Hp.
      destruct (as_int (dict_get "line" VNone r0)) as [n0|] eqn:E0; [|discriminate].
      destruct (n0 >? 0); [|discriminate]. inversion Hp. subst n0.
      destruct (Hold n eq_refl) as [k [Hk Hle]]. exists k. auto.
    + destruct (Hnew r n Hr Hp) as [k [Hk Hle]]. exists k. auto.
  - destruct Hor as [E | [r [Hr [E Hp]]]].
    + destruct H0 as [E0 | [n [En Hn]]].
      * left. rewrite E. exact E0.
      * right. exists r0. split; [left; reflexivity|]. split; [exact E|].
        unfold positive_line. rewrite En.
        destruct (Z.gtb_spec n 0); [discriminate | lia].
    + right. exists r. split; [right; exact Hr | auto].
Qed.

End LineNumber.

Definition c7_zero : finding :=
  [("detector", VStr "duplication"); ("file", VStr "a.go"); ("summary", VStr "dup");
   ("line", VInt 0)].
Definition c7_seven : finding :=
  [("detector", VStr "duplication"); ("file", VStr "a.go"); ("summary", VStr "dup");
   ("line", VInt 7)].

(** C7 on the code. [initial_record] keeps the line of the first record
    as it is, so a first line 0 stays and hides the line 7 of the second
    record; in the other order [merge_record] passes over the line 0 and
    the merged line is 7. *)
Theorem C7_first_line_kept :
  map line (merged_of [c7_zero; c7_seven]) = [VInt 0]
  /\ map line (merged_of [c7_seven; c7_zero]) = [VInt 7].
Proof. split; reflexivity. Qed.

(** ** Sources that hold no findings *)

(** A root that [load_findings] reads records from. *)
Definition is_container (p : payload) : bool :=
  match p with
  | PDict (Some (SList _)) => true
  | PValue (SList _) => true
  | _ => false
  end.

Lemma records_of_other p : is_container p = false -> records_of p = [].
Proof. destruct p as [[[|]|]|[|]]; try discriminate; reflexivity. Qed.

(** C8. A source whose root is no sequence and no dict with a sequence
    under [findings] brings no record, and the run ends with the report
    over the records of the other sources. *)
Theorem C8_shape_errors_skipped (before after : list source) (path : string)
  (p : payload) :
  is_container p = false ->
  load_findings [(path, p)] = []
  /\ load_findings (before ++ (path, p) :: after) = load_findings (before ++ after)
  /\ main (before ++ (path, p) :: after)
     = Done (build_report (load_findings (before ++ after))).
Proof.
  intros H. pose proof (records_of_other p H) as Hr.
  assert (E : load_findings (before ++ (path, p) :: after)
              = load_findings (before ++ after)).
  { unfold load_findings. rewrite !flat_map_app. cbn [flat_map fst snd].
    rewrite Hr. reflexivity. }
  split; [|split].
  - unfold load_findings. cbn [flat_map fst snd]. rewrite Hr. reflexivity.
  - exact E.
  - unfold main. rewrite <- E. destruct before; reflexivity.
Qed.

Lemma C8_shape_errors_skipped_witness :
  main [("a.json", PValue (SList [ItemDict scenario_a])); ("b.json", PDict None)]
  = Done (build_report (load_findings [("a.json", PValue (SList [ItemDict scenario_a]))])).
Proof.
  apply (C8_shape_errors_skipped
           [("a.json", PValue (SList [ItemDict scenario_a]))] [] "b.json" (PDict None)).
  reflexivity.
Defined.

(** ** The remediation plan *)

Lemma remediation_plan_from records : forall quick rest,
  fold_left (fun (p : plan) record =>
               if is_quick_win record
               then (quick_wins p ++ [plan_item record], refactors p)%list
               else (quick_wins p, refactors p ++ [plan_item record])%list)
    records (quick, rest)
  = ((quick ++ map plan_item (filter is_quick_win records))%list,
     (rest ++ map plan_item (filter (fun r => negb (is_quick_win r)) records))%list).
Proof.
  induction records as [|r records IH]; intros quick rest; cbn [fold_left filter map].
  - rewrite !app_nil_r. reflexivity.
  - destruct (is_quick_win r); cbn [negb quick_wins refactors fst snd map];
      rewrite IH, <- app_assoc; reflexivity.
Qed.

Lemma remediation_plan_eq records :
  remediation_plan records
  = (map plan_item (filter is_quick_win records),
     map plan_item (filter (fun r => negb (is_quick_win r)) records)).
Proof. unfold remediation_plan. rewrite remediation_plan_from. reflexivity. Qed.

Lemma is_quick_win_iff m :
  is_quick_win m = true
  <-> tier m = "T3" \/ tier m = "T4"
      \/ detector m = "naming_consistency" \/ detector m = "debug_logging_leftovers".
Proof.
  unfold is_quick_win. rewrite orb_true_iff, !mem_In. cbn [In]. intuition congruence.
Qed.

Lemma filter_partition_length {A : Type} (f : A -> bool) l :
  (List.length (filter f l) + List.length (filter (fun x => negb (f x)) l))%nat
  = List.length l.
Proof.
  induction l as [|x l IH]; cbn [filter List.length]; [reflexivity|].
  destruct (f x); cbn [negb List.length]; lia.
Qed.

(** C9, as stated, fails: a merged record that is not open is in the
    findings of the report and in neither list of the plan. *)
Lemma C9_counterexample :
  List.length (findings (build_report [c5_fixed])) = 1%nat
  /\ report_plan (build_report [c5_fixed]) = ([], []).
Proof. split; reflexivity. Qed.

(** C9, amended. The plan of the report is made from the first ten open
    records of the merged set in priority order: each of them is in one
    of the two lists, as the text [id: summary], in [quick_wins] when its
    tier is T3 or T4 or its detector is naming_consistency or
    debug_logging_leftovers, in [refactors] otherwise. *)
Theorem C9_remediation_plan (loaded : list finding) :
  let r := build_report loaded in
  let top := firstn 10 (filter (has_status "open") (findings r)) in
  quick_wins (report_plan r) = map plan_item (filter is_quick_win top)
  /\ refactors (report_plan r)
     = map plan_item (filter (fun m => negb (is_quick_win m)) top)
  /\ (List.length (quick_wins (report_plan r))
      + List.length (refactors (report_plan r)))%nat = List.length top
  /\ (forall m, In m top ->
        if is_quick_win m
        then In (plan_item m) (quick_wins (report_plan r))
        else In (plan_item m) (refactors (report_plan r)))
  /\ (forall m, is_quick_win m = true
        <-> tier m = "T3" \/ tier m = "T4"
            \/ detector m = "naming_consistency"
            \/ detector m = "debug_logging_leftovers")
  /\ (forall m, plan_item m = id m ++ ": " ++ summary m).
Proof.
  cbv zeta. unfold build_report. cbn [report_plan findings].
  unfold top_open_of. rewrite remediation_plan_eq. cbn [quick_wins refactors fst snd].
  split; [reflexivity|]. split; [reflexivity|]. split.
  { rewrite !length_map. apply filter_partition_length. }
  split.
  { intros m Hm. destruct (is_quick_win m) eqn:E; apply in_map, filter_In;
      split; auto. rewrite E. reflexivity. }
  split; [exact is_quick_win_iff | reflexivity].
Qed.

(** * Further properties of the merge engine *)

(** ** Whitespace stripping *)

Section Stripping.

Variable p : ascii -> bool.

Lemma rstrip_idem s : Str.rstrip_by p (Str.rstrip_by p s) = Str.rstrip_by p s.
Proof.
  induction s as [|c s IH]; cbn [Str.rstrip_by]; [reflexivity|].
  destruct (Str.rstrip_by p s) as [|d t] eqn:E.
  - destruct (p c) eqn:Hp; cbn [Str.rstrip_by]; [reflexivity | rewrite Hp; reflexivity].
  - change (Str.rstrip_by p (String c (String d t)))
      with (match Str.rstrip_by p (String d t) with
            | EmptyString => if p c then EmptyString else String c EmptyString
            | u => String c u
            end).
    rewrite IH. reflexivity.
Qed.

Lemma lstrip_head s :
  Str.lstrip_by p s = "" \/ exists c t, Str.lstrip_by p s = String c t /\ p c = false.
Proof.
  induction s as [|c s IH]; cbn [Str.lstrip_by]; [auto|].
  destruct (p c) eqn:Hp; [exact IH|]. right. eauto.
Qed.

Lemma rstrip_head c t :
  p c = false -> exists u, Str.rstrip_by p (String c t) = String c u.
Proof.
  intros Hp. cbn [Str.rstrip_by]. destruct (Str.rstrip_by p t); [rewrite Hp|]; eauto.
Qed.

Lemma strip_by_idem s : Str.strip_by p (Str.strip_by p s) = Str.strip_by p s.
Proof.
  unfold Str.strip_by. destruct (lstrip_head s) as [E | [c [t [E Hp]]]]; rewrite E.
  - reflexivity.
  - destruct (rstrip_head c t Hp) as [u Eu]. rewrite Eu. cbn [Str.lstrip_by].
    rewrite Hp, <- Eu. apply rstrip_idem.
Qed.

End Stripping.

Lemma strip_idem s : Str.strip (Str.strip s) = Str.strip s.
Proof. apply strip_by_idem. Qed.

(** ** Loading and provenance *)

Lemma dict_find_set_same {V : Type} k (v : V) d : dict_find k (dict_set k v d) = Some v.
Proof.
  induction d as [|[k' w] d IH]; cbn [dict_set dict_find].
  - rewrite String.eqb_refl. reflexivity.
  - destruct (String.eqb k k') eqn:E; cbn [dict_find]; rewrite E; auto.
Qed.

Lemma dict_find_set_other {V : Type} k k' (v : V) d :
  k' <> k -> dict_find k' (dict_set k v d) = dict_find k' d.
Proof.
  intros N. induction d as [|[k0 w] d IH]; cbn [dict_set dict_find].
  - apply String.eqb_neq in N. rewrite N. reflexivity.
  - destruct (String.eqb_spec k k0) as [E | E]; cbn [dict_find].
    + subst k0. apply String.eqb_neq in N. rewrite N. reflexivity.
    + rewrite IH. reflexivity.
Qed.

(** The text that a record brings for its source. *)
Definition source_of (r : finding) : string := py_str (dict_get "_source" (VStr "") r).

(** [record["_source"] = str(path)] on the copy of a record. *)
Definition tagged (path : string) (record : finding) : finding :=
  dict_set "_source" (VStr path) record.

Lemma str_field_tagged key default path record :
  key <> "_source" ->
  str_field key default (tagged path record) = str_field key default record.
Proof.
  intros N. unfold str_field, dict_get, tagged.
  rewrite dict_find_set_other by exact N. reflexivity.
Qed.

Lemma fingerprint_tagged path record :
  normalized_fingerprint (tagged path record) = normalized_fingerprint record.
Proof.
  unfold normalized_fingerprint.
  rewrite !str_field_tagged by discriminate.
  unfold dict_get, tagged. rewrite dict_find_set_other by discriminate. reflexivity.
Qed.

Lemma In_tag_records path records r :
  In r (tag_records path records)
  <-> exists record, In (ItemDict record) records /\ r = tagged path record.
Proof.
  unfold tag_records. rewrite in_flat_map. split.
  - intros [[record|] [Hin Hr]]; [|destruct Hr].
    destruct Hr as [Hr | []]. exists record. split; [exact Hin | symmetry; exact Hr].
  - intros [record [Hin ->]]. exists (ItemDict record). split; [exact Hin | left; reflexivity].
Qed.


(** X1. [load_findings] returns exactly the dict items of the files whose
    root is a list or a dict with a list under [findings], each with
    [_source] set to the path of its file: an [_source] that the record
    already held is replaced, every other key is read as before, and the
    fingerprint of the record is unchanged. *)
Theorem load_findings_tagged (paths : list source) (r : finding) :
  In r (load_findings paths) ->
  exists path p record,
    In (path, p) paths /\ In (ItemDict record) (records_of p)
    /\ r = dict_set "_source" (VStr path) record
    /\ dict_find "_source" r = Some (VStr path)
    /\ source_of r = path
    /\ (forall key, key <> "_source" -> dict_find key r = dict_find key record)
    /\ normalized_fingerprint r = normalized_fingerprint record.
Proof.
  unfold load_findings. rewrite in_flat_map. intros [[path p] [Hin Hr]].
  cbn [fst snd] in Hr. apply In_tag_records in Hr. destruct Hr as [record [Hrec ->]].
  exists path, p, record. repeat split; try assumption.
  - apply dict_find_set_same.
  - unfold source_of, dict_get, tagged. rewrite dict_find_set_same. reflexivity.
  - intros key N. apply dict_find_set_other, N.
  - apply fingerprint_tagged.
Qed.

Definition ex_stale : finding :=
  [("detector", VStr "duplication"); ("_source", VStr "stale.json");
   ("file", VStr "a.go"); ("summary", VStr "dup")].

Lemma load_findings_tagged_witness :
  exists path p record,
    In (path, p) [("runs/f1.json", PValue (SList [ItemOther; ItemDict ex_stale]))]
    /\ In (ItemDict record) (records_of p)
    /\ tagged "runs/f1.json" ex_stale = dict_set "_source" (VStr path) record
    /\ dict_find "_source" (tagged "runs/f1.json" ex_stale) = Some (VStr path)
    /\ source_of (tagged "runs/f1.json" ex_stale) = path
    /\ (forall key, key <> "_source" ->
          dict_find key (tagged "runs/f1.json" ex_stale) = dict_find key record)
    /\ normalized_fingerprint (tagged "runs/f1.json" ex_stale)
       = normalized_fingerprint record.
Proof.
  apply (load_findings_tagged
           [("runs/f1.json", PValue (SList [ItemOther; ItemDict ex_stale]))]
           (tagged "runs/f1.json" ex_stale)).
  left. reflexivity.
Defined.




(** ** What a bucket holds *)

Definition ex_a : finding :=
  [("detector", VStr "duplication"); ("file", VStr "a.go");
   ("summary", VStr "Dup block"); ("status", VStr "fixed"); ("tier", VStr "T2");
   ("recommended_fix", VStr "extract"); ("_source", VStr "f1.json")].

Definition ex_b : finding :=
  [("detector", VStr "duplication"); ("file", VStr "a.go");
   ("summary", VStr "dup  block!"); ("status", VStr "open");
   ("recommended_fix", VStr "extract helper"); ("_source", VStr "f2.json")].

Lemma fold_fixed later : forall m,
  id (fold_left merge_record later m) = id m
  /\ detector (fold_left merge_record later m) = detector m
  /\ file (fold_left merge_record later m) = file m
  /\ sources (fold_left merge_record later m) = (sources m ++ map source_of later)%list.
Proof.
  induction later as [|c later IH]; intros m; cbn [fold_left map].
  - rewrite app_nil_r. auto.
  - destruct (IH (merge_record m c)) as [Hi [Hd [Hf Hs]]].
    rewrite Hi, Hd, Hf, Hs. rewrite merge_record_eq. cbn [id detector file sources].
    rewrite <- app_assoc. auto.
Qed.

Lemma bucket_contributors k loaded m :
  dict_find k (fold_records loaded) = Some m ->
  exists first later,
    contributors k loaded = first :: later
    /\ m = fold_left merge_record later (initial_record first).
Proof.
  rewrite find_fold_records. destruct (contributors k loaded) as [|first later];
    cbn [merge_all]; [discriminate|].
  intros E. inversion E. eauto.
Qed.

(** X3. A merged record keeps the detector, the file and the id of the
    first record of its fingerprint, its [_sources] are the sources of
    the records of that fingerprint, one for each in the order read, and
    its fingerprint is its detector, its file and the normalized summary
    of that first record, joined by a bar. *)
Theorem bucket_provenance (loaded : list finding) (k : string) (m : merged) :
  dict_find k (fold_records loaded) = Some m ->
  exists first later,
    filter (fun r => String.eqb (normalized_fingerprint r) k) loaded = first :: later
    /\ sources m = map source_of (first :: later)
    /\ detector m = str_field "detector" "" first
    /\ file m = str_field "file" "" first
    /\ id m = (if String.eqb (str_field "id" "" first) "" then "pending"
               else str_field "id" "" first)
    /\ k = detector m ++ "|" ++ file m ++ "|"
             ++ normalize_text (py_str (dict_get "summary" (VStr "") first)).
Proof.
  intros H. destruct (bucket_contributors k loaded m H) as [first [later [Hc ->]]].
  exists first, later. split; [exact Hc|].
  destruct (fold_fixed later (initial_record first)) as [Hi [Hd [Hf Hs]]].
  rewrite Hi, Hd, Hf, Hs. cbn [initial_record id detector file sources map app].
  repeat split.
  assert (Hin : In first (contributors k loaded)) by (rewrite Hc; left; reflexivity).
  apply contributors_In in Hin. destruct Hin as [_ Hk]. rewrite <- Hk. reflexivity.
Qed.

Lemma bucket_provenance_witness :
  exists first later,
    filter (fun r => String.eqb (normalized_fingerprint r) "duplication|a.go|dup block")
      [ex_a; ex_b] = first :: later
    /\ sources (merge_record (initial_record ex_a) ex_b) = map source_of (first :: later)
    /\ detector (merge_record (initial_record ex_a) ex_b) = str_field "detector" "" first
    /\ file (merge_record (initial_record ex_a) ex_b) = str_field "file" "" first
    /\ id (merge_record (initial_record ex_a) ex_b)
       = (if String.eqb (str_field "id" "" first) "" then "pending"
          else str_field "id" "" first)
    /\ "duplication|a.go|dup block"
       = detector (merge_record (initial_record ex_a) ex_b) ++ "|"
           ++ file (merge_record (initial_record ex_a) ex_b) ++ "|"
           ++ normalize_text (py_str (dict_get "summary" (VStr "") first)).
Proof.
  apply (bucket_provenance [ex_a; ex_b] "duplication|a.go|dup block"
           (merge_record (initial_record ex_a) ex_b)).
  reflexivity.
Defined.

(** ** The longest summary and fix *)

(** The text kept between the one held and an incoming one: the
    incoming one when it is strictly longer. *)
Definition longer (old new : string) : string :=
  if (String.length old <? String.length new)%nat then new else old.

Lemma kept_fix_longer e c : kept_fix e c = longer (recommended_fix e) (incoming_fix c).
Proof.
  unfold kept_fix, longer, fix_differs.
  destruct (String.length (recommended_fix e) <? String.length (incoming_fix c))%nat eqn:L;
    [|rewrite andb_false_r; reflexivity].
  apply Nat.ltb_lt in L.
  destruct (String.eqb_spec (incoming_fix c) "") as [E | _];
    [rewrite E in L; cbn in L; lia|].
  destruct (String.eqb_spec (incoming_fix c) (recommended_fix e)) as [E | _];
    [rewrite E in L; lia | reflexivity].
Qed.

Lemma fold_texts later : forall m,
  summary (fold_left merge_record later m)
  = fold_left (fun s c => longer s (str_field "summary" "" c)) later (summary m)
  /\ recommended_fix (fold_left merge_record later m)
     = fold_left (fun s c => longer s (fix_of c)) later (recommended_fix m).
Proof.
  induction later as [|c later IH]; intros m; cbn [fold_left]; [auto|].
  destruct (IH (merge_record m c)) as [Hs Hf]. rewrite Hs, Hf.
  rewrite merge_record_eq. cbn [summary recommended_fix].
  rewrite kept_fix_longer. auto.
Qed.

(** The first of the longest texts of a non-empty sequence of records. *)
Definition first_longest (g : finding -> string) (c : list finding) (s : string) : Prop :=
  exists before r after,
    c = (before ++ r :: after)%list /\ s = g r
    /\ (forall x, In x before -> (String.length (g x) < String.length (g r))%nat)
    /\ (forall x, In x after -> (String.length (g x) <= String.length (g r))%nat).

Lemma fold_longer (g : finding -> string) first later :
  first_longest g (first :: later) (fold_left (fun s c => longer s (g c)) later (g first)).
Proof.
  induction later as [|c later IH] using rev_ind.
  - exists [], first, []. cbn. repeat split; intros x [].
  - rewrite fold_left_app. cbn [fold_left].
    destruct IH as [before [r [after [Hc [Hs [Hb Ha]]]]]]. rewrite Hs. unfold longer.
    destruct (String.length (g r) <? String.length (g c))%nat eqn:L.
    + apply Nat.ltb_lt in L. exists (first :: later), c, [].
      split; [reflexivity|]. split; [reflexivity|]. split; [|intros x []].
      intros x Hx. rewrite Hc in Hx. apply in_app_or in Hx.
      destruct Hx as [Hx | [Hx | Hx]].
      * specialize (Hb x Hx). lia.
      * subst x. exact L.
      * specialize (Ha x Hx). lia.
    + apply Nat.ltb_ge in L. exists before, r, (after ++ [c])%list.
      split; [|split; [reflexivity|split; [exact Hb|]]].
      * change (first :: later ++ [c])%list with ((first :: later) ++ [c])%list.
        rewrite Hc, <- app_assoc. reflexivity.
      * intros x Hx. apply in_app_or in Hx. destruct Hx as [Hx | [Hx | []]].
        -- apply Ha, Hx.
        -- subst x. exact L.
Qed.

(** X4. The summary of a merged record is the stripped summary of one of
    the records of its fingerprint: the first of those whose stripped
    summary is longest, every earlier one being strictly shorter. The
    same holds of [recommended_fix]. *)
Theorem merged_text_longest (loaded : list finding) (k : string) (m : merged) :
  dict_find k (fold_records loaded) = Some m ->
  let c := filter (fun r => String.eqb (normalized_fingerprint r) k) loaded in
  first_longest (fun r => str_field "summary" "" r) c (summary m)
  /\ first_longest (fun r => str_field "recommended_fix" "" r) c (recommended_fix m).
Proof.
  intros H c. destruct (bucket_contributors k loaded m H) as [first [later [Hc ->]]].
  subst c. fold (contributors k loaded). rewrite Hc.
  destruct (fold_texts later (initial_record first)) as [Hs Hf]. rewrite Hs, Hf.
  cbn [initial_record summary recommended_fix]. split.
  - apply (fold_longer (fun r => str_field "summary" "" r)).
  - apply (fold_longer fix_of).
Qed.

Lemma merged_text_longest_witness :
  first_longest (fun r => str_field "summary" "" r) [ex_a; ex_b] "dup  block!"
  /\ first_longest (fun r => str_field "recommended_fix" "" r) [ex_a; ex_b]
       "extract helper".
Proof.
  apply (merged_text_longest [ex_a; ex_b] "duplication|a.go|dup block"
           (merge_record (initial_record ex_a) ex_b)).
  reflexivity.
Defined.

(** ** The status of a bucket *)

Lemma kept_status_open e c :
  kept_status e c
  = if String.eqb (status e) "open" || String.eqb (incoming_status c) "open"
    then "open" else status e.
Proof.
  unfold kept_status, status_differs.
  destruct (String.eqb_spec (status e) "open") as [Eo | No]; cbn [orb].
  - rewrite Eo. destruct (negb _); reflexivity.
  - destruct (String.eqb_spec (incoming_status c) "open") as [Ec | Nc].
    + destruct (String.eqb_spec (incoming_status c) (status e)) as [E | _];
        [congruence | reflexivity].
    + rewrite andb_false_r. reflexivity.
Qed.

Lemma fold_status later : forall m,
  status (fold_left merge_record later m)
  = if String.eqb (status m) "open"
       || existsb (fun c => String.eqb (status_of c) "open") later
    then "open" else status m.
Proof.
  induction later as [|c later IH]; intros m; cbn [fold_left existsb].
  - rewrite orb_false_r. destruct (String.eqb_spec (status m) "open"); auto.
  - rewrite IH, status_merge_record, kept_status_open.
    change (incoming_status c) with (status_of c).
    destruct (String.eqb_spec (status m) "open") as [Eo | No]; cbn [orb];
      [reflexivity|].
    destruct (String.eqb_spec (status_of c) "open") as [Ec | Nc]; [reflexivity|].
    apply String.eqb_neq in No. rewrite No. reflexivity.
Qed.

(** X5. The status of a merged record is [open] exactly when one of the
    records of its fingerprint has the status [open] (an absent status
    reads as [open]); when none has, it is the status of the first
    record of the fingerprint, whatever the later ones say. *)
Theorem merged_status (loaded : list finding) (k : string) (m : merged) :
  dict_find k (fold_records loaded) = Some m ->
  (status m = "open"
   <-> exists r, In r loaded /\ normalized_fingerprint r = k
                 /\ str_field "status" "open" r = "open")
  /\ exists first later,
       filter (fun r => String.eqb (normalized_fingerprint r) k) loaded = first :: later
       /\ ((forall r, In r (first :: later) -> str_field "status" "open" r <> "open") ->
           status m = str_field "status" "open" first).
Proof.
  intros H. destruct (bucket_contributors k loaded m H) as [first [later [Hc ->]]].
  rewrite fold_status. cbn [initial_record status]. fold (status_of first).
  change (String.eqb (status_of first) "open"
          || existsb (fun c => String.eqb (status_of c) "open") later)
    with (existsb (fun c => String.eqb (status_of c) "open") (first :: later)).
  split.
  - destruct (existsb _ (first :: later)) eqn:E.
    + split; [intros _ | reflexivity].
      apply existsb_exists in E. destruct E as [r [Hr Ho]].
      rewrite <- Hc in Hr. apply contributors_In in Hr. destruct Hr as [Hr Hk].
      exists r. apply String.eqb_eq in Ho. auto.
    + split.
      * intros Ho. exfalso. apply Bool.not_true_iff_false in E. apply E.
        apply existsb_exists. exists first. split; [left; reflexivity|].
        apply String.eqb_eq, Ho.
      * intros [r [Hr [Hk Ho]]]. exfalso. apply Bool.not_true_iff_false in E. apply E.
        apply existsb_exists. exists r. split.
        -- rewrite <- Hc. apply contributors_In. auto.
        -- apply String.eqb_eq, Ho.
  - exists first, later. split; [exact Hc|]. intros N.
    destruct (existsb _ (first :: later)) eqn:E; [|reflexivity].
    apply existsb_exists in E. destruct E as [r [Hr Ho]].
    apply String.eqb_eq in Ho. destruct (N r Hr Ho).
Qed.

Lemma merged_status_witness :
  (status (merge_record (initial_record ex_a) ex_b) = "open"
   <-> exists r, In r [ex_a; ex_b]
                 /\ normalized_fingerprint r = "duplication|a.go|dup block"
                 /\ str_field "status" "open" r = "open")
  /\ exists first later,
       filter (fun r => String.eqb (normalized_fingerprint r) "duplication|a.go|dup block")
         [ex_a; ex_b] = first :: later
       /\ ((forall r, In r (first :: later) -> str_field "status" "open" r <> "open") ->
           status (merge_record (initial_record ex_a) ex_b)
           = str_field "status" "open" first).
Proof.
  apply (merged_status [ex_a; ex_b] "duplication|a.go|dup block"
           (merge_record (initial_record ex_a) ex_b)).
  reflexivity.
Defined.

(** ** Fields without surrounding whitespace *)

Definition stripped (s : string) : Prop := Str.strip s = s.

Definition clean (m : merged) : Prop :=
  stripped (tier m) /\ stripped (severity m) /\ stripped (confidence m)
  /\ stripped (detector m) /\ stripped (file m) /\ stripped (summary m)
  /\ stripped (recommended_fix m) /\ stripped (status m).

Lemma str_field_stripped key default r : stripped (str_field key default r).
Proof. apply strip_idem. Qed.

Lemma clean_initial r : clean (initial_record r).
Proof. unfold clean. cbn [initial_record tier severity confidence detector file summary
                          recommended_fix status].
  repeat split; apply str_field_stripped.
Qed.

Lemma stronger_cases a b t : stronger a b t = a \/ stronger a b t = b.
Proof. unfold stronger. destruct (_ >? _); auto. Qed.

Lemma kept_stripped e c f : stripped (get_field f e) -> stripped (kept e c f).
Proof.
  intros H. unfold kept.
  destruct (stronger_cases (get_field f e) (incoming e c f) (field_rank f)) as [-> | ->];
    [exact H | apply str_field_stripped].
Qed.

Lemma longer_stripped a b : stripped a -> stripped b -> stripped (longer a b).
Proof. unfold longer. destruct (_ <? _)%nat; auto. Qed.

Lemma clean_merge_record e c : clean e -> clean (merge_record e c).
Proof.
  intros [Ht [Hs [Hc [Hd [Hf [Hsu [Hfx Hst]]]]]]]. unfold clean.
  rewrite merge_record_eq.
  cbn [tier severity confidence detector file summary recommended_fix status].
  split; [apply (kept_stripped e c FTier), Ht|].
  split; [apply (kept_stripped e c FSeverity), Hs|].
  split; [apply (kept_stripped e c FConfidence), Hc|].
  split; [exact Hd|]. split; [exact Hf|].
  split; [apply longer_stripped; [exact Hsu | apply str_field_stripped]|].
  split.
  - rewrite kept_fix_longer. apply longer_stripped; [exact Hfx | apply str_field_stripped].
  - rewrite kept_status_open. destruct (_ || _); [reflexivity | exact Hst].
Qed.

Lemma clean_fold later : forall m, clean m -> clean (fold_left merge_record later m).
Proof.
  induction later as [|c later IH]; intros m H; cbn [fold_left]; [exact H|].
  apply IH, clean_merge_record, H.
Qed.

Lemma clean_bucket loaded k m : dict_find k (fold_records loaded) = Some m -> clean m.
Proof.
  intros H. destruct (bucket_contributors k loaded m H) as [first [later [_ ->]]].
  apply clean_fold, clean_initial.
Qed.

(** X6. Whatever whitespace the input records carry around their values,
    the tier, severity, confidence, detector, file, summary,
    recommended_fix and status of a merged record have none at either
    end: stripping them again changes nothing. *)
Theorem merged_fields_stripped (loaded : list finding) (k : string) (m : merged) :
  dict_find k (fold_records loaded) = Some m ->
  Str.strip (tier m) = tier m /\ Str.strip (severity m) = severity m
  /\ Str.strip (confidence m) = confidence m /\ Str.strip (detector m) = detector m
  /\ Str.strip (file m) = file m /\ Str.strip (summary m) = summary m
  /\ Str.strip (recommended_fix m) = recommended_fix m
  /\ Str.strip (status m) = status m.
Proof. apply clean_bucket. Qed.

Definition ex_padded : finding :=
  [("detector", VStr " duplication "); ("file", VStr "a.go  ");
   ("summary", VStr "  Dup block"); ("status", VStr " open"); ("tier", VStr " T1 ")].

Lemma merged_fields_stripped_witness :
  let m := initial_record ex_padded in
  Str.strip (tier m) = tier m /\ Str.strip (severity m) = severity m
  /\ Str.strip (confidence m) = confidence m /\ Str.strip (detector m) = detector m
  /\ Str.strip (file m) = file m /\ Str.strip (summary m) = summary m
  /\ Str.strip (recommended_fix m) = recommended_fix m
  /\ Str.strip (status m) = status m.
Proof.
  apply (merged_fields_stripped [ex_padded] "duplication|a.go|dup block"
           (initial_record ex_padded)).
  reflexivity.
Defined.

(** ** Folding a record twice *)

Lemma incoming_initial r f :
  incoming (initial_record r) r f = get_field f (initial_record r).
Proof.
  unfold incoming.
  destruct f; cbn [field_name get_field initial_record tier severity confidence];
    unfold str_field, dict_get;
    match goal with |- context [dict_find ?k r] => destruct (dict_find k r) end;
    reflexivity.
Qed.

Lemma next_line_same r : next_line (dict_get "line" VNone r) r = dict_get "line" VNone r.
Proof.
  unfold next_line. destruct (dict_get "line" VNone r) as [|[|]|z|s|s t]; cbn; try reflexivity.
  destruct (z >? 0); [|reflexivity]. rewrite Z.ltb_irrefl. reflexivity.
Qed.

(** X7. Folding into a fresh bucket the very record that opened it
    records no conflict and changes no reconciled field: only the
    evidence is rewritten (its pieces stripped and deduplicated) and the
    source listed a second time. *)
Theorem fold_duplicate (r : finding) :
  merge_record (initial_record r) r
  = set_sources [source_of r; source_of r]
      (set_evidence (merge_evidence (str_field "evidence" "" r)
                       (str_field "evidence" "" r))
         (initial_record r))
  /\ conflicts_of (initial_record r) r = [].
Proof.
  assert (Hc : conflicts_of (initial_record r) r = []).
  { unfold conflicts_of, rank_conflict, fix_conflict, status_conflict,
      fix_differs, status_differs.
    rewrite !incoming_initial, !String.eqb_refl.
    unfold incoming_fix, incoming_status. cbn [initial_record recommended_fix status].
    rewrite ?String.eqb_refl, ?andb_false_r. reflexivity. }
  split; [|exact Hc].
  rewrite merge_record_eq. unfold kept, kept_note, kept_flag. rewrite Hc.
  rewrite !incoming_initial, !stronger_same.
  rewrite kept_fix_longer, kept_status_open.
  unfold incoming_fix, incoming_status, incoming_flag, next_summary, longer.
  cbn [initial_record get_field id tier detector severity file line summary evidence
         recommended_fix confidence status conflict_note needs_validation sources].
  rewrite next_line_same, !Nat.ltb_irrefl, !orb_diag.
  destruct (String.eqb_spec (str_field "status" "open" r) "open") as [E | N];
    [rewrite <- E|]; reflexivity.
Qed.

(** ** The priority order *)

Section Lexicographic.

(** A strict total order given by its test. *)
Definition strict_total {A : Type} (ltb : A -> A -> bool) : Prop :=
  (forall a, ltb a a = false)
  /\ (forall a b c, ltb a b = true -> ltb b c = true -> ltb a c = true)
  /\ (forall a b, ltb a b = true \/ a = b \/ ltb b a = true).

(** The comparison of two pairs as Python compares tuples: the first
    components decide unless they are equal. *)
Definition lex {A B : Type} (eqA ltA : A -> A -> bool) (ltB : B -> B -> bool)
  (x y : A * B) : bool :=
  if negb (eqA (fst x) (fst y)) then ltA (fst x) (fst y) else ltB (snd x) (snd y).

Lemma lex_strict_total {A B : Type} (eqA ltA : A -> A -> bool) (ltB : B -> B -> bool) :
  (forall a b, eqA a b = true <-> a = b) ->
  strict_total ltA -> strict_total ltB -> strict_total (lex eqA ltA ltB).
Proof.
  intros Heq [Ia [Ta Oa]] [Ib [Tb Ob]].
  assert (Hrefl : forall a, eqA a a = true) by (intros a; apply Heq; reflexivity).
  assert (Hcase : forall a b, (a = b /\ eqA a b = true) \/ (a <> b /\ eqA a b = false)).
  { intros a b. destruct (eqA a b) eqn:E; [left | right]; split; auto.
    - apply Heq, E.
    - intros H. apply Heq in H. congruence. }
  unfold lex. split; [|split].
  - intros [a b]. cbn [fst snd]. rewrite Hrefl. apply Ib.
  - intros [a b] [a' b'] [a'' b'']. cbn [fst snd].
    destruct (Hcase a a') as [[E1 ->] | [N1 ->]], (Hcase a' a'') as [[E2 ->] | [N2 ->]];
      cbn [negb]; subst.
    + rewrite Hrefl. cbn [negb]. apply Tb.
    + destruct (Hcase a' a'') as [[E _] | [_ ->]]; [contradiction|]. auto.
    + destruct (Hcase a a'') as [[E _] | [_ ->]]; [contradiction|]. auto.
    + intros H1 H2. pose proof (Ta _ _ _ H1 H2) as H3.
      destruct (Hcase a a'') as [[E _] | [_ ->]]; [|exact H3].
      subst a''. rewrite Ia in H3. discriminate.
  - intros [a b] [a' b']. cbn [fst snd].
    destruct (Hcase a a') as [[E ->] | [N ->]]; cbn [negb].
    + subst a'. rewrite Hrefl. cbn [negb].
      destruct (Ob b b') as [H | [H | H]]; auto. subst. auto.
    + destruct (Hcase a' a) as [[E _] | [_ ->]]; [congruence|]. cbn [negb].
      destruct (Oa a a') as [H | [H | H]]; auto.
Qed.

Lemma strict_total_asym {A : Type} (ltb : A -> A -> bool) a b :
  strict_total ltb -> ltb a b = true -> ltb b a = false.
Proof.
  intros [I [T _]] H. destruct (ltb b a) eqn:E; [|reflexivity].
  pose proof (T _ _ _ H E) as H'. rewrite I in H'. discriminate.
Qed.

(** "Not after" is transitive. *)
Lemma strict_total_le_trans {A : Type} (ltb : A -> A -> bool) a b c :
  strict_total ltb -> ltb b a = false -> ltb c b = false -> ltb c a = false.
Proof.
  intros S H1 H2. pose proof S as [I [T O]].
  destruct (O a b) as [Hab | [Hab | Hab]]; [| subst; exact H2 | congruence].
  destruct (O b c) as [Hbc | [Hbc | Hbc]]; [| subst; exact H1 | congruence].
  apply strict_total_asym; [exact S|]. apply (T _ _ _ Hab Hbc).
Qed.

Lemma Z_strict_total : strict_total Z.ltb.
Proof.
  split; [|split].
  - apply Z.ltb_irrefl.
  - intros a b c H1 H2. apply Z.ltb_lt in H1, H2. apply Z.ltb_lt. lia.
  - intros a b. rewrite !Z.ltb_lt. lia.
Qed.

Lemma string_strict_total : strict_total String.ltb.
Proof.
  assert (Hlt : forall a b, String.ltb a b = true <-> OrderedTypeEx.String_as_OT.lt a b).
  { intros a b. rewrite <- OrderedTypeEx.String_as_OT.cmp_lt.
    unfold String.ltb, OrderedTypeEx.String_as_OT.cmp.
    destruct (String.compare a b); split; congruence. }
  split; [|split].
  - intros a. destruct (String.ltb a a) eqn:E; [|reflexivity].
    apply Hlt in E. destruct (OrderedTypeEx.String_as_OT.lt_not_eq _ _ E). reflexivity.
  - intros a b c H1 H2. apply Hlt in H1, H2. apply Hlt.
    apply (OrderedTypeEx.String_as_OT.lt_trans _ _ _ H1 H2).
  - intros a b. unfold String.ltb.
    destruct (String.compare a b) eqn:E.
    + right. left. apply String.compare_eq_iff, E.
    + auto.
    + right. right. rewrite String.compare_antisym, E. reflexivity.
Qed.

End Lexicographic.

(** The three weights that open the key of a record. *)
Definition weights (m : merged) : Z * Z * Z :=
  (dict_get (tier m) 1 TIER_WEIGHT,
   dict_get (severity m) 1 SEVERITY_RANK,
   dict_get (confidence m) 1 CONFIDENCE_RANK).

(** The multipliers that go with a rank of [SEVERITY_RANK] and of
    [CONFIDENCE_RANK]. *)
Definition severity_multiplier_of (r : Z) : float :=
  if r =? 3 then 1.0%float else if r =? 2 then 0.6%float else 0.3%float.
Definition confidence_multiplier_of (r : Z) : float :=
  if r =? 3 then 1.0%float else if r =? 2 then 0.75%float else 0.5%float.

Definition penalty_of (w : Z * Z * Z) : float :=
  let '(t, s, c) := w in
  (Py.float_of_int t * severity_multiplier_of s * confidence_multiplier_of c)%float.

Ltac table_cases :=
  unfold dict_get, TIER_WEIGHT, SEVERITY_RANK, CONFIDENCE_RANK, SEVERITY_MULTIPLIER,
    CONFIDENCE_MULTIPLIER, TIER_RANK;
  cbn [dict_find];
  repeat match goal with
         | |- context [String.eqb ?a ?b] => destruct (String.eqb a b)
         end.

(** The penalty is a function of the three weights. *)
Lemma penalty_weights m : penalty m = penalty_of (weights m).
Proof.
  unfold penalty, penalty_of, weights. f_equal; [f_equal|].
  - table_cases; reflexivity.
  - table_cases; reflexivity.
Qed.

Lemma penalty_eqb_refl m : (- penalty m =? - penalty m)%float = true.
Proof. unfold penalty. table_cases; reflexivity. Qed.

(** The key without the penalty. *)
Definition key5 (m : merged) : Z * (Z * (Z * (string * Z))) :=
  let '(k1, k2, k3, _, k5, k6) := priority_sort_key m in (k1, (k2, (k3, (k5, k6)))).

Definition lt5 : Z * (Z * (Z * (string * Z))) -> Z * (Z * (Z * (string * Z))) -> bool :=
  lex Z.eqb Z.ltb (lex Z.eqb Z.ltb (lex Z.eqb Z.ltb (lex String.eqb String.ltb Z.ltb))).

Lemma lt5_strict_total : strict_total lt5.
Proof.
  unfold lt5.
  repeat (apply lex_strict_total;
          [first [exact Z.eqb_eq | exact String.eqb_eq] | first [exact Z_strict_total | exact string_strict_total] |]).
  exact Z_strict_total.
Qed.

(** The penalty never decides between two keys: when the three weights
    are the same, so is the penalty. *)
Lemma key_lt_lex a b :
  key_lt (priority_sort_key a) (priority_sort_key b) = lt5 (key5 a) (key5 b).
Proof.
  unfold key5, lt5, lex, key_lt, priority_sort_key. cbn [fst snd].
  destruct (Z.eqb_spec (- dict_get (tier a) 1 TIER_WEIGHT)
              (- dict_get (tier b) 1 TIER_WEIGHT)) as [E1 | _]; [|reflexivity].
  destruct (Z.eqb_spec (- dict_get (severity a) 1 SEVERITY_RANK)
              (- dict_get (severity b) 1 SEVERITY_RANK)) as [E2 | _]; [|reflexivity].
  destruct (Z.eqb_spec (- dict_get (confidence a) 1 CONFIDENCE_RANK)
              (- dict_get (confidence b) 1 CONFIDENCE_RANK)) as [E3 | _]; [|reflexivity].
  cbn [negb].
  assert (Hp : penalty a = penalty b).
  { rewrite !penalty_weights. unfold weights. f_equal. f_equal; [f_equal|]; lia. }
  rewrite Hp, penalty_eqb_refl. reflexivity.
Qed.

(** A record may stand before another one: its key is not the larger. *)
Definition not_after (a b : merged) : Prop :=
  key_lt (priority_sort_key b) (priority_sort_key a) = false.

Lemma not_after_trans a b c : not_after a b -> not_after b c -> not_after a c.
Proof.
  unfold not_after. rewrite !key_lt_lex.
  apply strict_total_le_trans, lt5_strict_total.
Qed.

Lemma before_not_after a b :
  key_lt (priority_sort_key a) (priority_sort_key b) = true -> not_after a b.
Proof.
  unfold not_after. rewrite !key_lt_lex.
  apply strict_total_asym, lt5_strict_total.
Qed.

Lemma insert_by_key_perm x l : Permutation (x :: l) (insert_by_key x l).
Proof.
  induction l as [|y l IH]; cbn [insert_by_key]; [reflexivity|].
  destruct (key_lt _ _); [|reflexivity].
  rewrite perm_swap. apply perm_skip, IH.
Qed.

Lemma sort_by_priority_perm l : Permutation l (sort_by_priority l).
Proof.
  induction l as [|x l IH]; cbn [sort_by_priority fold_right]; [reflexivity|].
  rewrite <- insert_by_key_perm. apply perm_skip, IH.
Qed.

Lemma insert_by_key_sorted x l :
  StronglySorted not_after l -> StronglySorted not_after (insert_by_key x l).
Proof.
  induction l as [|y l IH]; intros S; cbn [insert_by_key].
  - repeat constructor.
  - apply StronglySorted_inv in S. destruct S as [S Hy].
    destruct (key_lt (priority_sort_key y) (priority_sort_key x)) eqn:E.
    + constructor; [apply IH, S|].
      rewrite <- insert_by_key_perm. constructor; [|exact Hy].
      apply before_not_after, E.
    + constructor; [constructor; assumption|].
      constructor; [exact E|].
      rewrite Forall_forall in Hy |- *. intros z Hz.
      apply (not_after_trans x y z); [exact E | apply Hy, Hz].
Qed.

Lemma sort_by_priority_sorted l : StronglySorted not_after (sort_by_priority l).
Proof.
  induction l as [|x l IH]; cbn [sort_by_priority fold_right]; [constructor|].
  apply insert_by_key_sorted, IH.
Qed.

(** Two records have the same key: neither comes before the other. *)
Definition same_key (a b : merged) : bool :=
  negb (key_lt (priority_sort_key a) (priority_sort_key b))
  && negb (key_lt (priority_sort_key b) (priority_sort_key a)).

Lemma same_key_key5 a b : same_key a b = true -> key5 a = key5 b.
Proof.
  unfold same_key. rewrite !key_lt_lex. intros H. apply andb_prop in H.
  destruct H as [H1 H2]. apply negb_true_iff in H1, H2.
  destruct lt5_strict_total as [_ [_ O]].
  destruct (O (key5 a) (key5 b)) as [H | [H | H]]; congruence.
Qed.

Lemma insert_by_key_stable z x l :
  filter (same_key z) (insert_by_key x l) = filter (same_key z) (x :: l).
Proof.
  induction l as [|y l IH]; cbn [insert_by_key]; [reflexivity|].
  destruct (key_lt (priority_sort_key y) (priority_sort_key x)) eqn:E; [|reflexivity].
  cbn [filter] in IH |- *. rewrite IH.
  destruct (same_key z y) eqn:Hy, (same_key z x) eqn:Hx; try reflexivity.
  exfalso. apply same_key_key5 in Hy, Hx. rewrite key_lt_lex, <- Hy, <- Hx in E.
  destruct lt5_strict_total as [I _]. rewrite I in E. discriminate.
Qed.

(** The order of the key puts the heavier record first. *)
Lemma not_after_weights a b :
  not_after a b ->
  let '(ta, sa, ca) := weights a in
  let '(tb, sb, cb) := weights b in
  tb < ta \/ (tb = ta /\ (sb < sa \/ (sb = sa /\ cb <= ca))).
Proof.
  unfold not_after. rewrite key_lt_lex.
  unfold lt5, key5, weights, lex, priority_sort_key. cbn [fst snd].
  destruct (Z.eqb_spec (- dict_get (tier b) 1 TIER_WEIGHT)
              (- dict_get (tier a) 1 TIER_WEIGHT)) as [E1 | N1]; cbn [negb];
    [|intros H; apply Z.ltb_ge in H; lia].
  destruct (Z.eqb_spec (- dict_get (severity b) 1 SEVERITY_RANK)
              (- dict_get (severity a) 1 SEVERITY_RANK)) as [E2 | N2]; cbn [negb];
    [|intros H; apply Z.ltb_ge in H; lia].
  destruct (Z.eqb_spec (- dict_get (confidence b) 1 CONFIDENCE_RANK)
              (- dict_get (confidence a) 1 CONFIDENCE_RANK)) as [E3 | N3]; cbn [negb];
    [|intros H; apply Z.ltb_ge in H; lia].
  intros _. lia.
Qed.

(** X8. The sort of the merged records is a stable sort by
    [priority_sort_key]: its result holds the same records, no record is
    followed by one whose key is smaller, and records of equal keys keep
    the order they had. The penalty, the fourth component of the key,
    never decides: two records with the same tier weight, severity rank
    and confidence rank have the same penalty, so that comparing two keys
    is comparing them without the penalty. In the result the tier
    weights never increase, among equal tier weights the severity ranks
    never increase, and among equal severity ranks the confidence ranks
    never increase. *)
Theorem sort_by_priority_stable_sort (l : list merged) :
  Permutation l (sort_by_priority l)
  /\ StronglySorted
       (fun a b => key_lt (priority_sort_key b) (priority_sort_key a) = false)
       (sort_by_priority l)
  /\ (forall z, filter (same_key z) (sort_by_priority l) = filter (same_key z) l)
  /\ (forall a b : merged,
        dict_get (tier a) 1 TIER_WEIGHT = dict_get (tier b) 1 TIER_WEIGHT ->
        dict_get (severity a) 1 SEVERITY_RANK = dict_get (severity b) 1 SEVERITY_RANK ->
        dict_get (confidence a) 1 CONFIDENCE_RANK
        = dict_get (confidence b) 1 CONFIDENCE_RANK ->
        penalty a = penalty b)
  /\ (forall a b : merged,
        let '(a1, a2, a3, _, a5, a6) := priority_sort_key a in
        let '(b1, b2, b3, _, b5, b6) := priority_sort_key b in
        key_lt (priority_sort_key a) (priority_sort_key b)
        = (if negb (a1 =? b1) then a1 <? b1 else
           if negb (a2 =? b2) then a2 <? b2 else
           if negb (a3 =? b3) then a3 <? b3 else
           if negb (String.eqb a5 b5) then String.ltb a5 b5 else a6 <? b6))
  /\ StronglySorted
       (fun a b =>
          let ta := dict_get (tier a) 1 TIER_WEIGHT in
          let tb := dict_get (tier b) 1 TIER_WEIGHT in
          let sa := dict_get (severity a) 1 SEVERITY_RANK in
          let sb := dict_get (severity b) 1 SEVERITY_RANK in
          let ca := dict_get (confidence a) 1 CONFIDENCE_RANK in
          let cb := dict_get (confidence b) 1 CONFIDENCE_RANK in
          tb < ta \/ (tb = ta /\ (sb < sa \/ (sb = sa /\ cb <= ca))))
       (sort_by_priority l).
Proof.
  split; [apply sort_by_priority_perm|]. split; [apply sort_by_priority_sorted|].
  split.
  { intros z. induction l as [|x l IH]; cbn [sort_by_priority fold_right]; [reflexivity|].
    fold (sort_by_priority l). rewrite insert_by_key_stable. cbn [filter].
    rewrite IH. reflexivity. }
  split.
  { intros a b Et Es Ec. rewrite !penalty_weights. unfold weights.
    rewrite Et, Es, Ec. reflexivity. }
  split.
  { intros a b. rewrite key_lt_lex. reflexivity. }
  pose proof (sort_by_priority_sorted l) as S.
  induction S as [|x xs S IH Hx]; constructor; [exact IH|].
  rewrite Forall_forall in Hx |- *. intros y Hy.
  apply (not_after_weights x y (Hx y Hy)).
Qed.

(** ** Display ids *)

(** The number that a display id shows. *)
Definition id_number (s : string) : option nat :=
  match s with
  | String "F" d => option_map Nat.of_uint (NilZero.uint_of_string d)
  | _ => None
  end.

Lemma uint_of_string_zero d u :
  NilZero.uint_of_string d = Some u ->
  NilZero.uint_of_string (String "0" d) = Some (Decimal.D0 u).
Proof.
  destruct d as [|a d]; [discriminate|].
  unfold NilZero.uint_of_string. intros H.
  change (NilEmpty.uint_of_string (String "0" (String a d)))
    with (uint_of_char "0" (NilEmpty.uint_of_string (String a d))).
  rewrite H. reflexivity.
Qed.

Lemma uint_of_string_to_uint n :
  exists u, NilZero.uint_of_string (NilZero.string_of_uint (Nat.to_uint n)) = Some u
            /\ Nat.of_uint u = n.
Proof.
  pose proof (DecimalNat.Unsigned.of_to n) as Hn.
  destruct (Nat.to_uint n) as [|d|d|d|d|d|d|d|d|d|d] eqn:E;
    [exists Decimal.zero; split; [reflexivity | rewrite <- Hn; reflexivity]|..];
    (eexists; split; [apply NilZero.usu; discriminate | exact Hn]).
Qed.

(** The number of a display id is read back from it. *)
Lemma id_number_pad3 n : id_number ("F" ++ Str.pad3 n) = Some n.
Proof.
  destruct (uint_of_string_to_uint n) as [u [Hu Hn]].
  unfold Str.pad3.
  destruct (String.length (NilZero.string_of_uint (Nat.to_uint n))) as [|[|[|k]]];
    cbn [append id_number].
  - rewrite Hu. cbn [option_map]. rewrite Hn. reflexivity.
  - rewrite (uint_of_string_zero _ _ (uint_of_string_zero _ _ Hu)).
    cbn [option_map]. rewrite <- Hn. reflexivity.
  - rewrite (uint_of_string_zero _ _ Hu). cbn [option_map]. rewrite <- Hn. reflexivity.
  - rewrite Hu. cbn [option_map]. rewrite Hn. reflexivity.
Qed.

Lemma NoDup_map_decode {A B : Type} (f : A -> B) (dec : B -> option A) l :
  (forall a, dec (f a) = Some a) -> NoDup l -> NoDup (map f l).
Proof.
  intros Hd. induction 1 as [|a l Hn Hl IH]; cbn [map]; constructor; [|exact IH].
  intros Hin. apply in_map_iff in Hin. destruct Hin as [a' [E Ha']].
  apply (f_equal dec) in E. rewrite !Hd in E. inversion E. subst a'. contradiction.
Qed.

Lemma assign_ids_ids l : forall n,
  map id (assign_ids n l) = map (fun i => "F" ++ Str.pad3 i) (seq n (List.length l)).
Proof.
  induction l as [|r l IH]; intros n; cbn [assign_ids List.length seq map]; [reflexivity|].
  rewrite IH. reflexivity.
Qed.

Lemma assign_ids_In l : forall n m,
  In m (assign_ids n l) -> exists m0 i, In m0 l /\ m = set_id i m0.
Proof.
  induction l as [|r l IH]; intros n m; cbn [assign_ids]; [intros []|].
  intros [E | H].
  - exists r, ("F" ++ Str.pad3 n). split; [left; reflexivity | symmetry; exact E].
  - destruct (IH _ _ H) as [m0 [i [Hin E]]]. exists m0, i. split; [right; exact Hin | exact E].
Qed.

Lemma assign_ids_sorted l : forall n,
  StronglySorted not_after l -> StronglySorted not_after (assign_ids n l).
Proof.
  induction l as [|r l IH]; intros n S; cbn [assign_ids]; [constructor|].
  apply StronglySorted_inv in S. destruct S as [S Hr].
  constructor; [apply IH, S|].
  rewrite Forall_forall in Hr |- *. intros m Hm.
  destruct (assign_ids_In _ _ _ Hm) as [m0 [i [Hin ->]]].
  apply (Hr m0 Hin).
Qed.

(** X9. The findings of a report are in priority order and carry the
    display ids F001, F002, ... in that order, whatever ids the input
    records had: the number of an id is the place of its record, ids of
    more than three digits are not cut, and no two findings share an id. *)
Theorem report_display_ids (loaded : list finding) :
  let r := build_report loaded in
  map id (findings r) = map (fun i => "F" ++ Str.pad3 i) (seq 1 (total_findings r))
  /\ map id_number (map id (findings r)) = map Some (seq 1 (total_findings r))
  /\ NoDup (map id (findings r))
  /\ StronglySorted
       (fun a b => key_lt (priority_sort_key b) (priority_sort_key a) = false)
       (findings r).
Proof.
  intros r. subst r. unfold build_report. cbn [findings total_findings].
  unfold merged_of. rewrite assign_ids_ids, assign_ids_length.
  split; [reflexivity|]. split.
  { rewrite map_map. apply map_ext. intros i. apply id_number_pad3. }
  split.
  { apply (NoDup_map_decode _ id_number); [apply id_number_pad3 | apply seq_NoDup]. }
  apply assign_ids_sorted, sort_by_priority_sorted.
Qed.

(** ** The order of the input *)

(** The weight class of a value: its rank, an unrecognized value
    counting as the least recognized one. *)
Definition class_of (f : rank_field) (v : string) : Z := Z.max 1 (rank f v).

Definition tier_weight_of (z : Z) : Z :=
  if z =? 4 then 20 else if z =? 3 then 10 else if z =? 2 then 4 else 1.

Lemma weights_class m :
  weights m = (tier_weight_of (class_of FTier (tier m)),
               class_of FSeverity (severity m),
               class_of FConfidence (confidence m)).
Proof.
  unfold weights, class_of, rank. cbn [field_rank].
  f_equal; [f_equal|]; table_cases; reflexivity.
Qed.

Lemma clean_get_field m f : clean m -> stripped (get_field f m).
Proof. intros [Ht [Hs [Hc _]]]. destruct f; assumption. Qed.

Lemma rank_incoming e c f :
  clean e ->
  rank f (incoming e c f)
  = match dict_find (field_name f) c with
    | Some _ => observed_rank f c
    | None => rank f (get_field f e)
    end.
Proof.
  intros H. unfold incoming, observed_rank, str_field, dict_get.
  destruct (dict_find (field_name f) c); [reflexivity|].
  cbn [py_str]. rewrite (clean_get_field e f H). reflexivity.
Qed.

Lemma class_merge_record e c f :
  clean e ->
  class_of f (get_field f (merge_record e c))
  = Z.max (class_of f (get_field f e)) (observed_rank f c).
Proof.
  intros H. unfold class_of. rewrite merge_record_rank, (rank_incoming e c f H).
  pose proof (rank_nonneg f (get_field f e)).
  unfold observed_rank. destruct (dict_find (field_name f) c); lia.
Qed.

Lemma class_initial r f :
  class_of f (get_field f (initial_record r)) = Z.max 1 (observed_rank f r).
Proof.
  unfold class_of, observed_rank.
  destruct f; cbn [get_field initial_record tier severity confidence field_name];
    unfold str_field, dict_get;
    match goal with |- context [dict_find ?k r] => destruct (dict_find k r) end;
    reflexivity.
Qed.

Lemma class_fold f later : forall m,
  clean m ->
  class_of f (get_field f (fold_left merge_record later m))
  = fold_left Z.max (map (observed_rank f) later) (class_of f (get_field f m)).
Proof.
  induction later as [|c later IH]; intros m H; cbn [fold_left map]; [reflexivity|].
  rewrite IH by (apply clean_merge_record, H).
  rewrite class_merge_record by exact H. reflexivity.
Qed.

(** The largest rank that the records of a bucket bring, 1 at least. *)
Definition top_rank (f : rank_field) (c : list finding) : Z :=
  fold_left Z.max (map (observed_rank f) c) 1.

Lemma class_merge_all c m f :
  merge_all c = Some m -> class_of f (get_field f m) = top_rank f c.
Proof.
  destruct c as [|first later]; cbn [merge_all]; [discriminate|].
  intros E. inversion E. subst m.
  rewrite class_fold by apply clean_initial. rewrite class_initial.
  reflexivity.
Qed.

Lemma fold_max_perm a b :
  Permutation a b -> forall z, fold_left Z.max a z = fold_left Z.max b z.
Proof.
  induction 1 as [|x a b _ IH|x y a|a b c _ IH1 _ IH2]; intros z; cbn [fold_left].
  - reflexivity.
  - apply IH.
  - f_equal. lia.
  - rewrite IH1. apply IH2.
Qed.

Lemma filter_perm {A : Type} (p : A -> bool) a b :
  Permutation a b -> Permutation (filter p a) (filter p b).
Proof.
  induction 1 as [|x a b _ IH|x y a|a b c _ IH1 _ IH2]; cbn [filter].
  - constructor.
  - destruct (p x); [apply perm_skip|]; exact IH.
  - destruct (p x), (p y); try reflexivity. apply perm_swap.
  - apply (perm_trans IH1 IH2).
Qed.

Lemma top_rank_perm f k l l' :
  Permutation l l' -> top_rank f (contributors k l) = top_rank f (contributors k l').
Proof.
  intros H. unfold top_rank. apply fold_max_perm, Permutation_map, filter_perm, H.
Qed.

(** The weights of a bucket are those of the largest ranks brought. *)
Lemma weights_merge_all c m :
  merge_all c = Some m ->
  weights m = (tier_weight_of (top_rank FTier c), top_rank FSeverity c,
               top_rank FConfidence c).
Proof.
  intros H. rewrite weights_class.
  rewrite <- (class_merge_all c m FTier H), <- (class_merge_all c m FSeverity H),
    <- (class_merge_all c m FConfidence H). reflexivity.
Qed.

Lemma rank_inj f v v' :
  recognized f v -> recognized f v' -> rank f v = rank f v' -> v = v'.
Proof.
  unfold recognized, rank, dict_get.
  destruct f; cbn [field_rank TIER_RANK SEVERITY_RANK CONFIDENCE_RANK dict_find];
    repeat match goal with
           | |- context [String.eqb ?a ?b] => destruct (String.eqb_spec a b)
           end;
    intros H H' E; subst; try reflexivity; try discriminate; contradiction.
Qed.

(** When every value brought for a field is recognized, so is the one
    kept. *)
Lemma recognized_fold f later : forall m,
  clean m -> recognized f (get_field f m) ->
  (forall r v, In r later -> dict_find (field_name f) r = Some v ->
               recognized f (Str.strip (py_str v))) ->
  recognized f (get_field f (fold_left merge_record later m)).
Proof.
  induction later as [|c later IH]; intros m Hc Hm Hall; cbn [fold_left]; [exact Hm|].
  apply IH.
  - apply clean_merge_record, Hc.
  - rewrite get_field_merge_record. unfold kept.
    destruct (stronger_cases (get_field f m) (incoming m c f) (field_rank f)) as [-> | ->];
      [exact Hm|].
    unfold incoming, str_field, dict_get.
    destruct (dict_find (field_name f) c) as [v|] eqn:E.
    + apply (Hall c v); [left; reflexivity | exact E].
    + cbn [py_str]. rewrite (clean_get_field m f Hc). exact Hm.
  - intros r v Hr. apply Hall. right. exact Hr.
Qed.

Lemma recognized_merge_all f c m :
  merge_all c = Some m ->
  (forall r v, In r c -> dict_find (field_name f) r = Some v ->
               recognized f (Str.strip (py_str v))) ->
  recognized f (get_field f m).
Proof.
  destruct c as [|first later]; cbn [merge_all]; [discriminate|].
  intros E Hall. inversion E. subst m.
  apply recognized_fold; [apply clean_initial | | intros r v Hr; apply Hall; right; exact Hr].
  specialize (Hall first).
  destruct f; cbn [get_field initial_record tier severity confidence field_name] in *;
    unfold str_field, dict_get;
    match goal with |- context [dict_find ?k first] => destruct (dict_find k first) eqn:E' end;
    try (apply (Hall _ (or_introl Logic.eq_refl) Logic.eq_refl)); discriminate.
Qed.

(** X10. The order in which the records are read does not change what a
    bucket weighs: for two orders of the same records, the merged
    records of a fingerprint have the same tier weight, severity rank
    and confidence rank, hence the same penalty, their tier, severity
    and confidence have the same rank up to unrecognized values (which
    weigh as the least recognized one), and each of these fields is the
    same text when all the values that the records of the fingerprint
    bring for it are recognized. *)
Theorem bucket_weights_order (l l' : list finding) (k : string) (m m' : merged) :
  Permutation l l' ->
  dict_find k (fold_records l) = Some m ->
  dict_find k (fold_records l') = Some m' ->
  weights m = weights m'
  /\ penalty m = penalty m'
  /\ (forall f, Z.max 1 (rank f (get_field f m)) = Z.max 1 (rank f (get_field f m')))
  /\ (forall f,
        (forall r v, In r l -> normalized_fingerprint r = k ->
                     dict_find (field_name f) r = Some v ->
                     dict_find (Str.strip (py_str v)) (field_rank f) <> None) ->
        get_field f m = get_field f m').
Proof.
  intros P H H'. rewrite find_fold_records in H, H'.
  assert (Hc : forall f, class_of f (get_field f m) = class_of f (get_field f m')).
  { intros f. rewrite (class_merge_all _ _ f H), (class_merge_all _ _ f H').
    apply top_rank_perm, P. }
  assert (Hw : weights m = weights m').
  { rewrite !weights_class, !Hc. reflexivity. }
  split; [exact Hw|]. split; [rewrite !penalty_weights, Hw; reflexivity|].
  split; [exact Hc|].
  intros f Hall.
  assert (R : recognized f (get_field f m)).
  { apply (recognized_merge_all f _ m H). intros r v Hr.
    apply contributors_In in Hr. destruct Hr as [Hr Hk]. apply (Hall r v Hr Hk). }
  assert (R' : recognized f (get_field f m')).
  { apply (recognized_merge_all f _ m' H'). intros r v Hr.
    apply contributors_In in Hr. destruct Hr as [Hr Hk].
    apply (Hall r v); [|exact Hk]. apply (Permutation_in _ (Permutation_sym P) Hr). }
  apply (rank_inj f _ _ R R').
  pose proof (rank_recognized f _ R). pose proof (rank_recognized f _ R').
  specialize (Hc f). unfold class_of in Hc. lia.
Qed.

Lemma bucket_weights_order_witness :
  let m := merge_record (initial_record ex_a) ex_b in
  let m' := merge_record (initial_record ex_b) ex_a in
  weights m = weights m'
  /\ penalty m = penalty m'
  /\ (forall f, Z.max 1 (rank f (get_field f m)) = Z.max 1 (rank f (get_field f m')))
  /\ (forall f,
        (forall r v, In r [ex_a; ex_b] ->
                     normalized_fingerprint r = "duplication|a.go|dup block" ->
                     dict_find (field_name f) r = Some v ->
                     dict_find (Str.strip (py_str v)) (field_rank f) <> None) ->
        get_field f m = get_field f m').
Proof.
  apply (bucket_weights_order [ex_a; ex_b] [ex_b; ex_a] "duplication|a.go|dup block").
  - apply perm_swap.
  - reflexivity.
  - reflexivity.
Defined.

(** ** The report and the order of the input *)

Lemma values_by_key {V X : Type} (f : V -> X) (default : X) (d : dict V) :
  NoDup (map fst d) ->
  map (fun e => f (snd e)) d
  = map (fun k => match dict_find k d with Some v => f v | None => default end)
      (map fst d).
Proof.
  induction d as [|[k v] d IH]; intros N; cbn [map fst snd]; [reflexivity|].
  inversion N as [|? ? Hk Hd]. subst. cbn [dict_find]. rewrite String.eqb_refl. f_equal.
  rewrite (IH Hd). apply map_ext_in. intros k' Hk'.
  destruct (String.eqb_spec k' k) as [E | _]; [subst; contradiction | reflexivity].
Qed.

Lemma fold_records_NoDup l : NoDup (map fst (fold_records l)).
Proof. rewrite keys_fold_records. apply add_keys_NoDup. constructor. Qed.

Lemma fold_records_keys l k :
  In k (map fst (fold_records l)) <-> In k (map normalized_fingerprint l).
Proof. rewrite keys_fold_records, add_keys_In. cbn. tauto. Qed.

Lemma fold_records_keys_perm l l' :
  Permutation l l' -> Permutation (map fst (fold_records l)) (map fst (fold_records l')).
Proof.
  intros P. apply NoDup_Permutation; try apply fold_records_NoDup.
  intros k. rewrite !fold_records_keys. split; apply Permutation_in.
  - apply Permutation_map, P.
  - apply Permutation_map, Permutation_sym, P.
Qed.

(** The weights of the buckets are the same, up to their order. *)
Lemma bucket_weights_perm l l' :
  Permutation l l' ->
  Permutation (map weights (map snd (fold_records l)))
    (map weights (map snd (fold_records l'))).
Proof.
  intros P. rewrite !map_map.
  rewrite (values_by_key weights (0, 0, 0) _ (fold_records_NoDup l)).
  rewrite (values_by_key weights (0, 0, 0) _ (fold_records_NoDup l')).
  eapply perm_trans; [apply Permutation_map, (fold_records_keys_perm l l' P)|].
  apply Permutation_refl'. apply map_ext. intros k.
  rewrite !find_fold_records.
  destruct (merge_all (contributors k l)) as [m|] eqn:E,
           (merge_all (contributors k l')) as [m'|] eqn:E'.
  - rewrite (weights_merge_all _ _ E), (weights_merge_all _ _ E').
    rewrite !(top_rank_perm _ k l l' P). reflexivity.
  - exfalso. destruct (contributors k l') eqn:C'; [|discriminate].
    pose proof (filter_perm (fun r => String.eqb (normalized_fingerprint r) k) _ _ P) as Q.
    fold (contributors k l) (contributors k l') in Q. rewrite C' in Q.
    apply Permutation_sym, Permutation_nil in Q. rewrite Q in E. discriminate.
  - exfalso. destruct (contributors k l) eqn:C; [|discriminate].
    pose proof (filter_perm (fun r => String.eqb (normalized_fingerprint r) k) _ _ P) as Q.
    fold (contributors k l) (contributors k l') in Q. rewrite C in Q.
    apply Permutation_nil in Q. rewrite Q in E'. discriminate.
  - reflexivity.
Qed.

(** Two sorted lists with the same elements are the same list. *)
Lemma sorted_perm_unique {A : Type} (ltb : A -> A -> bool) :
  strict_total ltb ->
  forall l l',
    StronglySorted (fun a b => ltb b a = false) l ->
    StronglySorted (fun a b => ltb b a = false) l' ->
    Permutation l l' -> l = l'.
Proof.
  intros S. pose proof S as [I [_ O]].
  induction l as [|x l IH]; intros l' Sl Sl' P.
  - apply Permutation_nil in P. symmetry. exact P.
  - destruct l' as [|y l']; [apply Permutation_sym, Permutation_nil in P; discriminate|].
    apply StronglySorted_inv in Sl, Sl'. destruct Sl as [Sl Hx], Sl' as [Sl' Hy].
    rewrite Forall_forall in Hx, Hy.
    assert (E : x = y).
    { assert (Hyx : ltb y x = false).
      { assert (Hin : In y (x :: l)) by (apply (Permutation_in _ (Permutation_sym P)); left; reflexivity).
        destruct Hin as [<- | Hin]; [apply I | apply Hx, Hin]. }
      assert (Hxy : ltb x y = false).
      { assert (Hin : In x (y :: l')) by (apply (Permutation_in _ P); left; reflexivity).
        destruct Hin as [<- | Hin]; [apply I | apply Hy, Hin]. }
      destruct (O x y) as [H | [H | H]]; congruence. }
    subst y. f_equal. apply IH; [exact Sl | exact Sl' |].
    apply (Permutation_cons_inv P).
Qed.

Lemma StronglySorted_map {A B : Type} (R : A -> A -> Prop) (R' : B -> B -> Prop)
  (f : A -> B) l :
  (forall a b, R a b -> R' (f a) (f b)) ->
  StronglySorted R l -> StronglySorted R' (map f l).
Proof.
  intros H. induction 1 as [|a l S IH Ha]; cbn [map]; constructor; [exact IH|].
  rewrite Forall_forall in Ha |- *. intros b Hb. apply in_map_iff in Hb.
  destruct Hb as [b0 [<- Hb0]]. apply H, Ha, Hb0.
Qed.

(** The first three components of the key. *)
Definition key3 (w : Z * Z * Z) : Z * (Z * Z) :=
  let '(t, s, c) := w in (- t, (- s, - c)).

Definition weights_of_key3 (k : Z * (Z * Z)) : Z * Z * Z :=
  let '(t, (s, c)) := k in (- t, - s, - c).

Definition lt3 : Z * (Z * Z) -> Z * (Z * Z) -> bool :=
  lex Z.eqb Z.ltb (lex Z.eqb Z.ltb Z.ltb).

Lemma lt3_strict_total : strict_total lt3.
Proof.
  unfold lt3.
  repeat (apply lex_strict_total; [exact Z.eqb_eq | exact Z_strict_total |]).
  exact Z_strict_total.
Qed.

Lemma weights_of_key3_key3 w : weights_of_key3 (key3 w) = w.
Proof. destruct w as [[t s] c]. cbn. rewrite !Z.opp_involutive. reflexivity. Qed.

Lemma not_after_key3 a b :
  not_after a b -> lt3 (key3 (weights b)) (key3 (weights a)) = false.
Proof.
  unfold not_after. rewrite key_lt_lex.
  unfold lt5, lt3, key5, key3, weights, lex, priority_sort_key. cbn [fst snd].
  destruct (Z.eqb_spec (- dict_get (tier b) 1 TIER_WEIGHT)
              (- dict_get (tier a) 1 TIER_WEIGHT)); cbn [negb]; [|auto].
  destruct (Z.eqb_spec (- dict_get (severity b) 1 SEVERITY_RANK)
              (- dict_get (severity a) 1 SEVERITY_RANK)); cbn [negb]; [|auto].
  destruct (Z.eqb_spec (- dict_get (confidence b) 1 CONFIDENCE_RANK)
              (- dict_get (confidence a) 1 CONFIDENCE_RANK)) as [E | _]; cbn [negb]; [|auto].
  intros _. rewrite E. apply Z.ltb_irrefl.
Qed.

Lemma weights_assign_ids l : forall n, map weights (assign_ids n l) = map weights l.
Proof.
  induction l as [|r l IH]; intros n; cbn [assign_ids map]; [reflexivity|].
  rewrite IH. reflexivity.
Qed.

Lemma map_penalty_weights l : map penalty l = map penalty_of (map weights l).
Proof. rewrite map_map. apply map_ext, penalty_weights. Qed.

(** The weights of the findings of a report, in their order. *)
Lemma merged_of_weights_perm l l' :
  Permutation l l' -> map weights (merged_of l) = map weights (merged_of l').
Proof.
  intros P. unfold merged_of. rewrite !weights_assign_ids.
  set (B := map snd (fold_records l)). set (B' := map snd (fold_records l')).
  assert (H : map key3 (map weights (sort_by_priority B))
              = map key3 (map weights (sort_by_priority B'))).
  { apply (sorted_perm_unique lt3 lt3_strict_total).
    - rewrite map_map. apply (StronglySorted_map not_after); [|apply sort_by_priority_sorted].
      intros a b. apply not_after_key3.
    - rewrite map_map. apply (StronglySorted_map not_after); [|apply sort_by_priority_sorted].
      intros a b. apply not_after_key3.
    - apply Permutation_map.
      eapply perm_trans;
        [apply Permutation_map, Permutation_sym, sort_by_priority_perm|].
      eapply perm_trans; [apply (bucket_weights_perm l l' P)|].
      apply Permutation_map, sort_by_priority_perm. }
  apply (f_equal (map weights_of_key3)) in H.
  rewrite !(map_map key3 weights_of_key3) in H.
  rewrite !(map_ext _ (fun w => w) weights_of_key3_key3), !map_id in H. exact H.
Qed.

(** X11. Reading the same records in another order gives a report with
    the same fingerprints and the same number of findings, whose
    findings have, place by place, the same tier weight, severity rank
    and confidence rank and the same penalty: [strict_score] does not
    depend on the order of the input. *)
Theorem report_order_independence (l l' : list finding) :
  Permutation l l' ->
  let r := build_report l in
  let r' := build_report l' in
  (forall k, In k (map fst (fold_records l)) <-> In k (map fst (fold_records l')))
  /\ total_findings r = total_findings r'
  /\ map weights (findings r) = map weights (findings r')
  /\ map penalty (findings r) = map penalty (findings r')
  /\ strict_score (report_scores r) = strict_score (report_scores r').
Proof.
  intros P r r'. subst r r'. unfold build_report.
  cbn [total_findings findings report_scores].
  pose proof (merged_of_weights_perm l l' P) as Hw.
  assert (Hp : map penalty (merged_of l) = map penalty (merged_of l')).
  { rewrite !map_penalty_weights, Hw. reflexivity. }
  split.
  { intros k. rewrite !fold_records_keys. split; apply Permutation_in.
    - apply Permutation_map, P.
    - apply Permutation_map, Permutation_sym, P. }
  split.
  { rewrite <- (length_map weights (merged_of l)), Hw. apply length_map. }
  split; [exact Hw|]. split; [exact Hp|].
  unfold score. cbn [strict_score]. rewrite Hp. reflexivity.
Qed.

Lemma report_order_independence_witness :
  let r := build_report [ex_a; ex_b; ex_padded] in
  let r' := build_report [ex_padded; ex_b; ex_a] in
  (forall k, In k (map fst (fold_records [ex_a; ex_b; ex_padded]))
             <-> In k (map fst (fold_records [ex_padded; ex_b; ex_a])))
  /\ total_findings r = total_findings r'
  /\ map weights (findings r) = map weights (findings r')
  /\ map penalty (findings r) = map penalty (findings r')
  /\ strict_score (report_scores r) = strict_score (report_scores r').
Proof.
  apply (report_order_independence [ex_a; ex_b; ex_padded] [ex_padded; ex_b; ex_a]).
  apply (Permutation_rev [ex_a; ex_b; ex_padded]).
Defined.

(** ** Normalized summaries *)

(** No two characters of a class stand side by side; [prev] tells that
    the character before the string is of the class. *)
Fixpoint no_adjacent (p : ascii -> bool) (prev : bool) (s : string) : bool :=
  match s with
  | EmptyString => true
  | String c s' =>
      if p c then negb prev && no_adjacent p true s' else no_adjacent p false s'
  end.

Lemma no_adjacent_sub_runs p s :
  p " "%char = true -> forall b, no_adjacent p b (Str.sub_runs p b s) = true.
Proof.
  intros Hsp. induction s as [|c s IH]; intros b; cbn [Str.sub_runs]; [reflexivity|].
  destruct (p c) eqn:Hc.
  - destruct b; [apply IH|]. cbn [no_adjacent]. rewrite Hsp. cbn [negb andb]. apply IH.
  - cbn [no_adjacent]. rewrite Hc. apply IH.
Qed.

Lemma no_adjacent_weaken p s b :
  no_adjacent p b s = true -> no_adjacent p false s = true.
Proof.
  destruct s as [|c s]; cbn [no_adjacent]; [auto|].
  destruct (p c); [|auto]. intros H. apply andb_prop in H. destruct H as [_ H].
  rewrite H. reflexivity.
Qed.

Lemma no_adjacent_lstrip p q s : forall b,
  no_adjacent p b s = true -> no_adjacent p false (Str.lstrip_by q s) = true.
Proof.
  induction s as [|c s IH]; intros b H; cbn [Str.lstrip_by]; [reflexivity|].
  destruct (q c).
  - cbn [no_adjacent] in H. destruct (p c).
    + apply andb_prop in H. destruct H as [_ H]. apply (IH _ H).
    + apply (IH _ H).
  - apply (no_adjacent_weaken _ _ _ H).
Qed.

Lemma no_adjacent_rstrip p q s : forall b,
  no_adjacent p b s = true -> no_adjacent p b (Str.rstrip_by q s) = true.
Proof.
  induction s as [|c s IH]; intros b H; cbn [Str.rstrip_by]; [reflexivity|].
  cbn [no_adjacent] in H.
  destruct (Str.rstrip_by q s) as [|d t] eqn:E.
  - destruct (q c); [reflexivity|]. cbn [no_adjacent].
    destruct (p c); [|reflexivity].
    apply andb_prop in H. destruct H as [H _]. rewrite H. reflexivity.
  - cbn [no_adjacent]. fold (no_adjacent p true (String d t)).
    fold (no_adjacent p false (String d t)).
    destruct (p c).
    + apply andb_prop in H. destruct H as [Hb H]. rewrite Hb. apply (IH _ H).
    + apply (IH _ H).
Qed.

(** A substitution of runs changes nothing in a string whose runs are
    single spaces. *)
Lemma sub_runs_fixed p s :
  all_chars (fun c => implb (p c) (Ascii.eqb c " ")) s = true ->
  forall b, no_adjacent p b s = true -> Str.sub_runs p b s = s.
Proof.
  induction s as [|c s IH]; intros Hall b H; cbn [Str.sub_runs]; [reflexivity|].
  cbn [all_chars] in Hall. apply andb_prop in Hall. destruct Hall as [Hc Hall].
  cbn [no_adjacent] in H. destruct (p c).
  - cbn [implb] in Hc. apply Ascii.eqb_eq in Hc. subst c.
    apply andb_prop in H. destruct H as [Hb H]. apply negb_true_iff in Hb. subst b.
    rewrite (IH Hall _ H). reflexivity.
  - rewrite (IH Hall _ H). reflexivity.
Qed.

Lemma no_adjacent_ext p p' s :
  all_chars (fun c => Bool.eqb (p c) (p' c)) s = true ->
  forall b, no_adjacent p b s = no_adjacent p' b s.
Proof.
  induction s as [|c s IH]; intros Hall b; cbn [no_adjacent]; [reflexivity|].
  cbn [all_chars] in Hall. apply andb_prop in Hall. destruct Hall as [Hc Hall].
  apply Bool.eqb_prop in Hc. rewrite Hc, !(IH Hall). reflexivity.
Qed.

Lemma lower_char_idem c : Str.lower_char (Str.lower_char c) = Str.lower_char c.
Proof.
  destruct c as [b0 b1 b2 b3 b4 b5 b6 b7].
  destruct b0, b1, b2, b3, b4, b5, b6, b7; reflexivity.
Qed.

Lemma lower_idem s : Str.lower (Str.lower s) = Str.lower s.
Proof.
  induction s as [|c s IH]; cbn [Str.lower]; [reflexivity|].
  rewrite lower_char_idem, IH. reflexivity.
Qed.

Lemma normal_char c :
  is_normal c = true ->
  Str.lower_char c = c
  /\ implb (negb (Str.is_lower_alnum c)) (Ascii.eqb c " ") = true
  /\ implb (Str.is_space c) (Ascii.eqb c " ") = true
  /\ Bool.eqb (Str.is_space c) (negb (Str.is_lower_alnum c)) = true
  /\ Bool.eqb (Str.is_space c) (Ascii.eqb c " ") = true.
Proof.
  destruct c as [b0 b1 b2 b3 b4 b5 b6 b7].
  destruct b0, b1, b2, b3, b4, b5, b6, b7; vm_compute; intros H;
    try discriminate H; repeat split.
Qed.

Lemma lower_normal s : all_chars is_normal s = true -> Str.lower s = s.
Proof.
  induction s as [|c s IH]; cbn [all_chars Str.lower]; [reflexivity|].
  intros H. apply andb_prop in H. destruct H as [Hc Hs].
  destruct (normal_char c Hc) as [-> _]. rewrite (IH Hs). reflexivity.
Qed.

Lemma normalize_text_spaced value :
  no_adjacent Str.is_space false (normalize_text value) = true.
Proof.
  unfold normalize_text, Str.strip, Str.strip_by.
  apply no_adjacent_rstrip. apply (no_adjacent_lstrip _ _ _ false).
  apply no_adjacent_sub_runs. reflexivity.
Qed.

(** ** Evidence *)

(** The stripped pieces of an evidence text. *)
Definition evidence_pieces (blob : string) : list string :=
  map Str.strip (Str.split " || " blob).

(** One turn of the loop of [merge_evidence]. *)
Definition evidence_step (parts : list string) (part : string) : list string :=
  if negb (String.eqb part "") && negb (Str.mem part parts)
  then (parts ++ [part])%list else parts.

Lemma merge_evidence_fold old new :
  merge_evidence old new
  = Str.join " || "
      (fold_left evidence_step (evidence_pieces old ++ evidence_pieces new)%list []).
Proof. reflexivity. Qed.

Lemma evidence_step_spec pieces : forall acc,
  NoDup acc -> ~ In "" acc ->
  exists added,
    fold_left evidence_step pieces acc = (acc ++ added)%list
    /\ NoDup (acc ++ added)
    /\ ~ In "" (acc ++ added)
    /\ forall p, In p added <-> (p <> "" /\ In p pieces /\ ~ In p acc).
Proof.
  induction pieces as [|x pieces IH]; intros acc Hn He; cbn [fold_left].
  - exists []. rewrite app_nil_r. split; [reflexivity|]. split; [exact Hn|].
    split; [exact He|]. intros p. split; [intros [] | intros [_ [[] _]]].
  - unfold evidence_step at 2.
    destruct (String.eqb_spec x "") as [Ex | Nx]; cbn [negb andb].
    + destruct (IH acc Hn He) as [added [Hf [Hd [Hem Hin]]]].
      exists added. split; [exact Hf|]. split; [exact Hd|]. split; [exact Hem|].
      intros p. rewrite Hin. cbn [In]. split; [tauto|].
      intros [Np [[E | Hp] Hacc]]; [congruence | tauto].
    + destruct (Str.mem x acc) eqn:M; cbn [negb].
      * apply mem_In in M. destruct (IH acc Hn He) as [added [Hf [Hd [Hem Hin]]]].
        exists added. split; [exact Hf|]. split; [exact Hd|]. split; [exact Hem|].
        intros p. rewrite Hin. cbn [In]. split; [tauto|].
        intros [Np [[E | Hp] Hacc]]; [subst; contradiction | tauto].
      * apply mem_false in M.
        assert (Hn' : NoDup (acc ++ [x])).
        { apply NoDup_app; [exact Hn | repeat constructor; auto|].
          intros y Hy [E | []]. subst. contradiction. }
        assert (He' : ~ In "" (acc ++ [x])).
        { intros H. apply in_app_or in H. destruct H as [H | [H | []]]; auto. }
        destruct (IH (acc ++ [x])%list Hn' He') as [added [Hf [Hd [Hem Hin]]]].
        exists (x :: added). rewrite <- app_assoc in Hf, Hd, Hem. cbn [app] in Hf, Hd, Hem.
        split; [exact Hf|]. split; [exact Hd|]. split; [exact Hem|].
        intros p. cbn [In]. rewrite Hin, in_app_iff. cbn [In]. split.
        -- intros [E | [Np [Hp Hacc]]]; [subst; auto|].
           split; [exact Np|]. split; [right; exact Hp | tauto].
        -- intros [Np [[E | Hp] Hacc]]; [auto|].
           destruct (String.eqb_spec x p) as [E | N]; [auto|].
           right. split; [exact Np|]. split; [exact Hp|]. intros [H | [H | []]]; auto.
Qed.

(** X13. [merge_evidence] joins with [" || "] a list of distinct,
    non-empty, stripped pieces: first the pieces of the old text, each
    once, then the pieces of the new text that the old one does not
    hold. *)
Theorem merge_evidence_parts (old new : string) :
  exists kept added,
    merge_evidence old new = Str.join " || " (kept ++ added)%list
    /\ NoDup (kept ++ added)
    /\ (forall p, In p (kept ++ added) -> p <> "" /\ Str.strip p = p)
    /\ (forall p, In p kept
                  <-> p <> "" /\ In p (map Str.strip (Str.split " || " old)))
    /\ (forall p, In p added
                  <-> p <> "" /\ In p (map Str.strip (Str.split " || " new))
                      /\ ~ In p (map Str.strip (Str.split " || " old))).
Proof.
  rewrite merge_evidence_fold, fold_left_app.
  destruct (evidence_step_spec (evidence_pieces old) [] (NoDup_nil _) (fun H => H))
    as [kept [Hf [Hd [He Hin]]]].
  cbn [app] in Hf, Hd, He. rewrite Hf.
  destruct (evidence_step_spec (evidence_pieces new) kept Hd He)
    as [added [Hf' [Hd' [He' Hin']]]].
  rewrite Hf'. exists kept, added. split; [reflexivity|]. split; [exact Hd'|].
  split; [|split].
  - intros p Hp. split; [intros E; subst; contradiction|].
    apply in_app_or in Hp. destruct Hp as [Hp | Hp].
    + apply Hin in Hp. destruct Hp as [_ [Hp _]]. unfold evidence_pieces in Hp.
      apply in_map_iff in Hp. destruct Hp as [x [<- _]]. apply strip_idem.
    + apply Hin' in Hp. destruct Hp as [_ [Hp _]]. unfold evidence_pieces in Hp.
      apply in_map_iff in Hp. destruct Hp as [x [<- _]]. apply strip_idem.
  - intros p. rewrite Hin. cbn [In]. unfold evidence_pieces. tauto.
  - intros p. rewrite Hin', Hin. cbn [In]. unfold evidence_pieces. split.
    + intros [Np [Hp Hk]]. tauto.
    + intros [Np [Hp Hk]]. tauto.
Qed.

(** ** Bounds of the penalty *)

(** X14. Whatever texts a record holds as tier, severity and confidence,
    its penalty lies between 0.15 (the product of the three fallbacks 1,
    0.3 and 0.5) and 20 (T1, high, high). *)
Theorem penalty_bounds (m : merged) :
  (0.15 <=? penalty m)%float = true /\ (penalty m <=? 20)%float = true.
Proof. unfold penalty. table_cases; split; reflexivity. Qed.

(** ** The breakdown *)

Lemma filter_or_length {A : Type} (p q : A -> bool) l :
  (forall x, p x = true -> q x = false) ->
  List.length (filter (fun x => p x || q x) l)
  = (List.length (filter p l) + List.length (filter q l))%nat.
Proof.
  intros H. induction l as [|x l IH]; cbn [filter]; [reflexivity|].
  destruct (p x) eqn:Hp; cbn [orb].
  - rewrite (H x Hp). cbn [List.length]. rewrite IH. reflexivity.
  - destruct (q x); cbn [List.length]; rewrite IH; lia.
Qed.

(** The groups of distinct keys count the records whose key is listed. *)
Lemma group_counts (g : merged -> string) records ks :
  NoDup ks ->
  list_sum (map (fun k => List.length (filter (fun r => String.eqb (g r) k) records)) ks)
  = List.length (filter (fun r => Str.mem (g r) ks) records).
Proof.
  induction 1 as [|k ks Hk Hn IH]; cbn [map].
  - cbn. induction records; auto.
  - match goal with
    | |- list_sum (?a :: ?l) = _ => change (list_sum (a :: l)) with (a + list_sum l)%nat
    end.
    rewrite IH. unfold Str.mem. cbn [existsb].
    rewrite (filter_or_length (fun r => String.eqb (g r) k)
               (fun r => existsb (String.eqb (g r)) ks)); [reflexivity|].
    intros r E. apply String.eqb_eq in E. rewrite E.
    apply mem_false. exact Hk.
Qed.

Lemma DETECTORS_NoDup : NoDup DETECTORS.
Proof.
  unfold DETECTORS.
  repeat (constructor; [cbn [In]; intros H; repeat destruct H as [H | H]; discriminate || exact H|]).
  constructor.
Qed.

Lemma group_find (g : merged -> string) records ks k :
  In k ks ->
  dict_find k (map (fun t => (t, group_of (fun r => String.eqb (g r) t) records)) ks)
  = Some (group_of (fun r => String.eqb (g r) k) records).
Proof.
  induction ks as [|t ks IH]; intros H; [destruct H|]. cbn [map dict_find].
  destruct (String.eqb_spec k t) as [E | N]; [subst; reflexivity|].
  destruct H as [E | H]; [congruence | apply IH, H].
Qed.

(** X15. The breakdown has one group for each of T1, T2, T3, T4 and one
    for each of the six detectors, in these orders. The group of a tier
    holds the number of the records with exactly that tier and the sum,
    rounded to two decimals, of their penalties; the group of a detector
    holds the same for the records with exactly that detector. The
    counts of the tiers add up to the number of records whose tier is
    one of the four (a record with any other tier is in no group, though
    it weighs in the scores), those of the detectors to the number of
    records whose detector is listed; [detectors_with_zero_findings]
    holds exactly the listed detectors that no record has. *)
Theorem breakdown_counts (records : list merged) :
  let b := breakdown records in
  map fst (by_tier b) = ["T1"; "T2"; "T3"; "T4"]
  /\ map fst (by_detector b) = DETECTORS
  /\ list_sum (map (fun e => count (snd e)) (by_tier b))
     = List.length (filter (fun r => Str.mem (tier r) ["T1"; "T2"; "T3"; "T4"]) records)
  /\ list_sum (map (fun e => count (snd e)) (by_detector b))
     = List.length (filter (fun r => Str.mem (detector r) DETECTORS) records)
  /\ (forall d, In d (detectors_with_zero_findings b)
                <-> In d DETECTORS /\ forall r, In r records -> detector r <> d)
  /\ (forall t n p, In (t, {| count := n; group_penalty := p |}) (by_tier b) ->
        n = List.length (filter (fun r => String.eqb (tier r) t) records)
        /\ p = Py.round2 (Py.sum (map penalty
                                    (filter (fun r => String.eqb (tier r) t) records))))
  /\ (forall d n p, In (d, {| count := n; group_penalty := p |}) (by_detector b) ->
        n = List.length (filter (fun r => String.eqb (detector r) d) records)
        /\ p = Py.round2 (Py.sum (map penalty
                                    (filter (fun r => String.eqb (detector r) d) records))))
  /\ (forall t, In t ["T1"; "T2"; "T3"; "T4"] ->
        dict_find t (by_tier b)
        = Some {| count := List.length (filter (fun r => String.eqb (tier r) t) records);
                  group_penalty :=
                    Py.round2 (Py.sum (map penalty
                                         (filter (fun r => String.eqb (tier r) t)
                                            records))) |})
  /\ (forall d, In d DETECTORS ->
        dict_find d (by_detector b)
        = Some {| count := List.length (filter (fun r => String.eqb (detector r) d)
                                          records);
                  group_penalty :=
                    Py.round2 (Py.sum (map penalty
                                         (filter (fun r => String.eqb (detector r) d)
                                            records))) |}).
Proof.
  intros b. subst b. unfold breakdown.
  cbn [by_tier by_detector detectors_with_zero_findings].
  split; [reflexivity|]. split; [rewrite map_map; cbn [fst]; apply map_id|].
  split.
  { rewrite map_map. cbn [snd group_of count].
    apply (group_counts tier records ["T1"; "T2"; "T3"; "T4"]).
    repeat (constructor; [cbn [In]; intros H; repeat destruct H as [H | H]; discriminate || exact H|]).
    constructor. }
  split.
  { rewrite map_map. cbn [snd group_of count].
    apply (group_counts detector records DETECTORS DETECTORS_NoDup). }
  split.
  { intros d. rewrite in_map_iff. split.
    - intros [[d' g] [E H]]. cbn [fst] in E. subst d'.
      apply filter_In in H. destruct H as [H Hz]. apply in_map_iff in H.
      destruct H as [d' [E Hd]]. inversion E. subst d' g.
      split; [exact Hd|]. cbn [snd group_of count] in Hz. apply Nat.eqb_eq in Hz.
      apply length_zero_iff_nil in Hz. intros r Hr Ed.
      assert (Hin : In r (filter (fun r => String.eqb (detector r) d) records)).
      { apply filter_In. split; [exact Hr | apply String.eqb_eq, Ed]. }
      rewrite Hz in Hin. destruct Hin.
    - intros [Hd Hnone].
      exists (d, group_of (fun r => String.eqb (detector r) d) records).
      split; [reflexivity|]. apply filter_In. split.
      + apply in_map_iff. exists d. auto.
      + cbn [snd group_of count]. apply Nat.eqb_eq, length_zero_iff_nil.
        destruct (filter (fun r => String.eqb (detector r) d) records) as [|r l] eqn:E;
          [reflexivity|].
        assert (Hin : In r (filter (fun r => String.eqb (detector r) d) records))
          by (rewrite E; left; reflexivity).
        apply filter_In in Hin. destruct Hin as [Hr Ed]. apply String.eqb_eq in Ed.
        destruct (Hnone r Hr Ed). }
  split.
  { intros t n p H. apply in_map_iff in H. destruct H as [t' [E _]].
    unfold group_of in E. inversion E. subst. auto. }
  split.
  { intros d n p H. apply in_map_iff in H. destruct H as [d' [E _]].
    unfold group_of in E. inversion E. subst. auto. }
  split.
  { intros t Ht. apply (group_find tier records _ t Ht). }
  intros d Hd. apply (group_find detector records _ d Hd).
Qed.

(** ** The next actions *)

Lemma firstn_In_filter {A : Type} (p : A -> bool) n l x :
  In x (firstn n (filter p l)) -> In x l /\ p x = true.
Proof.
  intros H. apply filter_In. rewrite <- (firstn_skipn n (filter p l)).
  apply in_or_app. left. exact H.
Qed.

(** X16. The report names at most ten next actions: the ids of the first
    ten open findings in priority order, all of them when there are ten
    or fewer. The plan and the resolve commands cover exactly these: the
    two lists of the plan hold as many items together as there are next
    actions, and the resolve entries carry the same ids in the same
    order, with three commands each. *)
Theorem report_next_actions (loaded : list finding) :
  let r := build_report loaded in
  (List.length (next r) <= 10)%nat
  /\ next r = firstn 10 (map id (filter (has_status "open") (findings r)))
  /\ (forall i, In i (next r) ->
        exists m, In m (findings r) /\ id m = i /\ status m = "open")
  /\ ((List.length (filter (has_status "open") (findings r)) <= 10)%nat ->
      forall m, In m (findings r) -> status m = "open" -> In (id m) (next r))
  /\ (List.length (quick_wins (report_plan r)) + List.length (refactors (report_plan r)))%nat
     = List.length (next r)
  /\ map fst (report_resolve r) = next r
  /\ Forall (fun e => List.length (snd e) = 3%nat) (report_resolve r).
Proof.
  intros r. subst r. unfold build_report.
  cbn [next findings report_plan report_resolve]. unfold top_open_of.
  set (records := merged_of loaded).
  split; [rewrite length_map; apply firstn_le_length|].
  split; [symmetry; apply firstn_map|].
  split.
  { intros i Hi. apply in_map_iff in Hi. destruct Hi as [m [E Hm]].
    apply firstn_In_filter in Hm. destruct Hm as [Hm Ho].
    exists m. split; [exact Hm|]. split; [exact E|]. apply String.eqb_eq, Ho. }
  split.
  { intros Hle m Hm Ho. rewrite firstn_all2 by exact Hle.
    apply in_map, filter_In. split; [exact Hm|]. apply String.eqb_eq, Ho. }
  split.
  { rewrite remediation_plan_eq. unfold quick_wins, refactors. cbn [fst snd].
    rewrite !length_map. apply filter_partition_length. }
  split.
  { unfold resolve_simulation. rewrite map_map. reflexivity. }
  unfold resolve_simulation. apply Forall_forall. intros e He.
  apply in_map_iff in He. destruct He as [m [<- _]]. reflexivity.
Qed.

(** ** Runs without records *)

(** The report of a run that loads no record. *)
Definition empty_report : report :=
  {| total_findings := 0;
     findings := [];
     report_scores := {| overall_score := 100%float; strict_score := 100%float |};
     report_breakdown :=
       {| by_tier := map (fun t => (t, {| count := 0; group_penalty := 0%float |}))
                       ["T1"; "T2"; "T3"; "T4"];
          by_detector := map (fun d => (d, {| count := 0; group_penalty := 0%float |}))
                           DETECTORS;
          detectors_with_zero_findings := DETECTORS |};
     next := [];
     report_plan := ([], []);
     report_resolve := [] |}.

(** The files of a run, before they are parsed. *)
Module Files.

(** What reading and parsing a file gives: the value that [json.loads]
    returns, or an exception of [read_text] or [json.loads]. *)
Inductive content : Type :=
| Parsed (p : payload)
| Unparsable.

(** The path given to a run, as [list_json_files] finds it: a file, a
    directory with the files that [rglob] finds under it for [*.json],
    sorted, or neither. *)
Inductive target : Type :=
| IsFile (path : string) (c : content)
| IsDir (path : string) (json_files : list (string * content))
| Missing (path : string).

(** How a run ends: [SystemExit] with a message, an exception that
    nothing catches, raised on a file, or the report written. *)
Inductive outcome : Type :=
| Exit (message : string)
| Raised (path : string)
| Done (r : report).

(** [list_json_files] *)
Definition list_json_files (t : target) : string + list (string * content) :=
  match t with
  | IsFile path c => inr [(path, c)]
  | IsDir _ json_files => inr json_files
  | Missing path => inl ("Path does not exist: " ++ path)
  end.

(** [load_findings], with the file on which it raises. *)
Fixpoint load_findings (paths : list (string * content)) : string + list finding :=
  match paths with
  | [] => inr []
  | (path, Unparsable) :: _ => inl path
  | (path, Parsed p) :: paths' =>
      match load_findings paths' with
      | inl bad => inl bad
      | inr loaded => inr (tag_records path (records_of p) ++ loaded)%list
      end
  end.

(** [main] *)
Definition main (t : target) : outcome :=
  match list_json_files t with
  | inl message => Exit message
  | inr [] => Exit "No JSON files found."
  | inr files =>
      match load_findings files with
      | inl path => Raised path
      | inr loaded => Done (build_report loaded)
      end
  end.

(** The files as sources, when all of them parse. *)
Definition sources_of (files : list (string * content)) : list source :=
  flat_map (fun f => match snd f with
                     | Parsed p => [(fst f, p)]
                     | Unparsable => []
                     end) files.

Definition parses (f : string * content) : Prop := exists p, snd f = Parsed p.

End Files.

Lemma load_findings_parsed files :
  (forall f, In f files -> Files.parses f) ->
  Files.load_findings files = inr (load_findings (Files.sources_of files)).
Proof.
  induction files as [|[path c] files IH]; intros H; [reflexivity|].
  destruct (H (path, c) (or_introl Logic.eq_refl)) as [p Hp]. cbn [snd] in Hp. subst c.
  cbn [Files.load_findings]. rewrite IH by (intros f Hf; apply H; right; exact Hf).
  reflexivity.
Qed.

Lemma load_findings_raises before path after :
  (forall f, In f before -> Files.parses f) ->
  Files.load_findings (before ++ (path, Files.Unparsable) :: after) = inl path.
Proof.
  induction before as [|[path' c] before IH]; intros H; [reflexivity|].
  destruct (H (path', c) (or_introl Logic.eq_refl)) as [p Hp]. cbn [snd] in Hp. subst c.
  cbn [app Files.load_findings]. rewrite IH by (intros f Hf; apply H; right; exact Hf).
  reflexivity.
Qed.

Lemma load_findings_returns files loaded :
  Files.load_findings files = inr loaded -> forall f, In f files -> Files.parses f.
Proof.
  revert loaded. induction files as [|[path c] files IH]; intros loaded H f Hf;
    [destruct Hf|].
  destruct c as [p|]; [|discriminate]. cbn [Files.load_findings] in H.
  destruct (Files.load_findings files) as [bad | loaded'] eqn:E; [discriminate|].
  destruct Hf as [<- | Hf]; [exists p; reflexivity | apply (IH loaded' Logic.eq_refl f Hf)].
Qed.

(** X17. How a run ends. It exits with "Path does not exist: " and the
    path when the path is neither a file nor a directory, and with "No
    JSON files found." when a directory holds no JSON file. The first file
    that fails to be read or parsed ends the run with its exception, not
    caught, and no report, whatever the files after it hold, in a scan
    of a directory too. A report is written exactly when there is a file
    and every file parses: it is the report of the parsed run, and when
    the files hold no record at all it has no finding, both scores
    100.0, every group of the breakdown at zero and all six detectors
    listed as without findings. *)
Theorem main_outcomes (t : Files.target) (files : list (string * Files.content)) :
  Files.list_json_files t = inr files ->
  files <> [] ->
  (forall path, Files.main (Files.Missing path)
                = Files.Exit ("Path does not exist: " ++ path))
  /\ (forall path, Files.main (Files.IsDir path []) = Files.Exit "No JSON files found.")
  /\ (forall before path after,
        files = (before ++ (path, Files.Unparsable) :: after)%list ->
        (forall f, In f before -> exists p, snd f = Files.Parsed p) ->
        Files.main t = Files.Raised path)
  /\ ((forall f, In f files -> exists p, snd f = Files.Parsed p) ->
      Files.main t = Files.Done (build_report (load_findings (Files.sources_of files)))
      /\ main (Files.sources_of files)
         = Done (build_report (load_findings (Files.sources_of files))))
  /\ (forall r, Files.main t = Files.Done r ->
        forall f, In f files -> exists p, snd f = Files.Parsed p)
  /\ ((forall f, In f files -> exists p, snd f = Files.Parsed p) ->
      load_findings (Files.sources_of files) = [] ->
      Files.main t = Files.Done empty_report).
Proof.
  intros Ht Hne. unfold Files.main at 3 4 5 6. rewrite Ht.
  destruct files as [|f0 files']; [congruence|]. set (files := f0 :: files') in *.
  split; [reflexivity|]. split; [reflexivity|]. split.
  { intros before path after E Hb. rewrite E, load_findings_raises by exact Hb.
    reflexivity. }
  split.
  { intros Hall. rewrite load_findings_parsed by exact Hall. split; [reflexivity|].
    destruct (Hall f0 (or_introl Logic.eq_refl)) as [p Hp].
    unfold files, Files.sources_of. cbn [flat_map]. rewrite Hp. reflexivity. }
  split.
  { intros r Hr. destruct (Files.load_findings files) as [bad | loaded] eqn:E;
      [discriminate|]. apply (load_findings_returns files loaded E). }
  intros Hall Hnone. rewrite load_findings_parsed by exact Hall. rewrite Hnone.
  reflexivity.
Qed.

Lemma main_outcomes_witness :
  Files.main (Files.IsDir "runs"
                [("runs/a.json", Files.Parsed (PValue (SList [])));
                 ("runs/b.json", Files.Unparsable);
                 ("runs/c.json", Files.Parsed (PValue (SList [ItemDict ex_stale])))])
  = Files.Raised "runs/b.json".
Proof.
  destruct (main_outcomes
              (Files.IsDir "runs"
                 [("runs/a.json", Files.Parsed (PValue (SList [])));
                  ("runs/b.json", Files.Unparsable);
                  ("runs/c.json", Files.Parsed (PValue (SList [ItemDict ex_stale])))])
              [("runs/a.json", Files.Parsed (PValue (SList [])));
               ("runs/b.json", Files.Unparsable);
               ("runs/c.json", Files.Parsed (PValue (SList [ItemDict ex_stale])))])
    as [_ [_ [H _]]].
  - reflexivity.
  - discriminate.
  - apply (H [("runs/a.json", Files.Parsed (PValue (SList [])))] "runs/b.json"
             [("runs/c.json", Files.Parsed (PValue (SList [ItemDict ex_stale])))]).
    + reflexivity.
    + intros f [<- | []]. eexists. reflexivity.
Defined.

(** ** Resolved findings and the overall score *)

Lemma filter_filter_impl {A : Type} (p q : A -> bool) l :
  (forall x, p x = true -> q x = true) -> filter p (filter q l) = filter p l.
Proof.
  intros H. induction l as [|x l IH]; cbn [filter]; [reflexivity|].
  destruct (q x) eqn:Hq; cbn [filter].
  - rewrite IH. reflexivity.
  - destruct (p x) eqn:Hp; [rewrite (H x Hp) in Hq; discriminate | exact IH].
Qed.

Lemma filter_none {A : Type} (p : A -> bool) l :
  (forall x, In x l -> p x = false) -> filter p l = [].
Proof.
  induction l as [|x l IH]; intros H; cbn [filter]; [reflexivity|].
  rewrite (H x (or_introl Logic.eq_refl)). apply IH. intros y Hy. apply H. right. exact Hy.
Qed.

(** X18. Only the records whose status is exactly [open] or [wontfix]
    weigh on [overall_score]: dropping all the others leaves it as it
    is, and when no record has one of these two statuses it is 100.0,
    whatever [strict_score] is. *)
Theorem overall_score_open_wontfix (records : list merged) :
  overall_score (score records)
  = overall_score
      (score (filter (fun r => has_status "open" r || has_status "wontfix" r) records))
  /\ ((forall r, In r records -> status r <> "open" /\ status r <> "wontfix") ->
      overall_score (score records) = 100%float).
Proof.
  split.
  - unfold score. cbn [overall_score].
    rewrite !filter_filter_impl; [reflexivity | |].
    + intros x H. rewrite H. apply orb_true_r.
    + intros x H. rewrite H. reflexivity.
  - intros H. unfold score. cbn [overall_score].
    rewrite !filter_none; [reflexivity | |].
    + intros r Hr. apply String.eqb_neq, (H r Hr).
    + intros r Hr. apply String.eqb_neq, (H r Hr).
Qed.

(** ** Records that agree *)

Lemma agrees_conflicts e c : clean e -> agrees c e -> conflicts_of e c = [].
Proof.
  intros Hc [Hr [Hf Hs]].
  assert (Hi : forall f, incoming e c f = get_field f e).
  { intros f. unfold incoming, str_field, dict_get.
    destruct (dict_find (field_name f) c) as [v|] eqn:E; [apply (Hr f v E)|].
    cbn [py_str]. apply (clean_get_field e f Hc). }
  unfold conflicts_of, rank_conflict, fix_conflict, status_conflict,
    fix_differs, status_differs.
  rewrite !Hi, !String.eqb_refl. cbn [negb app].
  change (incoming_status c) with (status_of c). rewrite Hs, String.eqb_refl.
  change (incoming_fix c) with (fix_of c).
  destruct Hf as [-> | ->]; [reflexivity|].
  rewrite String.eqb_refl, andb_false_r. reflexivity.
Qed.

Lemma agreeing_fold later : forall m,
  clean m ->
  (forall c, In c later -> agrees c m /\ incoming_flag c = false) ->
  (forall f, get_field f (fold_left merge_record later m) = get_field f m)
  /\ recommended_fix (fold_left merge_record later m) = recommended_fix m
  /\ status (fold_left merge_record later m) = status m
  /\ needs_validation (fold_left merge_record later m) = needs_validation m
  /\ conflict_note (fold_left merge_record later m) = conflict_note m.
Proof.
  induction later as [|c later IH]; intros m Hc Hall; cbn [fold_left]; [auto|].
  destruct (Hall c (or_introl Logic.eq_refl)) as [Ha Hfl].
  pose proof (agrees_conflicts m c Hc Ha) as E.
  destruct (quiet_fold m c E) as [Qr [_ [Qf [_ Qs]]]].
  assert (Hflag : needs_validation (merge_record m c) = needs_validation m).
  { rewrite flag_merge_record. unfold kept_flag. rewrite E, Hfl. apply orb_false_r. }
  assert (Hnote : conflict_note (merge_record m c) = conflict_note m).
  { rewrite note_merge_record. unfold kept_note. rewrite E. reflexivity. }
  destruct (IH (merge_record m c)) as [Ir [If [Is [Ifl In']]]].
  - apply clean_merge_record, Hc.
  - intros c' Hc'. destruct (Hall c' (or_intror Hc')) as [[Hr [Hf Hs]] Hfl'].
    split; [|exact Hfl']. unfold agrees. rewrite Qf, Qs.
    split; [|auto]. intros f v Hv. destruct (Qr f) as [_ ->]. apply (Hr f v Hv).
  - split; [intros f; rewrite Ir; apply Qr|].
    rewrite If, Is, Ifl, In'. auto.
Qed.

Definition ex_c : finding :=
  [("detector", VStr "duplication"); ("file", VStr "a.go");
   ("summary", VStr "dup block"); ("status", VStr "fixed");
   ("evidence", VStr "seen again"); ("_source", VStr "f3.json")].

(** X19. Records that agree raise no flag: when every later record of a
    fingerprint brings, for tier, severity and confidence, either
    nothing or the value that the first record gave, brings no fix or
    the same fix, the same status, and no [needs_validation] of its own,
    the merged record has the tier, severity, confidence, fix, status,
    flag and note of the first record alone. *)
Theorem agreeing_records_quiet (loaded : list finding) (k : string) (m : merged)
  (first : finding) (later : list finding) :
  dict_find k (fold_records loaded) = Some m ->
  filter (fun r => String.eqb (normalized_fingerprint r) k) loaded = first :: later ->
  (forall c, In c later ->
     (forall f v, dict_find (field_name f) c = Some v ->
                  Str.strip (py_str v) = get_field f (initial_record first))
     /\ (str_field "recommended_fix" "" c = ""
         \/ str_field "recommended_fix" "" c = str_field "recommended_fix" "" first)
     /\ str_field "status" "open" c = str_field "status" "open" first
     /\ py_bool (dict_get "needs_validation" (VBool false) c) = false) ->
  tier m = tier (initial_record first)
  /\ severity m = severity (initial_record first)
  /\ confidence m = confidence (initial_record first)
  /\ recommended_fix m = recommended_fix (initial_record first)
  /\ status m = status (initial_record first)
  /\ needs_validation m = needs_validation (initial_record first)
  /\ conflict_note m = conflict_note (initial_record first).
Proof.
  intros H Hc Hall. destruct (bucket_contributors k loaded m H) as [first' [later' [Hc' ->]]].
  unfold contributors in Hc'. rewrite Hc in Hc'. inversion Hc'. subst first' later'.
  destruct (agreeing_fold later (initial_record first) (clean_initial first))
    as [Hr [Hf [Hs [Hfl Hn]]]].
  { intros c Hin. destruct (Hall c Hin) as [Ar [Af [As Afl]]].
    split; [|exact Afl]. split; [exact Ar|]. split; [exact Af | exact As]. }
  split; [apply (Hr FTier)|]. split; [apply (Hr FSeverity)|].
  split; [apply (Hr FConfidence)|]. auto.
Qed.

Lemma agreeing_records_quiet_witness :
  let m := merge_record (initial_record ex_a) ex_c in
  tier m = tier (initial_record ex_a)
  /\ severity m = severity (initial_record ex_a)
  /\ confidence m = confidence (initial_record ex_a)
  /\ recommended_fix m = recommended_fix (initial_record ex_a)
  /\ status m = status (initial_record ex_a)
  /\ needs_validation m = needs_validation (initial_record ex_a)
  /\ conflict_note m = conflict_note (initial_record ex_a).
Proof.
  apply (agreeing_records_quiet [ex_a; ex_c] "duplication|a.go|dup block"
           (merge_record (initial_record ex_a) ex_c) ex_a [ex_c]).
  - reflexivity.
  - reflexivity.
  - intros c [<- | []]. split; [|split; [|split]].
    + intros f v Hv. destruct f; discriminate Hv.
    + left. reflexivity.
    + reflexivity.
    + reflexivity.
Defined.

(** ** The findings of the report and the buckets *)

Lemma dict_find_In {V : Type} k (v : V) d : dict_find k d = Some v -> In (k, v) d.
Proof.
  induction d as [|[k' w] d IH]; cbn [dict_find]; [discriminate|].
  destruct (String.eqb_spec k k') as [E | N].
  - intros H. inversion H. subst. left. reflexivity.
  - intros H. right. apply IH, H.
Qed.

Lemma In_dict_find {V : Type} k (v : V) d :
  NoDup (map fst d) -> In (k, v) d -> dict_find k d = Some v.
Proof.
  induction d as [|[k' w] d IH]; intros N Hin; [destruct Hin|].
  cbn [map fst] in N. inversion N as [|? ? Hk Hd]. subst. cbn [dict_find].
  destruct Hin as [E | Hin].
  - inversion E. subst. rewrite String.eqb_refl. reflexivity.
  - destruct (String.eqb_spec k k') as [E | _]; [|apply IH; assumption].
    subst k'. exfalso. apply Hk. apply in_map_iff. exists (k, v). auto.
Qed.

Lemma In_assign_ids l : forall n m0,
  In m0 l -> exists i, In (set_id i m0) (assign_ids n l).
Proof.
  induction l as [|r l IH]; intros n m0; cbn [assign_ids]; [intros []|].
  intros [E | H].
  - subst r. eexists. left. reflexivity.
  - destruct (IH (S n) m0 H) as [i Hi]. exists i. right. exact Hi.
Qed.

(** X20. The findings of a report are the merged records of the buckets,
    one for each fingerprint, with nothing changed but the id: every
    finding is the record of a bucket under a new id, and every bucket
    is among the findings. *)
Theorem report_findings_buckets (loaded : list finding) :
  let r := build_report loaded in
  (forall m, In m (findings r) ->
     exists k m0, dict_find k (fold_records loaded) = Some m0 /\ m = set_id (id m) m0)
  /\ (forall k m0, dict_find k (fold_records loaded) = Some m0 ->
        exists i, In (set_id i m0) (findings r))
  /\ total_findings r = List.length (findings r)
  /\ total_findings r = List.length (fold_records loaded).
Proof.
  intros r. subst r. unfold build_report. cbn [findings total_findings].
  unfold merged_of. split; [|split; [|split]].
  - intros m Hm. destruct (assign_ids_In _ _ _ Hm) as [m0 [i [Hin ->]]].
    apply (Permutation_in _ (Permutation_sym (sort_by_priority_perm _))) in Hin.
    apply in_map_iff in Hin. destruct Hin as [[k m1] [E Hin]]. cbn [snd] in E. subst m1.
    exists k, m0. split; [|reflexivity].
    apply In_dict_find; [apply fold_records_NoDup | exact Hin].
  - intros k m0 H. apply dict_find_In in H. apply In_assign_ids.
    apply (Permutation_in _ (sort_by_priority_perm _)).
    apply in_map_iff. exists (k, m0). auto.
  - reflexivity.
  - rewrite assign_ids_length, sort_by_priority_length, length_map. reflexivity.
Qed.

(** ** Normalizing a stripped text *)

Section NormalizeStripped.

(** The class that the first substitution of [normalize_text] replaces. *)
Definition not_alnum (c : ascii) : bool := negb (Str.is_lower_alnum c).

Lemma space_not_alnum c : Str.is_space c = true -> not_alnum c = true.
Proof.
  unfold not_alnum. destruct (Str.is_lower_alnum c) eqn:E; [|reflexivity].
  rewrite (lower_alnum_not_space c E). discriminate.
Qed.

Lemma is_space_lower c : Str.is_space (Str.lower_char c) = Str.is_space c.
Proof.
  destruct c as [b0 b1 b2 b3 b4 b5 b6 b7].
  destruct b0, b1, b2, b3, b4, b5, b6, b7; reflexivity.
Qed.

Lemma lstrip_lower s :
  Str.lstrip_by Str.is_space (Str.lower s) = Str.lower (Str.lstrip_by Str.is_space s).
Proof.
  induction s as [|c s IH]; cbn [Str.lower Str.lstrip_by]; [reflexivity|].
  rewrite is_space_lower. destruct (Str.is_space c); [exact IH | reflexivity].
Qed.

Lemma rstrip_lower s :
  Str.rstrip_by Str.is_space (Str.lower s) = Str.lower (Str.rstrip_by Str.is_space s).
Proof.
  induction s as [|c s IH]; cbn [Str.lower Str.rstrip_by]; [reflexivity|].
  rewrite IH, is_space_lower.
  destruct (Str.rstrip_by Str.is_space s) as [|d t]; cbn [Str.lower].
  - destruct (Str.is_space c); reflexivity.
  - reflexivity.
Qed.

Lemma strip_lower s : Str.strip (Str.lower s) = Str.lower (Str.strip s).
Proof. unfold Str.strip, Str.strip_by. rewrite lstrip_lower, rstrip_lower. reflexivity. Qed.

Lemma strip_comm p s :
  Str.rstrip_by p (Str.lstrip_by p s) = Str.lstrip_by p (Str.rstrip_by p s).
Proof.
  induction s as [|c s IH]; [reflexivity|].
  cbn [Str.lstrip_by]. destruct (p c) eqn:Hp.
  - rewrite IH. cbn [Str.rstrip_by].
    destruct (Str.rstrip_by p s) as [|d t]; [rewrite Hp; reflexivity|].
    cbn [Str.lstrip_by]. rewrite Hp. reflexivity.
  - destruct (rstrip_head p c s Hp) as [u ->]. cbn [Str.lstrip_by]. rewrite Hp.
    reflexivity.
Qed.

Lemma rstrip_cons_congr p c y y' :
  Str.rstrip_by p y = Str.rstrip_by p y' ->
  Str.rstrip_by p (String c y) = Str.rstrip_by p (String c y').
Proof. intros H. cbn [Str.rstrip_by]. rewrite H. reflexivity. Qed.

(** The substitution of the runs that are not letters or digits. *)
Let S := Str.sub_runs not_alnum.

Lemma lstrip_sub_runs_flag u :
  Str.lstrip_by Str.is_space (S true u) = Str.lstrip_by Str.is_space (S false u).
Proof.
  destruct u as [|c u]; [reflexivity|]. unfold S. cbn [Str.sub_runs].
  destruct (not_alnum c); reflexivity.
Qed.

Lemma lstrip_sub_runs u :
  Str.lstrip_by Str.is_space (S false (Str.lstrip_by Str.is_space u))
  = Str.lstrip_by Str.is_space (S false u).
Proof.
  induction u as [|c u IH]; [reflexivity|]. cbn [Str.lstrip_by].
  destruct (Str.is_space c) eqn:Hs; [|reflexivity].
  rewrite IH. unfold S at 2. cbn [Str.sub_runs]. rewrite (space_not_alnum c Hs).
  change (Str.lstrip_by Str.is_space (String " " (Str.sub_runs not_alnum true u)))
    with (Str.lstrip_by Str.is_space (S true u)).
  symmetry. apply lstrip_sub_runs_flag.
Qed.

Lemma sub_runs_cons_congr c x y b :
  (forall b', Str.rstrip_by Str.is_space (S b' x) = Str.rstrip_by Str.is_space (S b' y)) ->
  Str.rstrip_by Str.is_space (S b (String c x))
  = Str.rstrip_by Str.is_space (S b (String c y)).
Proof.
  intros H. unfold S. cbn [Str.sub_runs].
  destruct (not_alnum c); [destruct b|]; try apply rstrip_cons_congr; apply H.
Qed.

Lemma rstrip_sub_runs u : forall b,
  Str.rstrip_by Str.is_space (S b (Str.rstrip_by Str.is_space u))
  = Str.rstrip_by Str.is_space (S b u).
Proof.
  induction u as [|c u IH]; intros b; [reflexivity|]. cbn [Str.rstrip_by].
  destruct (Str.rstrip_by Str.is_space u) as [|d t] eqn:E.
  - destruct (Str.is_space c) eqn:Hs.
    + rewrite <- (sub_runs_cons_congr c "" u b IH).
      unfold S. cbn [Str.sub_runs]. rewrite (space_not_alnum c Hs).
      destruct b; reflexivity.
    + apply (sub_runs_cons_congr c "" u b IH).
  - apply (sub_runs_cons_congr c (String d t) u b IH).
Qed.

Lemma strip_sub_runs u : Str.strip (S false (Str.strip u)) = Str.strip (S false u).
Proof.
  unfold Str.strip, Str.strip_by.
  rewrite (strip_comm Str.is_space (S false _)), rstrip_sub_runs.
  rewrite <- strip_comm, lstrip_sub_runs. reflexivity.
Qed.

(** The second substitution of [normalize_text] finds nothing to do. *)
Lemma sub_runs_space_fixed x : Str.sub_runs Str.is_space false (S false x) = S false x.
Proof.
  assert (Hn : all_chars is_normal (S false x) = true).
  { apply all_sub_runs_class; [reflexivity|].
    intros c Hc. unfold is_normal. apply negb_false_iff in Hc. rewrite Hc. reflexivity. }
  apply sub_runs_fixed.
  - apply (all_chars_impl is_normal); [|exact Hn]. intros c Hc. apply (normal_char c Hc).
  - rewrite (no_adjacent_ext Str.is_space not_alnum).
    + apply no_adjacent_sub_runs. reflexivity.
    + apply (all_chars_impl is_normal); [|exact Hn]. intros c Hc. apply (normal_char c Hc).
Qed.

Lemma normalize_text_one_pass value :
  normalize_text value = Str.strip (S false (Str.lower value)).
Proof. unfold normalize_text. fold not_alnum. fold S. rewrite sub_runs_space_fixed. reflexivity. Qed.

Lemma normalize_text_strip value : normalize_text (Str.strip value) = normalize_text value.
Proof. rewrite !normalize_text_one_pass, <- strip_lower. apply strip_sub_runs. Qed.

End NormalizeStripped.

(** X12. A normalized text holds only the letters a-z, the digits and
    single spaces, none of them at either end; normalizing it again
    gives the same text, and so does normalizing the lower-cased or
    the stripped input. *)
Theorem normalize_text_normal (value : string) :
  let t := normalize_text value in
  all_chars (fun c => Str.is_lower_alnum c || Ascii.eqb c " ") t = true
  /\ no_adjacent (fun c => Ascii.eqb c " ") false t = true
  /\ Str.strip t = t
  /\ normalize_text t = t
  /\ normalize_text (Str.lower value) = t
  /\ normalize_text (Str.strip value) = t.
Proof.
  intros t. subst t.
  pose proof (normalize_text_chars value) as Hn.
  pose proof (normalize_text_spaced value) as Hs.
  assert (Hstrip : Str.strip (normalize_text value) = normalize_text value)
    by apply strip_idem.
  split; [exact Hn|]. split.
  { rewrite <- (no_adjacent_ext Str.is_space); [exact Hs|].
    apply (all_chars_impl is_normal); [|exact Hn].
    intros c Hc. apply (normal_char c Hc). }
  split; [exact Hstrip|]. split.
  - unfold normalize_text at 1. rewrite (lower_normal _ Hn).
    rewrite (sub_runs_fixed (fun c => negb (Str.is_lower_alnum c))).
    + rewrite (sub_runs_fixed Str.is_space); [exact Hstrip | | exact Hs].
      apply (all_chars_impl is_normal); [|exact Hn].
      intros c Hc. apply (normal_char c Hc).
    + apply (all_chars_impl is_normal); [|exact Hn].
      intros c Hc. apply (normal_char c Hc).
    + rewrite <- (no_adjacent_ext Str.is_space); [exact Hs|].
      apply (all_chars_impl is_normal); [|exact Hn].
      intros c Hc. apply (normal_char c Hc).
  - split; [|apply normalize_text_strip].
    unfold normalize_text. rewrite lower_idem. reflexivity.
Qed.

(** ** Merging a report again *)

(** A finding of a report as a record read back from its JSON: the keys
    and values that [initial_record] and [merge_record] wrote, with the
    value that the list [_sources] becomes. *)
Definition reread (sources_value : value) (m : merged) : finding :=
  [("id", VStr (id m)); ("tier", VStr (tier m)); ("detector", VStr (detector m));
   ("severity", VStr (severity m)); ("file", VStr (file m)); ("line", line m);
   ("summary", VStr (summary m)); ("evidence", VStr (evidence m));
   ("recommended_fix", VStr (recommended_fix m)); ("confidence", VStr (confidence m));
   ("status", VStr (status m)); ("conflict_note", VStr (conflict_note m));
   ("needs_validation", VBool (needs_validation m)); ("_sources", sources_value)].

(** The fields that a second run reads back unchanged. *)
Definition core (m : merged)
  : string * string * string * string * value * string * string * string * string * bool :=
  (tier m, detector m, severity m, file m, line m, summary m, recommended_fix m,
   confidence m, status m, needs_validation m).

Lemma fingerprint_reread v m :
  normalized_fingerprint (reread v m)
  = Str.strip (detector m) ++ "|" ++ Str.strip (file m) ++ "|"
      ++ normalize_text (summary m).
Proof. reflexivity. Qed.

Lemma core_initial_reread path v m :
  clean m -> core (initial_record (tagged path (reread v m))) = core m.
Proof.
  intros [Ht [Hs [Hc [Hd [Hf [Hsu [Hfx Hst]]]]]]].
  unfold core, tagged, reread, initial_record, str_field, dict_get.
  cbn [dict_set dict_find String.eqb Ascii.eqb Bool.eqb tier detector severity file line
         summary recommended_fix confidence status needs_validation py_str py_bool].
  unfold stripped in *. rewrite Ht, Hs, Hc, Hd, Hf, Hsu, Hfx, Hst. reflexivity.
Qed.

Lemma clean_core m m' : core m = core m' -> clean m -> clean m'.
Proof.
  unfold core, clean. intros E. inversion E as [[Et Ed Es Ef El Esu Efx Ec Est En]].
  rewrite Et, Ed, Es, Ef, Esu, Efx, Ec, Est. auto.
Qed.

(** The bucket of a record is found again from the merged record, when
    no detector of the run holds a bar. *)
Lemma bucket_refingerprint loaded k m v :
  (forall r, In r loaded -> all_chars not_bar (detector_of r) = true) ->
  dict_find k (fold_records loaded) = Some m ->
  normalized_fingerprint (reread v m) = k.
Proof.
  intros Hbar H. rewrite fingerprint_reread.
  destruct (bucket_contributors k loaded m H) as [first [later [Hc ->]]].
  destruct (fold_fixed later (initial_record first)) as [_ [Hd [Hf _]]].
  destruct (fold_texts later (initial_record first)) as [Hs _].
  destruct (fold_longer (fun r => str_field "summary" "" r) first later)
    as [before [r [after [Hc' [Es _]]]]].
  rewrite Hd, Hf, Hs. cbn [initial_record detector file summary]. rewrite Es.
  rewrite !str_field_stripped.
  assert (Hr : In r (contributors k loaded)).
  { rewrite Hc, Hc'. apply in_or_app. right. left. reflexivity. }
  assert (H1 : In first (contributors k loaded)) by (rewrite Hc; left; reflexivity).
  apply contributors_In in Hr, H1. destruct Hr as [Hr Hkr], H1 as [H1 Hk1].
  destruct (fingerprint_inj r first (Hbar r Hr) (Hbar first H1)) as [_ [_ E]];
    [congruence|].
  rewrite <- Hk1, fingerprint_eq. unfold detector_of, file_of.
  unfold str_field at 3. rewrite normalize_text_strip.
  fold (summary_key r). rewrite E. reflexivity.
Qed.

(** Records of distinct fingerprints open one bucket each. *)
Lemma fold_left_distinct l : forall acc,
  NoDup (map fst acc ++ map normalized_fingerprint l) ->
  fold_left fold_step l acc
  = (acc ++ map (fun r => (normalized_fingerprint r, initial_record r)) l)%list.
Proof.
  induction l as [|r l IH]; intros acc N; cbn [fold_left map].
  - rewrite app_nil_r. reflexivity.
  - assert (Hr : ~ In (normalized_fingerprint r) (map fst acc)).
    { cbn [map] in N. apply NoDup_remove_2 in N. intros H. apply N.
      apply in_or_app. left. exact H. }
    assert (Hu : fold_step acc r
                 = (acc ++ [(normalized_fingerprint r, initial_record r)])%list).
    { unfold fold_step. clear IH N. induction acc as [|[k e] acc IHa]; [reflexivity|].
      cbn [bucket_update].
      destruct (String.eqb_spec (normalized_fingerprint r) k) as [E | _].
      - exfalso. apply Hr. left. symmetry. exact E.
      - cbn [app]. rewrite IHa; [reflexivity|]. intros H. apply Hr. right. exact H. }
    rewrite Hu, IH, <- app_assoc; [reflexivity|].
    rewrite map_app, <- app_assoc. cbn [map fst app]. exact N.
Qed.

Lemma fold_records_distinct l :
  NoDup (map normalized_fingerprint l) ->
  map snd (fold_records l) = map initial_record l.
Proof.
  intros N. unfold fold_records. rewrite fold_left_distinct by exact N.
  cbn [app]. rewrite map_map. reflexivity.
Qed.

(** Sorting a sorted list changes nothing. *)
Lemma sort_by_priority_fixed l :
  StronglySorted not_after l -> sort_by_priority l = l.
Proof.
  induction 1 as [|x l S IH Hx]; [reflexivity|].
  cbn [sort_by_priority fold_right]. fold (sort_by_priority l). rewrite IH.
  destruct l as [|y l]; [reflexivity|]. cbn [insert_by_key].
  inversion Hx as [|? ? Hy _]. subst. unfold not_after in Hy. rewrite Hy. reflexivity.
Qed.

Lemma key_core m m' : core m = core m' -> priority_sort_key m = priority_sort_key m'.
Proof.
  unfold core. intros E. inversion E as [[Et Ed Es Ef El Esu Efx Ec Est En]].
  unfold priority_sort_key, penalty. rewrite Et, Es, Ec, Ef, El. reflexivity.
Qed.

Lemma cons_eq_inv {A : Type} (a b : A) l l' : a :: l = b :: l' -> a = b /\ l = l'.
Proof. intros H. inversion H. auto. Qed.

Lemma map_key_core l : forall l',
  map core l = map core l' -> map priority_sort_key l = map priority_sort_key l'.
Proof.
  induction l as [|x l IH]; intros l' E.
  - destruct l'; [reflexivity | discriminate].
  - destruct l' as [|x' l']; [discriminate|]. cbn [map] in E |- *.
    apply cons_eq_inv in E. destruct E as [Ex El].
    rewrite (key_core _ _ Ex), (IH l' El). reflexivity.
Qed.

Lemma StronglySorted_map_inv {A B : Type} (R : A -> A -> Prop) (R' : B -> B -> Prop)
  (f : A -> B) l :
  (forall a b, R' (f a) (f b) -> R a b) ->
  StronglySorted R' (map f l) -> StronglySorted R l.
Proof.
  intros H. induction l as [|a l IH]; cbn [map]; intros S; [constructor|].
  apply StronglySorted_inv in S. destruct S as [S Ha].
  constructor; [apply IH, S|].
  rewrite Forall_forall in Ha |- *. intros b Hb. apply H, Ha, in_map, Hb.
Qed.

Lemma sorted_core l l' :
  map core l = map core l' -> StronglySorted not_after l -> StronglySorted not_after l'.
Proof.
  intros E S. apply map_key_core in E.
  apply (StronglySorted_map_inv not_after (fun a b => key_lt b a = false)
           priority_sort_key); [auto|].
  rewrite <- E. apply (StronglySorted_map not_after); [auto | exact S].
Qed.

Lemma core_assign_ids l : forall n, map core (assign_ids n l) = map core l.
Proof.
  induction l as [|r l IH]; intros n; cbn [assign_ids map]; [reflexivity|].
  rewrite IH. reflexivity.
Qed.

Lemma ids_assign_ids l l' : forall n,
  List.length l = List.length l' ->
  map id (assign_ids n l) = map id (assign_ids n l').
Proof. intros n E. rewrite !assign_ids_ids, E. reflexivity. Qed.

(** The scores read the status and, through the penalty, the tier, the
    severity and the confidence: all of them in the core. *)
Lemma score_core l l' : map core l = map core l' -> score l = score l'.
Proof.
  intros E.
  assert (Hx : forall x x', core x = core x' -> status x = status x' /\ penalty x = penalty x').
  { intros x x' Ex. unfold core in Ex.
    injection Ex as Et Ed Es Ef El Esu Efx Ec Est En.
    split; [exact Est|]. unfold penalty. rewrite Et, Es, Ec. reflexivity. }
  assert (H : forall s, map penalty (filter (has_status s) l)
                        = map penalty (filter (has_status s) l')).
  { intros s. revert l' E. induction l as [|x l IH]; intros l' E.
    - destruct l'; [reflexivity | discriminate].
    - destruct l' as [|x' l']; [discriminate|]. cbn [map] in E.
      apply cons_eq_inv in E. destruct E as [Ex El].
      destruct (Hx x x' Ex) as [Es Ep].
      assert (Eh : has_status s x = has_status s x')
        by (unfold has_status; rewrite Es; reflexivity).
      cbn [filter]. rewrite Eh.
      destruct (has_status s x'); cbn [map]; rewrite ?Ep, (IH l' El); reflexivity. }
  assert (Hp : map penalty l = map penalty l').
  { clear H. revert l' E. induction l as [|x l IH]; intros l' E.
    - destruct l'; [reflexivity | discriminate].
    - destruct l' as [|x' l']; [discriminate|]. cbn [map] in E |- *.
      apply cons_eq_inv in E. destruct E as [Ex El].
      destruct (Hx x x' Ex) as [_ Ep]. rewrite Ep, (IH l' El). reflexivity. }
  unfold score. rewrite Hp, !H. reflexivity.
Qed.

(** Two records that show the same id and the same core. *)
Definition alike (x x' : merged) : Prop := id x = id x' /\ core x = core x'.

Lemma alike_of_maps l : forall l',
  map id l = map id l' -> map core l = map core l' -> Forall2 alike l l'.
Proof.
  induction l as [|x l IH]; intros l' Ei Ec.
  - destruct l'; [constructor | discriminate].
  - destruct l' as [|x' l']; [discriminate|]. cbn [map] in Ei, Ec.
    apply cons_eq_inv in Ei, Ec. destruct Ei as [Ei Eil], Ec as [Ec Ecl].
    constructor; [split; assumption | apply IH; assumption].
Qed.

Lemma alike_map {B : Type} (g : merged -> B) l l' :
  (forall x x', alike x x' -> g x = g x') -> Forall2 alike l l' -> map g l = map g l'.
Proof.
  intros Hg. induction 1 as [|x x' l l' Hx Hl IH]; cbn [map]; [reflexivity|].
  rewrite (Hg x x' Hx), IH. reflexivity.
Qed.

Lemma alike_filter (p : merged -> bool) l l' :
  (forall x x', alike x x' -> p x = p x') ->
  Forall2 alike l l' -> Forall2 alike (filter p l) (filter p l').
Proof.
  intros Hp. induction 1 as [|x x' l l' Hx Hl IH]; cbn [filter]; [constructor|].
  rewrite (Hp x x' Hx). destruct (p x'); [constructor|]; assumption.
Qed.

Lemma alike_firstn n : forall l l',
  Forall2 alike l l' -> Forall2 alike (firstn n l) (firstn n l').
Proof.
  induction n as [|n IH]; intros l l' H; cbn [firstn]; [constructor|].
  destruct H as [|x x' l l' Hx Hl]; constructor; [exact Hx | apply IH, Hl].
Qed.

Lemma alike_fields x x' :
  alike x x' ->
  id x = id x' /\ tier x = tier x' /\ detector x = detector x'
  /\ severity x = severity x' /\ confidence x = confidence x'
  /\ summary x = summary x' /\ status x = status x' /\ penalty x = penalty x'.
Proof.
  intros [Ei Ec]. unfold core in Ec.
  injection Ec as Et Ed Es Ef El Esu Efx Eco Est En.
  repeat (split; [assumption|]). unfold penalty. rewrite Et, Es, Eco. reflexivity.
Qed.

Lemma alike_group (p : merged -> bool) l l' :
  (forall x x', alike x x' -> p x = p x') ->
  Forall2 alike l l' -> group_of p l = group_of p l'.
Proof.
  intros Hp H. pose proof (alike_filter p l l' Hp H) as Hf. unfold group_of.
  rewrite (alike_map penalty _ _ (fun x x' A => proj2 (proj2 (proj2 (proj2 (proj2
             (proj2 (proj2 (alike_fields x x' A)))))))) Hf).
  rewrite <- (length_map id (filter p l)), <- (length_map id (filter p l')).
  rewrite (alike_map id _ _ (fun x x' A => proj1 A) Hf). reflexivity.
Qed.

(** Everything in a report but the findings themselves is read from the
    ids and the cores of the findings. *)
Lemma alike_report l l' :
  Forall2 alike l l' ->
  score l = score l'
  /\ breakdown l = breakdown l'
  /\ map id (top_open_of l) = map id (top_open_of l')
  /\ remediation_plan (top_open_of l) = remediation_plan (top_open_of l')
  /\ resolve_simulation (top_open_of l) = resolve_simulation (top_open_of l').
Proof.
  intros H.
  assert (Htop : Forall2 alike (top_open_of l) (top_open_of l')).
  { unfold top_open_of. apply alike_firstn, alike_filter; [|exact H].
    intros x x' A. unfold has_status.
    destruct (alike_fields x x' A) as [_ [_ [_ [_ [_ [_ [-> _]]]]]]]. reflexivity. }
  split.
  { apply score_core. apply (alike_map core); [|exact H]. intros x x' A. apply A. }
  split.
  { unfold breakdown. f_equal.
    - apply map_ext. intros t. f_equal. apply alike_group; [|exact H].
      intros x x' A. destruct (alike_fields x x' A) as [_ [-> _]]. reflexivity.
    - apply map_ext. intros d. f_equal. apply alike_group; [|exact H].
      intros x x' A. destruct (alike_fields x x' A) as [_ [_ [-> _]]]. reflexivity.
    - f_equal. f_equal. apply map_ext. intros d. f_equal. apply alike_group; [|exact H].
      intros x x' A. destruct (alike_fields x x' A) as [_ [_ [-> _]]]. reflexivity. }
  split.
  { apply (alike_map id); [|exact Htop]. intros x x' A. apply A. }
  split.
  { rewrite !remediation_plan_eq. f_equal.
    - apply (alike_map plan_item).
      + intros x x' A. unfold plan_item.
        destruct (alike_fields x x' A) as [-> [_ [_ [_ [_ [-> _]]]]]]. reflexivity.
      + apply alike_filter; [|exact Htop]. intros x x' A. unfold is_quick_win.
        destruct (alike_fields x x' A) as [_ [-> [-> _]]]. reflexivity.
    - apply (alike_map plan_item).
      + intros x x' A. unfold plan_item.
        destruct (alike_fields x x' A) as [-> [_ [_ [_ [_ [-> _]]]]]]. reflexivity.
      + apply alike_filter; [|exact Htop]. intros x x' A. unfold is_quick_win.
        destruct (alike_fields x x' A) as [_ [-> [-> _]]]. reflexivity. }
  unfold resolve_simulation. apply alike_map; [|exact Htop].
  intros x x' A. destruct A as [-> _]. reflexivity.
Qed.

Lemma tag_records_dicts path l :
  tag_records path (map ItemDict l) = map (tagged path) l.
Proof.
  unfold tag_records. induction l as [|r l IH]; cbn [map flat_map app]; [reflexivity|].
  rewrite IH. reflexivity.
Qed.

Lemma merged_of_bucket loaded m :
  In m (merged_of loaded) ->
  exists k m0, dict_find k (fold_records loaded) = Some m0 /\ m = set_id (id m) m0.
Proof.
  unfold merged_of. intros Hm. destruct (assign_ids_In _ _ _ Hm) as [m0 [i [Hin ->]]].
  apply (Permutation_in _ (Permutation_sym (sort_by_priority_perm _))) in Hin.
  apply in_map_iff in Hin. destruct Hin as [[k m1] [E Hin]]. cbn [snd] in E. subst m1.
  exists k, m0. split; [|reflexivity].
  apply In_dict_find; [apply fold_records_NoDup | exact Hin].
Qed.

Lemma merged_of_sorted loaded : StronglySorted not_after (merged_of loaded).
Proof. apply assign_ids_sorted, sort_by_priority_sorted. Qed.

(** The fingerprint of a finding read back. *)
Definition refingerprint (m : merged) : string :=
  Str.strip (detector m) ++ "|" ++ Str.strip (file m) ++ "|" ++ normalize_text (summary m).

Lemma refingerprint_assign_ids l : forall n,
  map refingerprint (assign_ids n l) = map refingerprint l.
Proof.
  induction l as [|r l IH]; intros n; cbn [assign_ids map]; [reflexivity|].
  rewrite IH. reflexivity.
Qed.

(** The findings of a report have distinct fingerprints when read back,
    as long as no detector of the run holds a bar. *)
Lemma merged_of_refingerprint loaded :
  (forall r, In r loaded -> all_chars not_bar (detector_of r) = true) ->
  NoDup (map refingerprint (merged_of loaded)).
Proof.
  intros Hbar. unfold merged_of. rewrite refingerprint_assign_ids.
  apply (Permutation_NoDup
           (Permutation_map refingerprint (sort_by_priority_perm _))).
  rewrite map_map.
  rewrite (map_ext_in _ fst); [apply fold_records_NoDup|].
  intros [k m] Hin. cbn [fst snd].
  apply (In_dict_find _ _ _ (fold_records_NoDup loaded)) in Hin.
  apply (bucket_refingerprint loaded k m VNone Hbar Hin).
Qed.

(** X21. Merging a report again reproduces it. When no detector of a run
    holds a bar (none of the six listed does), a second run over the
    report of the first, read back as a file whose root is a dict with the
    findings under [findings], gives as many findings with the same ids
    in the same order, the same tier, detector, severity, file, line,
    summary, recommended_fix, confidence, status and [needs_validation],
    and with them the same scores, breakdown, next actions, plan and
    resolve commands. *)
Theorem merge_again (loaded : list finding) (path : string)
  (sources_value : merged -> value) :
  (forall r, In r loaded -> all_chars not_bar (detector_of r) = true) ->
  let r := build_report loaded in
  let again :=
    (path,
     PDict (Some (SList (map (fun m => ItemDict (reread (sources_value m) m))
                           (findings r))))) in
  exists r2,
    main [again] = Done r2
    /\ total_findings r2 = total_findings r
    /\ map id (findings r2) = map id (findings r)
    /\ map core (findings r2) = map core (findings r)
    /\ report_scores r2 = report_scores r
    /\ report_breakdown r2 = report_breakdown r
    /\ next r2 = next r
    /\ report_plan r2 = report_plan r
    /\ report_resolve r2 = report_resolve r.
Proof.
  intros Hbar r again. subst r again. eexists. split; [reflexivity|].
  unfold load_findings. cbn [flat_map fst snd records_of]. rewrite app_nil_r.
  rewrite <- map_map, tag_records_dicts, map_map.
  unfold build_report at 1 3 5 7 9 11 13 15. cbn [findings].
  set (fs := merged_of loaded).
  set (back := fun m => tagged path (reread (sources_value m) m)).
  assert (Hclean : forall m, In m fs -> clean m).
  { intros m Hm. destruct (merged_of_bucket loaded m Hm) as [k [m0 [H0 E]]].
    pose proof (clean_bucket loaded k m0 H0) as C. rewrite E. exact C. }
  assert (Hdistinct : NoDup (map normalized_fingerprint (map back fs))).
  { rewrite map_map. rewrite (map_ext _ refingerprint).
    - apply merged_of_refingerprint, Hbar.
    - intros m. unfold back. rewrite fingerprint_tagged. reflexivity. }
  assert (Hcore : map core (map initial_record (map back fs)) = map core fs).
  { rewrite !map_map. rewrite <- (map_id (map core fs)), map_map.
    apply map_ext_in. intros m Hm. apply core_initial_reread, Hclean, Hm. }
  assert (Hmerged : merged_of (map back fs)
                    = assign_ids 1 (map initial_record (map back fs))).
  { unfold merged_of. rewrite (fold_records_distinct _ Hdistinct).
    rewrite sort_by_priority_fixed; [reflexivity|].
    apply (sorted_core fs); [symmetry; exact Hcore | apply merged_of_sorted]. }
  assert (Hids : map id (merged_of (map back fs)) = map id fs).
  { rewrite Hmerged. unfold fs at 2. unfold merged_of.
    apply ids_assign_ids. rewrite !length_map. unfold fs, merged_of.
    apply assign_ids_length. }
  assert (Hcores : map core (merged_of (map back fs)) = map core fs).
  { rewrite Hmerged, core_assign_ids. exact Hcore. }
  pose proof (alike_of_maps _ _ Hids Hcores) as A.
  destruct (alike_report _ _ A) as [Hs [Hb [Hn [Hp Hr]]]].
  unfold build_report.
  cbn [total_findings findings report_scores report_breakdown next report_plan
         report_resolve].
  fold fs. fold back.
  split; [rewrite <- (length_map id), Hids; apply length_map|].
  repeat (split; [assumption|]). assumption.
Qed.

Definition ex_d : finding :=
  [("detector", VStr "naming_consistency"); ("file", VStr "b.go");
   ("summary", VStr "Mixed case names"); ("tier", VStr "T3"); ("line", VInt 12)].

Lemma merge_again_witness :
  let r := build_report [ex_a; ex_d; ex_b] in
  let again :=
    ("runs/report.json",
     PDict (Some (SList (map (fun m => ItemDict (reread (VOther "['f1.json']" true) m))
                           (findings r))))) in
  exists r2,
    main [again] = Done r2
    /\ total_findings r2 = total_findings r
    /\ map id (findings r2) = map id (findings r)
    /\ map core (findings r2) = map core (findings r)
    /\ report_scores r2 = report_scores r
    /\ report_breakdown r2 = report_breakdown r
    /\ next r2 = next r
    /\ report_plan r2 = report_plan r
    /\ report_resolve r2 = report_resolve r.
Proof.
  apply (merge_again [ex_a; ex_d; ex_b] "runs/report.json"
           (fun _ => VOther "['f1.json']" true)).
  intros r [<- | [<- | [<- | []]]]; reflexivity.
Defined.

(** ** The line of a bucket *)

(** X22. When the first record of a fingerprint has no line (or null) or
    a positive integer line, the line of the merged record is the least
    positive integer line among the records of the fingerprint: it is
    at most each of them, it is the line of one of them, and it is null
    only when none of them has a positive integer line. A line that is
    not an integer, or not positive, in a later record is passed over. *)
Theorem merged_line_least (loaded : list finding) (k : string) (m : merged)
  (first : finding) (later : list finding) :
  dict_find k (fold_records loaded) = Some m ->
  filter (fun r => String.eqb (normalized_fingerprint r) k) loaded = first :: later ->
  (dict_get "line" VNone first = VNone
   \/ exists n, as_int (dict_get "line" VNone first) = Some n /\ 0 < n) ->
  (forall r n, In r (first :: later) ->
     as_int (dict_get "line" VNone r) = Some n -> 0 < n ->
     exists l, as_int (line m) = Some l /\ 0 < l /\ l <= n)
  /\ (line m = VNone
      \/ exists r n, In r (first :: later) /\ line m = dict_get "line" VNone r
                     /\ as_int (dict_get "line" VNone r) = Some n /\ 0 < n).
Proof.
  intros H Hc Hv. destruct (bucket_contributors k loaded m H) as [first' [later' [Hc' ->]]].
  unfold contributors in Hc'. rewrite Hc in Hc'. inversion Hc'. subst first' later'.
  destruct (line_least_positive first later Hv) as [Hle Hor]. cbv zeta in Hle, Hor.
  split.
  - intros r n Hr Hn Hpos. apply (Hle r n Hr). unfold positive_line. rewrite Hn.
    destruct (Z.gtb_spec n 0); [reflexivity | lia].
  - destruct Hor as [E | [r [Hr [E Hp]]]]; [left; exact E|].
    right. unfold positive_line in Hp.
    destruct (as_int (dict_get "line" VNone r)) as [n|] eqn:En; [|congruence].
    exists r, n. destruct (Z.gtb_spec n 0); [auto | congruence].
Qed.

Definition ex_line : finding :=
  [("detector", VStr "duplication"); ("file", VStr "a.go");
   ("summary", VStr "dup block"); ("line", VInt 7)].

Lemma merged_line_least_witness :
  let m := merge_record (merge_record (initial_record ex_a) ex_line) ex_b in
  (forall r n, In r [ex_a; ex_line; ex_b] ->
     as_int (dict_get "line" VNone r) = Some n -> 0 < n ->
     exists l, as_int (line m) = Some l /\ 0 < l /\ l <= n)
  /\ (line m = VNone
      \/ exists r n, In r [ex_a; ex_line; ex_b] /\ line m = dict_get "line" VNone r
                     /\ as_int (dict_get "line" VNone r) = Some n /\ 0 < n).
Proof.
  apply (merged_line_least [ex_a; ex_line; ex_b] "duplication|a.go|dup block"
           (merge_record (merge_record (initial_record ex_a) ex_line) ex_b)
           ex_a [ex_line; ex_b]).
  - reflexivity.
  - reflexivity.
  - left. reflexivity.
Defined.

(** ** When every finding is open *)

(** Adding the float zero changes nothing, but for the sign of a
    negative zero. *)
Lemma float_add_zero x : Prim2SF x <> S754_zero true -> (x + 0)%float = x.
Proof.
  intros N. rewrite <- (SF2Prim_Prim2SF (x + 0)), add_spec.
  rewrite <- (SF2Prim_Prim2SF x) at 2. f_equal.
  change (Prim2SF 0) with (S754_zero false). unfold SF64add.
  destruct (Prim2SF x) as [[|]| | |]; try reflexivity. congruence.
Qed.

(** Under the subtraction from 100 the sign of a zero does not show. *)
Lemma float_sub_add_zero x : (100 - (x + 0))%float = (100 - x)%float.
Proof.
  destruct (Prim2SF x) as [[|]|s| |s m e] eqn:E;
    try (rewrite float_add_zero by (rewrite E; discriminate); reflexivity).
  rewrite <- (SF2Prim_Prim2SF x), E. reflexivity.
Qed.

Lemma filter_all {A : Type} (p : A -> bool) l :
  (forall x, In x l -> p x = true) -> filter p l = l.
Proof.
  induction l as [|x l IH]; intros H; cbn [filter]; [reflexivity|].
  rewrite (H x (or_introl Logic.eq_refl)), IH; [reflexivity|].
  intros y Hy. apply H. right. exact Hy.
Qed.

(** X23. When every record is open the two scores agree:
    [overall_score] is [strict_score], in binary64 and for every list of
    records. *)
Theorem scores_agree_when_open (records : list merged) :
  (forall r, In r records -> status r = "open") ->
  overall_score (score records) = strict_score (score records).
Proof.
  intros H. unfold score. cbn [overall_score strict_score].
  rewrite (filter_all (has_status "open")).
  - rewrite (filter_none (has_status "wontfix")).
    + change (0.5 * Py.sum (map penalty []))%float with 0%float.
      rewrite float_sub_add_zero. reflexivity.
    + intros r Hr. unfold has_status. rewrite (H r Hr). reflexivity.
  - intros r Hr. unfold has_status. rewrite (H r Hr). reflexivity.
Qed.

Lemma scores_agree_when_open_witness :
  overall_score (score [initial_record ex_b; initial_record ex_d])
  = strict_score (score [initial_record ex_b; initial_record ex_d]).
Proof.
  apply (scores_agree_when_open [initial_record ex_b; initial_record ex_d]).
  intros r [<- | [<- | []]]; reflexivity.
Defined.

(** ** The order of the fold and the contents of the merged set *)








